(** * A contact book with validated fields and an upcoming-birthday query

    Shallow embedding of the classes of [task01.py] (the same classes open
    [task02.py], which adds a command loop around them): [Field], [Name],
    [Phone], [Birthday], [Record] and [AddressBook].

    Conventions of the embedding:
    - a Python [str] is the list of its Unicode code points;
    - a Python [int] is a [Z];
    - an object is its state, and a method that mutates [self] is a
      computation in a state-and-exception monad over that state: what was
      mutated before an exception is raised stays mutated, as in Python;
      the statements below are about one object at a time, so a record
      filed in a book is held there by value;
    - the clock read by [datetime.now()] is an explicit argument;
    - the parts of the Python runtime the classes call ([str.isdigit],
      [datetime.strptime], the comparison, the arithmetic and the printing
      of [datetime]) are embedded from their CPython 3.11 sources, before
      the classes that call them. *)

From Stdlib Require Import ZArith NArith List String Ascii Bool Lia.
From stdpp Require Import base list.
Import ListNotations.

Local Open Scope Z_scope.

(** ** Strings *)

(** A Python string: its code points, in order. *)
Abbreviation str := (list N).

(** A literal of the source, written in ASCII. *)
Definition lit (s : string) : str := map N_of_ascii (list_ascii_of_string s).

Definition str_eqb (a b : str) : bool := bool_decide (a = b).

(** Membership of a code point in a table of inclusive ranges. *)
Definition in_ranges (tbl : list (N * N)) (c : N) : bool :=
  existsb (fun r => (fst r <=? c)%N && (c <=? snd r)%N) tbl.

(** Code points with [Numeric_Type=Decimal] (general category Nd), Unicode
    14.0.0 as shipped with CPython 3.11.  Each range is a whole number of
    runs 0..9. *)
Definition decimal_ranges : list (N * N) :=
  [ (48, 57); (1632, 1641); (1776, 1785); (1984, 1993); (2406, 2415);
    (2534, 2543); (2662, 2671); (2790, 2799); (2918, 2927); (3046, 3055);
    (3174, 3183); (3302, 3311); (3430, 3439); (3558, 3567); (3664, 3673);
    (3792, 3801); (3872, 3881); (4160, 4169); (4240, 4249); (6112, 6121);
    (6160, 6169); (6470, 6479); (6608, 6617); (6784, 6793); (6800, 6809);
    (6992, 7001); (7088, 7097); (7232, 7241); (7248, 7257); (42528, 42537);
    (43216, 43225); (43264, 43273); (43472, 43481); (43504, 43513);
    (43600, 43609); (44016, 44025); (65296, 65305); (66720, 66729);
    (68912, 68921); (69734, 69743); (69872, 69881); (69942, 69951);
    (70096, 70105); (70384, 70393); (70736, 70745); (70864, 70873);
    (71248, 71257); (71360, 71369); (71472, 71481); (71904, 71913);
    (72016, 72025); (72784, 72793); (73040, 73049); (73120, 73129);
    (92768, 92777); (92864, 92873); (93008, 93017); (120782, 120831);
    (123200, 123209); (123632, 123641); (125264, 125273);
    (130032, 130041) ]%N.

(** Code points with [Numeric_Type=Digit] that are not decimal: superscripts,
    subscripts, circled and parenthesised digits and the like. *)
Definition digit_only_ranges : list (N * N) :=
  [ (178, 179); (185, 185); (4969, 4977); (6618, 6618); (8304, 8304);
    (8308, 8313); (8320, 8329); (9312, 9320); (9332, 9340); (9352, 9360);
    (9450, 9450); (9461, 9469); (9471, 9471); (10102, 10110);
    (10112, 10120); (10122, 10130); (68160, 68163); (69216, 69224);
    (69714, 69722); (127232, 127242) ]%N.

(** [Py_UNICODE_ISDECIMAL]: what [\d] matches in a [str] pattern and what
    [int()] reads as a digit. *)
Definition Py_UNICODE_ISDECIMAL (c : N) : bool := in_ranges decimal_ranges c.

(** [Py_UNICODE_ISDIGIT]: [Numeric_Type] is [Digit] or [Decimal]. *)
Definition Py_UNICODE_ISDIGIT (c : N) : bool :=
  Py_UNICODE_ISDECIMAL c || in_ranges digit_only_ranges c.

(** [Py_UNICODE_TODECIMAL]: the value of a decimal digit. *)
Definition Py_UNICODE_TODECIMAL (c : N) : option Z :=
  match List.find (fun r => (fst r <=? c)%N && (c <=? snd r)%N) decimal_ranges with
  | Some r => Some (Z.of_N ((c - fst r) mod 10))
  | None => None
  end.

(** [str.isdigit()]: every character is a digit and there is at least one. *)
Definition isdigit (s : str) : bool :=
  negb (bool_decide (s = [])) && forallb Py_UNICODE_ISDIGIT s.

(** [str.isspace()] on one character, Unicode 14.0.0. *)
Definition Py_UNICODE_ISSPACE (c : N) : bool :=
  in_ranges [ (9, 13); (28, 32); (133, 133); (160, 160); (5760, 5760);
              (8192, 8202); (8232, 8233); (8239, 8239); (8287, 8287);
              (12288, 12288) ]%N c.

(** The ten ASCII digits, [0] to [9]. *)
Definition is_ascii_digit (c : N) : bool := (48 <=? c)%N && (c <=? 57)%N.

(** ** Exceptions and stateful computations *)

Inductive exn : Type :=
| ValueError (msg : string)
| OverflowError (msg : string)
| KeyError (msg : string).

Inductive result (A : Type) : Type :=
| Return (a : A)
| Raise (e : exn).
Arguments Return {A} a.
Arguments Raise {A} e.

(** A method body: it runs on the state of [self], ends by returning or by
    raising, and leaves a state behind in both cases. *)
Definition M (S A : Type) : Type := S -> result A * S.

Definition ret {S A} (a : A) : M S A := fun s => (Return a, s).
Definition raise {S A} (e : exn) : M S A := fun s => (Raise e, s).
Definition bind {S A B} (m : M S A) (f : A -> M S B) : M S B :=
  fun s => match m s with
           | (Return a, s') => f a s'
           | (Raise e, s') => (Raise e, s')
           end.
Definition get {S} : M S S := fun s => (Return s, s).
Definition modify {S} (f : S -> S) : M S unit := fun s => (Return tt, f s).
(** Evaluation of an expression that may raise but touches no state. *)
Definition eval {S A} (r : result A) : M S A := fun s => (r, s).

Declare Scope py_scope.
Delimit Scope py_scope with py.
Notation "x <- m ;; k" := (bind m (fun x => k))
  (at level 100, m at next level, right associativity) : py_scope.
Notation "m ;;; k" := (bind m (fun _ => k))
  (at level 100, right associativity) : py_scope.

Definition result_bind {A B} (r : result A) (f : A -> result B) : result B :=
  match r with
  | Return a => f a
  | Raise e => Raise e
  end.

(** ** [datetime]: the calendar of CPython's [datetime.py] *)

Definition MINYEAR : Z := 1.
Definition MAXYEAR : Z := 9999.
(** [date.max.toordinal()] *)
Definition _MAXORDINAL : Z := 3652059.

(** Index 0 holds a placeholder, as in the source. *)
Definition _DAYS_IN_MONTH : list Z :=
  [-1; 31; 28; 31; 30; 31; 30; 31; 31; 30; 31; 30; 31].

(** Built by the source's loop over [_DAYS_IN_MONTH[1:]]. *)
Definition _DAYS_BEFORE_MONTH : list Z :=
  fst (fold_left (fun '(tbl, dbm) dim => (tbl ++ [dbm], dbm + dim))
                 (tl _DAYS_IN_MONTH) ([-1], 0)).

(** [tbl[i]] for an index known to be in range. *)
Definition index (tbl : list Z) (i : Z) : Z := nth (Z.to_nat i) tbl 0.

Definition _is_leap (year : Z) : bool :=
  (year mod 4 =? 0) && (negb (year mod 100 =? 0) || (year mod 400 =? 0)).

Definition _days_before_year (year : Z) : Z :=
  let y := year - 1 in
  y * 365 + y / 4 - y / 100 + y / 400.

Definition _days_in_month (year month : Z) : Z :=
  if (month =? 2) && _is_leap year then 29 else index _DAYS_IN_MONTH month.

Definition _days_before_month (year month : Z) : Z :=
  index _DAYS_BEFORE_MONTH month + Z.b2z ((2 <? month) && _is_leap year).

Definition _ymd2ord (year month day : Z) : Z :=
  _days_before_year year + _days_before_month year month + day.

Definition _DI400Y : Z := _days_before_year 401.
Definition _DI100Y : Z := _days_before_year 101.
Definition _DI4Y : Z := _days_before_year 5.

Definition _ord2ymd (n : Z) : Z * Z * Z :=
  let n := n - 1 in
  let n400 := n / _DI400Y in
  let n := n mod _DI400Y in
  let year := n400 * 400 + 1 in
  let n100 := n / _DI100Y in
  let n := n mod _DI100Y in
  let n4 := n / _DI4Y in
  let n := n mod _DI4Y in
  let n1 := n / 365 in
  let n := n mod 365 in
  let year := year + (n100 * 100 + n4 * 4 + n1) in
  if (n1 =? 4) || (n100 =? 4) then (year - 1, 12, 31)
  else
    let leapyear := (n1 =? 3) && (negb (n4 =? 24) || (n100 =? 3)) in
    let month := Z.shiftr (n + 50) 5 in
    let preceding :=
      index _DAYS_BEFORE_MONTH month + Z.b2z ((2 <? month) && leapyear) in
    let '(month, preceding) :=
      if n <? preceding
      then (month - 1,
            preceding - (index _DAYS_IN_MONTH (month - 1)
                         + Z.b2z ((month - 1 =? 2) && leapyear)))
      else (month, preceding) in
    (year, month, n - preceding + 1).

(** A naive [datetime] (no [tzinfo]): the seven fields its comparisons and
    arithmetic read. *)
Record datetime : Type := mk_datetime {
  year : Z; month : Z; day : Z;
  hour : Z; minute : Z; second : Z; microsecond : Z
}.

Definition _check_date_fields (year month day : Z) : result (Z * Z * Z) :=
  if negb ((MINYEAR <=? year) && (year <=? MAXYEAR))
  then Raise (ValueError "year must be in 1..9999")
  else if negb ((1 <=? month) && (month <=? 12))
  then Raise (ValueError "month must be in 1..12")
  else if negb ((1 <=? day) && (day <=? _days_in_month year month))
  then Raise (ValueError "day is out of range for month")
  else Return (year, month, day).

Definition _check_time_fields (hour minute second microsecond : Z)
  : result (Z * Z * Z * Z) :=
  if negb ((0 <=? hour) && (hour <=? 23))
  then Raise (ValueError "hour must be in 0..23")
  else if negb ((0 <=? minute) && (minute <=? 59))
  then Raise (ValueError "minute must be in 0..59")
  else if negb ((0 <=? second) && (second <=? 59))
  then Raise (ValueError "second must be in 0..59")
  else if negb ((0 <=? microsecond) && (microsecond <=? 999999))
  then Raise (ValueError "microsecond must be in 0..999999")
  else Return (hour, minute, second, microsecond).

(** [datetime(year, month, day, hour, minute, second, microsecond)] *)
Definition datetime_new (year month day hour minute second microsecond : Z)
  : result datetime :=
  result_bind (_check_date_fields year month day) (fun '(y, m, d) =>
  result_bind (_check_time_fields hour minute second microsecond)
    (fun '(hh, mm, ss, us) => Return (mk_datetime y m d hh mm ss us))).

(** The fields a [datetime] is built from are kept in range by its
    constructor; this is the predicate it checks. *)
Definition datetime_ok (dt : datetime) : bool :=
  match datetime_new (year dt) (month dt) (day dt)
                     (hour dt) (minute dt) (second dt) (microsecond dt) with
  | Return _ => true
  | Raise _ => false
  end.

(** [_cmp] on two tuples of integers: lexicographic, giving -1, 0 or 1. *)
Fixpoint _cmp (x y : list Z) : Z :=
  match x, y with
  | a :: x', b :: y' => if a <? b then -1 else if b <? a then 1 else _cmp x' y'
  | [], [] => 0
  | [], _ :: _ => -1
  | _ :: _, [] => 1
  end.

Definition datetime_tuple (dt : datetime) : list Z :=
  [year dt; month dt; day dt; hour dt; minute dt; second dt; microsecond dt].

(** [datetime._cmp] for two naive datetimes. *)
Definition datetime_cmp (a b : datetime) : Z :=
  _cmp (datetime_tuple a) (datetime_tuple b).

(** [a <= b] *)
Definition datetime_le (a b : datetime) : bool := datetime_cmp a b <=? 0.

Definition toordinal (dt : datetime) : Z := _ymd2ord (year dt) (month dt) (day dt).

(** A [timedelta] in normal form: days, seconds in 0..86399, microseconds in
    0..999999. *)
Record timedelta : Type := mk_timedelta {
  td_days : Z; td_seconds : Z; td_microseconds : Z
}.

(** [timedelta(days, seconds, microseconds, minutes=, hours=)] on integers:
    the carries of the constructor, then its range check. *)
Definition timedelta_new (days seconds microseconds minutes hours : Z)
  : result timedelta :=
  let seconds := seconds + minutes * 60 + hours * 3600 in
  let seconds := seconds + microseconds / 1000000 in
  let us := microseconds mod 1000000 in
  let d := days + seconds / 86400 in
  let s := seconds mod 86400 in
  if 999999999 <? Z.abs d
  then Raise (OverflowError "timedelta # of days is too large")
  else Return (mk_timedelta d s us).

(** [timedelta.__add__] *)
Definition timedelta_add (a b : timedelta) : result timedelta :=
  timedelta_new (td_days a + td_days b) (td_seconds a + td_seconds b)
                (td_microseconds a + td_microseconds b) 0 0.

(** [date.fromordinal(n)] combined with a time of day *)
Definition combine_fromordinal (n hour minute second microsecond : Z)
  : result datetime :=
  let '(y, m, d) := _ord2ymd n in
  datetime_new y m d hour minute second microsecond.

(** [datetime.__add__]: a naive datetime plus a timedelta.  The sum is
    computed as [datetime.py] computes it, on the ordinal of the date and
    the seconds of the day.  The interpreter runs the C implementation,
    [_datetime], which normalises the fields instead: it gives the same
    datetime, and whenever the date is not one of the years 1 to 9999 it
    raises [OverflowError('date value out of range')]. *)
Definition datetime_add (self : datetime) (other : timedelta) : result datetime :=
  let out_of_range := Raise (OverflowError "date value out of range") in
  match result_bind (timedelta_new (toordinal self) (second self)
                                   (microsecond self) (minute self) (hour self))
                    (fun delta => timedelta_add delta other) with
  | Return delta =>
      let hour := td_seconds delta / 3600 in
      let rem := td_seconds delta mod 3600 in
      let minute := rem / 60 in
      let second := rem mod 60 in
      if (0 <? td_days delta) && (td_days delta <=? _MAXORDINAL)
      then combine_fromordinal (td_days delta) hour minute second
                               (td_microseconds delta)
      else out_of_range
  | Raise _ => out_of_range
  end.

(** ** Formatting integers and dates *)

(** The decimal digits of a non-negative integer, most significant first. *)
Fixpoint decimal_digits (fuel : nat) (n : Z) (acc : str) : str :=
  let acc := Z.to_N (48 + n mod 10) :: acc in
  match fuel with
  | O => acc
  | S fuel => if n <? 10 then acc else decimal_digits fuel (n / 10) acc
  end.

(** ["%d" % n] for [n >= 0] *)
Definition decimal (n : Z) : str := decimal_digits (Z.to_nat (Z.log2 n)) n [].

(** ["%0wd" % n] for [n >= 0]: zero-filled to a width of at least [w]. *)
Definition zero_filled (w : nat) (n : Z) : str :=
  let d := decimal n in
  repeat 48%N (w - length d) ++ d.

(** How the C library under the interpreter prints [%Y] in [strftime].  The
    C standard does not fix the number of digits of a year below 1000: some
    libraries fill it with zeros to four digits, as the documentation of
    [%Y] shows it; glibc prints the bare number, so that CPython 3.11 on
    Linux prints the year 99 as ["99"]. *)
Inductive year_style : Type := four_digits | bare_number.

(** [dt.strftime('%d.%m.%Y')] *)
Definition strftime_dmY (libc : year_style) (dt : datetime) : str :=
  zero_filled 2 (day dt) ++ lit "." ++ zero_filled 2 (month dt) ++ lit "."
  ++ match libc with
     | four_digits => zero_filled 4 (year dt)
     | bare_number => decimal (year dt)
     end.

(** [_format_time] with [timespec='auto'] *)
Definition _format_time (hh mm ss us : Z) : str :=
  zero_filled 2 hh ++ lit ":" ++ zero_filled 2 mm ++ lit ":" ++ zero_filled 2 ss
  ++ (if us =? 0 then [] else lit "." ++ zero_filled 6 us).

(** [str(dt)], that is [dt.isoformat(sep=' ')], of a naive datetime *)
Definition datetime_str (dt : datetime) : str :=
  zero_filled 4 (year dt) ++ lit "-" ++ zero_filled 2 (month dt) ++ lit "-"
  ++ zero_filled 2 (day dt) ++ lit " "
  ++ _format_time (hour dt) (minute dt) (second dt) (microsecond dt).

(** ** [datetime.strptime(s, "%d.%m.%Y")], from CPython's [_strptime.py] *)

(** The fragment of regular expressions the format compiles to, matched as
    [re.match] does: from the start of the string, alternatives tried in
    order, backtracking into a later alternative when what follows fails. *)
Inductive re : Type :=
| Chr (p : N -> bool)
| Cat (a b : re)
| Alt (a b : re).

Fixpoint re_match {A} (r : re) (s : str) (k : str -> option A) : option A :=
  match r with
  | Chr p => match s with
             | c :: s' => if p c then k s' else None
             | [] => None
             end
  | Cat a b => re_match a s (fun s' => re_match b s' k)
  | Alt a b => match re_match a s k with
               | Some x => Some x
               | None => re_match b s k
               end
  end.

Definition chr (a : ascii) : N -> bool := N.eqb (N_of_ascii a).
Definition rng (lo hi : ascii) (c : N) : bool :=
  (N_of_ascii lo <=? c)%N && (c <=? N_of_ascii hi)%N.

(** [%d]: [3[0-1]|[1-2]\d|0[1-9]|[1-9]| [1-9]] *)
Definition re_d : re :=
  Alt (Cat (Chr (chr "3")) (Chr (rng "0" "1")))
 (Alt (Cat (Chr (rng "1" "2")) (Chr Py_UNICODE_ISDECIMAL))
 (Alt (Cat (Chr (chr "0")) (Chr (rng "1" "9")))
 (Alt (Chr (rng "1" "9"))
      (Cat (Chr (chr " ")) (Chr (rng "1" "9")))))).

(** [%m]: [1[0-2]|0[1-9]|[1-9]] *)
Definition re_m : re :=
  Alt (Cat (Chr (chr "1")) (Chr (rng "0" "2")))
 (Alt (Cat (Chr (chr "0")) (Chr (rng "1" "9")))
      (Chr (rng "1" "9"))).

(** [%Y]: [\d\d\d\d] *)
Definition re_Y : re :=
  Cat (Chr Py_UNICODE_ISDECIMAL) (Cat (Chr Py_UNICODE_ISDECIMAL)
 (Cat (Chr Py_UNICODE_ISDECIMAL) (Chr Py_UNICODE_ISDECIMAL))).

(** The text a group matched: what lies between two positions. *)
Definition group (s rest : str) : str := take (length s - length rest) s.

(** [format_regex.match(data_string)] for
    [(?P<d>...)\.(?P<m>...)\.(?P<Y>...)]: the groups [d], [m], [Y] and the
    text after [found.end()]. *)
Definition format_regex_match (s : str) : option (str * str * str * str) :=
  re_match re_d s (fun s1 =>
  re_match (Chr (chr ".")) s1 (fun s2 =>
  re_match re_m s2 (fun s3 =>
  re_match (Chr (chr ".")) s3 (fun s4 =>
  re_match re_Y s4 (fun s5 =>
  Some (group s s1, group s2 s3, group s4 s5, s5)))))).

Fixpoint lstrip (s : str) : str :=
  match s with
  | c :: s' => if Py_UNICODE_ISSPACE c then lstrip s' else s
  | [] => []
  end.

Definition strip (s : str) : str := rev (lstrip (rev (lstrip s))).

Fixpoint int_digits (acc : Z) (s : str) : option Z :=
  match s with
  | [] => Some acc
  | c :: s' => match Py_UNICODE_TODECIMAL c with
               | Some d => int_digits (10 * acc + d) s'
               | None => None
               end
  end.

(** [int(s)] on a text without sign or underscore, which is all a group of
    the pattern can hold: white space around is dropped, the rest is read
    as decimal digits of any script. *)
Definition int (s : str) : result Z :=
  match strip s with
  | [] => Raise (ValueError "invalid literal for int() with base 10")
  | ds => match int_digits 0 ds with
          | Some n => Return n
          | None => Raise (ValueError "invalid literal for int() with base 10")
          end
  end.

(** [_strptime]: the year, month and day found in the string.  The check of
    the date is the one [datetime_date(year, month, day)] makes where the
    source computes the day of the year. *)
Definition _strptime (data_string : str) : result (Z * Z * Z) :=
  match format_regex_match data_string with
  | None => Raise (ValueError "time data does not match format")
  | Some (d, m, Y, rest) =>
      if negb (bool_decide (rest = []))
      then Raise (ValueError "unconverted data remains")
      else
        result_bind (int d) (fun day =>
        result_bind (int m) (fun month =>
        result_bind (int Y) (fun year =>
        _check_date_fields year month day)))
  end.

(** [datetime.strptime(data_string, "%d.%m.%Y")]: hour, minute, second and
    fraction keep their default, 0. *)
Definition strptime (data_string : str) : result datetime :=
  result_bind (_strptime data_string) (fun '(year, month, day) =>
  datetime_new year month day 0 0 0 0).

(** ** Lists, dictionaries and [str()] as the classes use them *)

(** [str(x)], by the type of [x] *)
Class Str (V : Type) : Type := str_of : V -> str.
#[export] Instance Str_str : Str str := fun s => s.
#[export] Instance Str_datetime : Str datetime := datetime_str.

(** [sep.join(items)] *)
Fixpoint join (sep : str) (items : list str) : str :=
  match items with
  | [] => []
  | [x] => x
  | x :: rest => x ++ sep ++ join sep rest
  end.

(** [l.remove(x)]: drops the first item equal to [x]; [ValueError] when
    there is none. *)
Fixpoint list_remove {A} `{EqDecision A} (x : A) (l : list A) : result (list A) :=
  match l with
  | [] => Raise (ValueError "list.remove(x): x not in list")
  | y :: l' => if decide (y = x) then Return l'
               else result_bind (list_remove x l') (fun r => Return (y :: r))
  end.

(** A [dict]: its items in insertion order, one per key. *)
Abbreviation dict V := (list (str * V)).

(** [k in d] *)
Definition dict_contains {V} (d : dict V) (k : str) : bool :=
  existsb (fun kv => str_eqb (fst kv) k) d.

(** [d.get(k)] *)
Fixpoint dict_get {V} (d : dict V) (k : str) : option V :=
  match d with
  | [] => None
  | (k', v) :: d' => if str_eqb k' k then Some v else dict_get d' k
  end.

(** [d[k] = v]: a key already there keeps its place and takes the new
    value; a new key goes last. *)
Fixpoint dict_setitem {V} (d : dict V) (k : str) (v : V) : dict V :=
  match d with
  | [] => [(k, v)]
  | (k', v') :: d' => if str_eqb k' k then (k', v) :: d'
                      else (k', v') :: dict_setitem d' k v
  end.

(** [del d[k]]: [KeyError] when the key is missing. *)
Fixpoint dict_delitem {V} (d : dict V) (k : str) : result (dict V) :=
  match d with
  | [] => Raise (KeyError "key")
  | (k', v') :: d' => if str_eqb k' k then Return d'
                      else result_bind (dict_delitem d' k)
                                       (fun r => Return ((k', v') :: r))
  end.

(** [d.values()] *)
Definition dict_values {V} (d : dict V) : list V := map snd d.
Definition dict_keys {V} (d : dict V) : list str := map fst d.

(** ** The fields *)

Module Field.
Record t (V : Type) : Type := mk { value : V }.
Arguments mk {V} value.
Arguments value {V} t.
Definition __init__ {V} (value : V) : t V := mk value.
Definition __str__ {V} `{Str V} (self : t V) : str := str_of (value self).
End Field.

#[export] Instance Field_eq_dec {V} `{EqDecision V} : EqDecision (Field.t V).
Proof. solve_decision. Defined.

Module Name.
Definition t : Type := Field.t str.
(** [not value]: a string is false exactly when it is empty. *)
Definition __init__ (value : str) : result t :=
  if bool_decide (value = [])
  then Raise (ValueError "The name cannot be empty.")
  else Return (Field.__init__ value).
End Name.

Module Phone.
Definition t : Type := Field.t str.
Definition __init__ (value : str) : result t :=
  if negb (isdigit value) || negb (length value =? 10)%nat
  then Raise (ValueError "The phone number must contain exactly 10 digits.")
  else Return (Field.__init__ value).
End Phone.

Module Birthday.
Definition t : Type := Field.t datetime.
(** Any [ValueError] of [strptime] is replaced by the class's own. *)
Definition __init__ (value : str) : result t :=
  match strptime value with
  | Return dt => Return (Field.mk dt)
  | Raise (ValueError _) => Raise (ValueError "Invalid date format. Use DD.MM.YYYY")
  | Raise e => Raise e
  end.
End Birthday.

(** ** [Record] *)

Module Record.
Record t : Type := mk {
  name : Name.t;
  phones : list Phone.t;
  birthday : option Birthday.t
}.

Definition set_phones (ps : list Phone.t) (self : t) : t :=
  mk (name self) ps (birthday self).
Definition set_birthday (b : option Birthday.t) (self : t) : t :=
  mk (name self) (phones self) b.

Definition __init__ (name : str) : result t :=
  result_bind (Name.__init__ name) (fun n => Return (mk n [] None)).

(** [self.phones.append(Phone(phone))]: the argument is evaluated first. *)
Definition add_phone (phone : str) : M t unit :=
  (p <- eval (Phone.__init__ phone);;
   modify (fun self => set_phones (phones self ++ [p]) self))%py.

(** [self.phones.remove(p)].  The source compares phones as objects, [Field]
    having no [__eq__].  Where [remove_phone] calls it, [p] is the first
    phone of the list with its value, hence the first occurrence of that
    object as well: removing the first phone equal to [p] by value removes
    the same item. *)
Definition phones_remove (p : Phone.t) : M t unit :=
  (self <- get;;
   ps <- eval (list_remove p (phones self));;
   modify (set_phones ps))%py.

(** The [for p in self.phones] of [remove_phone], on the items still to
    visit. *)
Fixpoint remove_phone_loop (todo : list Phone.t) (phone : str) : M t bool :=
  match todo with
  | [] => ret false
  | p :: todo' =>
      if str_eqb (Field.value p) phone
      then (phones_remove p;;; ret true)%py
      else remove_phone_loop todo' phone
  end.

Definition remove_phone (phone : str) : M t bool :=
  (self <- get;; remove_phone_loop (phones self) phone)%py.

(** The [for i, p in enumerate(self.phones)] of [edit_phone]: [i] is the
    index of the head of [todo].  [self.phones[i] = x] is in range there. *)
Fixpoint edit_phone_loop (i : nat) (todo : list Phone.t)
                         (old_phone new_phone : str) : M t bool :=
  match todo with
  | [] => ret false
  | p :: todo' =>
      if str_eqb (Field.value p) old_phone
      then (x <- eval (Phone.__init__ new_phone);;
            modify (fun self => set_phones (<[i:=x]> (phones self)) self);;;
            ret true)%py
      else edit_phone_loop (S i) todo' old_phone new_phone
  end.

Definition edit_phone (old_phone new_phone : str) : M t bool :=
  (self <- get;; edit_phone_loop 0 (phones self) old_phone new_phone)%py.

Definition add_birthday (birthday : str) : M t unit :=
  (b <- eval (Birthday.__init__ birthday);;
   modify (set_birthday (Some b)))%py.

Definition __str__ (libc : year_style) (self : t) : str :=
  let phone_str := join (lit ", ") (map Field.value (phones self)) in
  let birthday_str :=
    match birthday self with
    | Some b => lit ", Birthday: " ++ strftime_dmY libc (Field.value b)
    | None => []
    end in
  lit "Contact name: " ++ Field.value (name self) ++ lit ", phones: "
  ++ phone_str ++ birthday_str.
End Record.

(** ** [AddressBook] *)

Module AddressBook.
(** A [UserDict]: the dictionary is its [data]. *)
Record t : Type := mk { data : dict Record.t }.

Definition add_record (record : Record.t) : M t unit :=
  modify (fun self =>
    mk (dict_setitem (data self) (Field.value (Record.name record)) record)).

Definition find (name : str) : M t (option Record.t) :=
  (self <- get;; ret (dict_get (data self) name))%py.

Definition delete (name : str) : M t unit :=
  (self <- get;;
   if dict_contains (data self) name
   then (d <- eval (dict_delitem (data self) name);; modify (fun _ => mk d))
   else ret tt)%py.

(** The body of the loop of [get_upcoming_birthdays] on one record. *)
Definition visit (today next_week : datetime) (upcoming_birthdays : list Record.t)
                 (record : Record.t) : list Record.t :=
  match Record.birthday record with
  | Some b =>
      let birthday := Field.value b in
      if datetime_le today birthday && datetime_le birthday next_week
      then upcoming_birthdays ++ [record]
      else upcoming_birthdays
  | None => upcoming_birthdays
  end.

(** [now] is what [datetime.now()] gives when the method is called. *)
Definition get_upcoming_birthdays (now : datetime) : M t (list Record.t) :=
  (let today := now in
   week <- eval (timedelta_new 7 0 0 0 0);;
   next_week <- eval (datetime_add today week);;
   self <- get;;
   ret (fold_left (visit today next_week) (dict_values (data self)) []))%py.
End AddressBook.

(** * Vocabulary of the statements *)

(** ** Fields *)

Definition Name_error : exn := ValueError "The name cannot be empty.".

Definition Phone_error : exn :=
  ValueError "The phone number must contain exactly 10 digits.".

Definition Birthday_error : exn :=
  ValueError "Invalid date format. Use DD.MM.YYYY".

(** Nothing but white space, or nothing at all: [s.strip() == ""]. *)
Definition whitespace_only (s : str) : Prop :=
  forall c, c ∈ s -> Py_UNICODE_ISSPACE c = true.

(** What the constructor of [Phone] accepts. *)
Definition Phone_valid (s : str) : Prop :=
  length s = 10%nat /\ forall c, c ∈ s -> Py_UNICODE_ISDIGIT c = true.

(** A phone that went through the constructor of [Phone]. *)
Definition validated (p : Phone.t) : Prop :=
  Phone.__init__ (Field.value p) = Return p.

(** ** Records and books *)

(** The values of the phones of a record, in order. *)
Definition phone_values (ps : list Phone.t) : list str := map Field.value ps.

(** The records a caller can obtain: one built by [Record(name)], then
    changed by any sequence of the public methods.  A call that raises
    leaves the record in the state it was in when the exception left the
    method, and the caller goes on from there. *)
Inductive reachable : Record.t -> Prop :=
| reach_init name r :
    Record.__init__ name = Return r -> reachable r
| reach_add_phone r phone :
    reachable r -> reachable (snd (Record.add_phone phone r))
| reach_remove_phone r phone :
    reachable r -> reachable (snd (Record.remove_phone phone r))
| reach_edit_phone r old_phone new_phone :
    reachable r -> reachable (snd (Record.edit_phone old_phone new_phone r))
| reach_add_birthday r birthday :
    reachable r -> reachable (snd (Record.add_birthday birthday r)).

(** The name a record is filed under. *)
Definition key_of (record : Record.t) : str := Field.value (Record.name record).

(** A dictionary holds one item per key. *)
Definition dict_ok {V} (d : dict V) : Prop := NoDup (dict_keys d).

(** The records of the book, in the order in which it is read. *)
Definition records (book : AddressBook.t) : list Record.t :=
  dict_values (AddressBook.data book).

(** ** The calendar *)

(** The dates [date(y, m, d)] accepts. *)
Definition date_ok (y m d : Z) : Prop :=
  1 <= y <= 9999 /\ 1 <= m <= 12 /\ 1 <= d <= _days_in_month y m.

(** The times of day [time(hh, mm, ss, us)] accepts. *)
Definition time_ok (hh mm ss us : Z) : Prop :=
  0 <= hh <= 23 /\ 0 <= mm <= 59 /\ 0 <= ss <= 59 /\ 0 <= us <= 999999.

(** The datetimes that exist as Python objects. *)
Definition datetime_valid (dt : datetime) : Prop :=
  date_ok (year dt) (month dt) (day dt)
  /\ time_ok (hour dt) (minute dt) (second dt) (microsecond dt).

(** 00:00:00 on the given day *)
Definition midnight (y m d : Z) : datetime := mk_datetime y m d 0 0 0 0.

(** The microseconds of 24 hours. *)
Definition day_us : Z := 86400 * 1000000.

(** The microseconds elapsed since midnight. *)
Definition time_of_day (dt : datetime) : Z :=
  ((hour dt * 60 + minute dt) * 60 + second dt) * 1000000 + microsecond dt.

(** The instant a naive datetime denotes: the microseconds elapsed since
    00:00:00 on 1 January of the year 1. *)
Definition instant (dt : datetime) : Z :=
  (toordinal dt - 1) * day_us + time_of_day dt.

(** The tail of [_ord2ymd]: the month and day of the [n]-th day (from 0) of
    a year. *)
Definition month_day_of_offset (n : Z) (leapyear : bool) : Z * Z :=
  let month := Z.shiftr (n + 50) 5 in
  let preceding :=
    index _DAYS_BEFORE_MONTH month + Z.b2z ((2 <? month) && leapyear) in
  let '(month, preceding) :=
    if n <? preceding
    then (month - 1,
          preceding - (index _DAYS_IN_MONTH (month - 1)
                       + Z.b2z ((month - 1 =? 2) && leapyear)))
    else (month, preceding) in
  (month, n - preceding + 1).

(** That tail is right for the day [n] of a year: checked by evaluation on
    every day of both kinds of year. *)
Definition offset_ok (leapyear : bool) (n : Z) : bool :=
  let '(m, d) := month_day_of_offset n leapyear in
  (1 <=? m) && (m <=? 12) && (1 <=? d)
  && (d <=? (if (m =? 2) && leapyear then 29 else index _DAYS_IN_MONTH m))
  && (index _DAYS_BEFORE_MONTH m + Z.b2z ((2 <? m) && leapyear) + d =? n + 1).

(** [P] holds of the [count] integers from [start] on. *)
Fixpoint all_from (P : Z -> bool) (count : nat) (start : Z) : bool :=
  match count with
  | O => true
  | S count => P start && all_from P count (start + 1)
  end.

(** ** Upcoming birthdays *)

(** The birthday of the record lies between the instant [now] and the
    instant 7 times 24 hours later, both included. *)
Definition upcoming (now : datetime) (record : Record.t) : bool :=
  match Record.birthday record with
  | Some b => (instant now <=? instant (Field.value b))
              && (instant (Field.value b) <=? instant now + 7 * day_us)
  | None => false
  end.

(** The test the loop of [get_upcoming_birthdays] makes on a record. *)
Definition in_window (today next_week : datetime) (record : Record.t) : bool :=
  match Record.birthday record with
  | Some b => datetime_le today (Field.value b)
              && datetime_le (Field.value b) next_week
  | None => false
  end.

(** Every birthday stored in the book is a [datetime] that exists. *)
Definition birthdays_valid (book : AddressBook.t) : Prop :=
  forall record b,
    record ∈ records book ->
    Record.birthday record = Some b -> datetime_valid (Field.value b).

(** ** Dates written with ASCII digits *)

(** The character of a digit 0..9, and the digit of a character. *)
Definition digit_char (n : Z) : N := Z.to_N (48 + n).
Definition digit_value (c : N) : Z := Z.of_N c - 48.

(** The number a text of ASCII digits writes. *)
Definition number (digits : str) : Z :=
  fold_left (fun acc c => 10 * acc + digit_value c) digits 0.

(** The two, and the four, last decimal digits of a number. *)
Definition two_digits_of (n : Z) : str :=
  [digit_char (n / 10); digit_char (n mod 10)].
Definition four_digits_of (n : Z) : str :=
  [digit_char (n / 1000); digit_char (n / 100 mod 10);
   digit_char (n / 10 mod 10); digit_char (n mod 10)].

(** A string of the shape DD.MM.YYYY, from its eight characters. *)
Definition DD_MM_YYYY (d1 d2 m1 m2 y1 y2 y3 y4 : N) : str :=
  [d1; d2; 46; m1; m2; 46; y1; y2; y3; y4]%N.

(** * [task02.py]: the commands of the bot

    The classes of [task02.py] are those of [task01.py], line for line; the
    functions below are what the file adds.  They run on the book.  A record
    found in the book, or just added to it, is the object the book holds
    under its name: what a method does to it shows in the book. *)

Module task02.

(** The exceptions the commands can meet: those of the classes, and those
    of indexing a list, of missing attributes and of reading input. *)
Inductive exception : Type :=
| Exn (e : exn)
| IndexError (msg : string)
| AttributeError (msg : string)
| EOFError (msg : string).

Inductive completion (A : Type) : Type :=
| Done (a : A)
| Fail (e : exception).
Arguments Done {A} a.
Arguments Fail {A} e.

(** A computation on a state [S] that returns or raises one of these. *)
Definition Run (S A : Type) : Type := S -> completion A * S.

Definition done {S A} (a : A) : Run S A := fun s => (Done a, s).
Definition fail {S A} (e : exception) : Run S A := fun s => (Fail e, s).
Definition and_then {S A B} (m : Run S A) (f : A -> Run S B) : Run S B :=
  fun s => match m s with
           | (Done a, s') => f a s'
           | (Fail e, s') => (Fail e, s')
           end.

Declare Scope run_scope.
Delimit Scope run_scope with run.
Notation "x <- m ;; k" := (and_then m (fun x => k))
  (at level 100, m at next level, right associativity) : run_scope.
Notation "m ;;; k" := (and_then m (fun _ => k))
  (at level 100, right associativity) : run_scope.

Definition of_result {A} (r : result A) : completion A :=
  match r with
  | Return a => Done a
  | Raise e => Fail (Exn e)
  end.

(** A method of the book, or an expression of the classes. *)
Definition lift {S A} (m : M S A) : Run S A :=
  fun s => let '(r, s') := m s in (of_result r, s').

(** A command: it runs on the book. *)
Abbreviation Cmd A := (Run AddressBook.t A).

(** [record.method(...)] for the record the book holds under [name]: the
    method runs on that record, and the book holds what it leaves. *)
Definition on_record {A} (name : str) (record : Record.t)
                     (method : M Record.t A) : Cmd A :=
  fun book =>
    let '(r, record') := method record in
    (of_result r,
     AddressBook.mk (dict_setitem (AddressBook.data book) name record')).

(** [str(e)] for the exceptions [input_error] catches. *)
Definition message (msg : string) : str := lit msg.

(** The decorator: [ValueError] and [IndexError] become the text returned,
    anything else goes through. *)
Definition input_error {S} (func : Run S str) : Run S str :=
  fun s =>
    match func s with
    | (Fail (Exn (ValueError msg)), s') => (Done (lit "Error: " ++ message msg), s')
    | (Fail (IndexError msg), s') => (Done (lit "Error: " ++ message msg), s')
    | other => other
    end.

(** [name, birthday = args] *)
Definition unpack_2 {S} (args : list str) : Run S (str * str) :=
  match args with
  | [a; b] => done (a, b)
  | [] => fail (Exn (ValueError "not enough values to unpack (expected 2, got 0)"))
  | [_] => fail (Exn (ValueError "not enough values to unpack (expected 2, got 1)"))
  | _ => fail (Exn (ValueError "too many values to unpack (expected 2)"))
  end.

(** [name, phone, *_ = args] *)
Definition unpack_2_star {S} (args : list str) : Run S (str * str) :=
  match args with
  | a :: b :: _ => done (a, b)
  | [] => fail (Exn (ValueError
            "not enough values to unpack (expected at least 2, got 0)"))
  | [_] => fail (Exn (ValueError
            "not enough values to unpack (expected at least 2, got 1)"))
  end.

(** [name, old_phone, new_phone = args] *)
Definition unpack_3 {S} (args : list str) : Run S (str * str * str) :=
  match args with
  | [a; b; c] => done (a, b, c)
  | [] => fail (Exn (ValueError "not enough values to unpack (expected 3, got 0)"))
  | [_] => fail (Exn (ValueError "not enough values to unpack (expected 3, got 1)"))
  | [_; _] => fail (Exn (ValueError "not enough values to unpack (expected 3, got 2)"))
  | _ => fail (Exn (ValueError "too many values to unpack (expected 3)"))
  end.

(** [args[0]] *)
Definition first_of {S} (args : list str) : Run S str :=
  match args with
  | a :: _ => done a
  | [] => fail (IndexError "list index out of range")
  end.

(** [record.birthday.value.strftime('%d.%m.%Y')] *)
Definition birthday_text {S} (libc : year_style) (record : Record.t) : Run S str :=
  match Record.birthday record with
  | Some b => done (strftime_dmY libc (Field.value b))
  | None => fail (AttributeError "'NoneType' object has no attribute 'value'")
  end.

Definition add_birthday_func (args : list str) : Cmd str :=
  (names <- unpack_2 args;;
   let '(name, birthday) := names in
   record <- lift (AddressBook.find name);;
   match record with
   | Some record =>
       on_record name record (Record.add_birthday birthday);;;
       done (lit "Birthday for " ++ name ++ lit " added.")
   | None => done (lit "Contact " ++ name ++ lit " not found.")
   end)%run.

Definition add_birthday (args : list str) : Cmd str :=
  input_error (add_birthday_func args).

Definition show_birthday_func (libc : year_style) (args : list str) : Cmd str :=
  (name <- first_of args;;
   record <- lift (AddressBook.find name);;
   match record with
   | Some record =>
       match Record.birthday record with
       | Some _ =>
           text <- birthday_text libc record;;
           done (name ++ lit "'s birthday is on " ++ text)
       | None => done (name ++ lit " does not have a birthday set.")
       end
   | None => done (lit "Contact " ++ name ++ lit " not found.")
   end)%run.

Definition show_birthday (libc : year_style) (args : list str) : Cmd str :=
  input_error (show_birthday_func libc args).

(** The list comprehension of [birthdays]: one line per record. *)
Fixpoint birthday_lines {S} (libc : year_style) (upcoming : list Record.t)
  : Run S (list str) :=
  match upcoming with
  | [] => done []
  | record :: upcoming' =>
      (text <- birthday_text libc record;;
       lines <- birthday_lines libc upcoming';;
       done ((key_of record ++ lit "'s birthday is on " ++ text) :: lines))%run
  end.

(** [now] is what the clock shows when the command runs. *)
Definition birthdays_func (libc : year_style) (now : datetime)
                          (args : list str) : Cmd str :=
  (upcoming <- lift (AddressBook.get_upcoming_birthdays now);;
   match upcoming with
   | _ :: _ =>
       lines <- birthday_lines libc upcoming;;
       done (join (lit (String "010" EmptyString)) lines)
   | [] => done (lit "No upcoming birthdays in the next week.")
   end)%run.

Definition birthdays (libc : year_style) (now : datetime) (args : list str)
  : Cmd str :=
  input_error (birthdays_func libc now args).

Definition add_contact_func (args : list str) : Cmd str :=
  (names <- unpack_2_star args;;
   let '(name, phone) := names in
   found <- lift (AddressBook.find name);;
   chosen <- match found with
             | None =>
                 record <- lift (eval (Record.__init__ name));;
                 lift (AddressBook.add_record record);;;
                 done (record, lit "Contact added.")
             | Some record => done (record, lit "Contact updated.")
             end;;
   let '(record, message) := chosen in
   (if bool_decide (phone = []) then done tt
    else on_record name record (Record.add_phone phone));;;
   done message)%run.

Definition add_contact (args : list str) : Cmd str :=
  input_error (add_contact_func args).

(** [s.split()]: the words between runs of white space.  [word] is the word
    being read. *)
Fixpoint split_from (s : str) (word : str) : list str :=
  match s with
  | [] => if bool_decide (word = []) then [] else [word]
  | c :: s' =>
      if Py_UNICODE_ISSPACE c
      then if bool_decide (word = []) then split_from s' []
           else word :: split_from s' []
      else split_from s' (word ++ [c])
  end.

Definition split (s : str) : list str := split_from s [].

(** [lower] is [str.lower], the case mapping of the interpreter's Unicode
    database, which is not embedded here. *)
Definition parse_input (lower : str -> str) (user_input : str) : list str :=
  split (lower (strip user_input)).

(** ** The loop of [main] *)

(** What the program writes: the lines it prints and the prompts of
    [input]. *)
Inductive event : Type :=
| Printed (line : str)
| Prompted (prompt : str).

(** The book of the session and what was written so far. *)
Record world : Type := mk_world {
  book : AddressBook.t;
  stdout : list event
}.

Definition print (line : str) : Run world unit :=
  fun w => (Done tt, mk_world (book w) (stdout w ++ [Printed line])).

(** A command, run on the book of the session. *)
Definition on_book {A} (c : Cmd A) : Run world A :=
  fun w => let '(r, b) := c (book w) in (r, mk_world b (stdout w)).

(** [str(b)] for a boolean *)
Definition bool_str (b : bool) : str := if b then lit "True" else lit "False".

(** [for record in book.data.values(): print(record)] *)
Fixpoint print_all (libc : year_style) (rs : list Record.t) : Run world unit :=
  match rs with
  | [] => done tt
  | record :: rs' =>
      (print (Record.__str__ libc record);;; print_all libc rs')%run
  end.

(** How an iteration of the loop ends. *)
Inductive flow : Type := next_iteration | break.

(** The body of the loop, after [input] has returned [user_input]. *)
Definition body (lower : str -> str) (libc : year_style) (now : datetime)
                (user_input : str) : Run world flow :=
  match parse_input lower user_input with
  | [] => fail (Exn (ValueError
            "not enough values to unpack (expected at least 1, got 0)"))
  | command :: args =>
      if bool_decide (command ∈ [lit "close"; lit "exit"])
      then (print (lit "Good bye!");;; done break)%run
      else if bool_decide (command = lit "hello")
      then (print (lit "How can I help you?");;; done next_iteration)%run
      else if bool_decide (command = lit "add")
      then (text <- on_book (add_contact args);;
            print text;;; done next_iteration)%run
      else if bool_decide (command = lit "change")
      then (names <- unpack_3 args;;
            let '(name, old_phone, new_phone) := names in
            record <- on_book (lift (AddressBook.find name));;
            match record with
            | Some record =>
                changed <- on_book (on_record name record
                             (Record.edit_phone old_phone new_phone));;
                print (bool_str changed)
            | None => print (lit "Contact " ++ name ++ lit " not found.")
            end;;;
            done next_iteration)%run
      else if bool_decide (command = lit "phone")
      then (name <- first_of args;;
            record <- on_book (lift (AddressBook.find name));;
            match record with
            | Some record =>
                print (lit "Phones: "
                       ++ join (lit ", ") (map Field.value (Record.phones record)))
            | None => print (lit "Contact " ++ name ++ lit " not found.")
            end;;;
            done next_iteration)%run
      else if bool_decide (command = lit "all")
      then (w <- (fun w => (Done w, w));;
            print_all libc (dict_values (AddressBook.data (book w)));;;
            done next_iteration)%run
      else if bool_decide (command = lit "add-birthday")
      then (text <- on_book (add_birthday args);;
            print text;;; done next_iteration)%run
      else if bool_decide (command = lit "show-birthday")
      then (text <- on_book (show_birthday libc args);;
            print text;;; done next_iteration)%run
      else if bool_decide (command = lit "birthdays")
      then (text <- on_book (birthdays libc now args);;
            print text;;; done next_iteration)%run
      else (print (lit "Invalid command.");;; done next_iteration)%run
  end.

(** How the program ends: by [break], or by an exception nobody catches. *)
Inductive ending : Type :=
| returned
| uncaught (e : exception).

(** The [while True] of [main].  [inputs] is what is left of the session:
    each line the user enters, with what the clock shows while its command
    runs.  When nothing is left, [input] raises [EOFError]. *)
Fixpoint loop (lower : str -> str) (libc : year_style)
              (inputs : list (str * datetime)) (w : world) : ending * world :=
  let w := mk_world (book w) (stdout w ++ [Prompted (lit "Enter a command: ")]) in
  match inputs with
  | [] => (uncaught (EOFError "EOF when reading a line"), w)
  | (user_input, now) :: inputs' =>
      match body lower libc now user_input w with
      | (Done next_iteration, w') => loop lower libc inputs' w'
      | (Done break, w') => (returned, w')
      | (Fail e, w') => (uncaught e, w')
      end
  end.

Definition main (lower : str -> str) (libc : year_style)
                (inputs : list (str * datetime)) : ending * world :=
  loop lower libc inputs
       (mk_world (AddressBook.mk [])
                 [Printed (lit "Welcome to the assistant bot!")]).

End task02.

(** * Vocabulary of the further statements *)

(** The books a caller can obtain: the empty one, then any sequence of
    [add_record] and [delete]. *)
Inductive book_built : AddressBook.t -> Prop :=
| built_empty : book_built (AddressBook.mk [])
| built_add_record book record :
    book_built book -> book_built (snd (AddressBook.add_record record book))
| built_delete book name :
    book_built book -> book_built (snd (AddressBook.delete name book)).

(** One item per name, and each record under its own name. *)
Definition filed_by_name (book : AddressBook.t) : Prop :=
  dict_ok (AddressBook.data book)
  /\ forall name record,
       (name, record) ∈ AddressBook.data book -> name = key_of record.

(** The line [birthdays] gives for a record. *)
Definition birthday_line (libc : year_style) (record : Record.t) : str :=
  key_of record ++ lit "'s birthday is on "
  ++ match Record.birthday record with
     | Some b => strftime_dmY libc (Field.value b)
     | None => []
     end.

Definition newline : str := lit (String "010" EmptyString).

(** A word, as [str.split] cuts them: not empty, no white space inside. *)
Definition word (w : str) : Prop :=
  w <> [] /\ forall c, c ∈ w -> Py_UNICODE_ISSPACE c = false.

(** [str.lower] on ASCII text: the letters A to Z go to a to z. *)
Definition ascii_lower (s : str) : str :=
  map (fun c => if (65 <=? c)%N && (c <=? 90)%N then (c + 32)%N else c) s.

(** The prompt of [input] in [main]. *)
Definition prompt : task02.event := task02.Prompted (lit "Enter a command: ").

(** The world after more was written, with the book [b]. *)
Definition wrote (b : AddressBook.t) (events : list task02.event)
                 (w : task02.world) : task02.world :=
  task02.mk_world b (task02.stdout w ++ events).

(** The commands [main] knows. *)
Definition commands : list str :=
  [lit "close"; lit "exit"; lit "hello"; lit "add"; lit "change"; lit "phone";
   lit "all"; lit "add-birthday"; lit "show-birthday"; lit "birthdays"].

(** What holds of every contact of a session of [main]. *)
Definition contact_ok (record : Record.t) : Prop :=
  word (key_of record)
  /\ Forall validated (Record.phones record)
  /\ forall b, Record.birthday record = Some b ->
       datetime_valid (Field.value b)
       /\ Field.value b = midnight (year (Field.value b)) (month (Field.value b))
                                   (day (Field.value b)).

Definition book_ok (book : AddressBook.t) : Prop :=
  filed_by_name book /\ Forall contact_ok (records book).

(** The lines that end the program with an exception, and the exception:
    a blank line, [change] with other than three arguments or with a phone
    that [Phone] refuses, [phone] without a name, [birthdays] in the last
    week of the year 9999. *)
Inductive fatal (lower : str -> str) (user_input : str) (now : datetime)
  : task02.exception -> Prop :=
| fatal_blank :
    task02.parse_input lower user_input = [] ->
    fatal lower user_input now
      (task02.Exn (ValueError
         "not enough values to unpack (expected at least 1, got 0)"))
| fatal_change args msg :
    task02.parse_input lower user_input = lit "change" :: args ->
    fatal lower user_input now (task02.Exn (ValueError msg))
| fatal_phone :
    task02.parse_input lower user_input = [lit "phone"] ->
    fatal lower user_input now (task02.IndexError "list index out of range")
| fatal_birthdays args :
    task02.parse_input lower user_input = lit "birthdays" :: args ->
    _MAXORDINAL < toordinal now + 7 ->
    fatal lower user_input now
      (task02.Exn (OverflowError "date value out of range")).
(** * Properties *)

(** ** Characters and strings *)

Lemma str_eqb_eq (a b : str) : str_eqb a b = true <-> a = b.
Proof. unfold str_eqb. apply bool_decide_eq_true. Qed.

Lemma str_eqb_neq (a b : str) : str_eqb a b = false <-> a <> b.
Proof. unfold str_eqb. apply bool_decide_eq_false. Qed.

Lemma str_eqb_refl (a : str) : str_eqb a a = true.
Proof. now apply str_eqb_eq. Qed.

Lemma in_ranges_spec (tbl : list (N * N)) (c : N) :
  in_ranges tbl c = true <->
  exists lo hi, In (lo, hi) tbl /\ (lo <= c <= hi)%N.
Proof.
  unfold in_ranges. rewrite existsb_exists. split.
  - intros [[lo hi] [Hin H]]. apply andb_true_iff in H as [H1 H2].
    apply N.leb_le in H1, H2. now exists lo, hi.
  - intros (lo & hi & Hin & H1 & H2). exists (lo, hi). split; [done|].
    apply andb_true_iff. split; now apply N.leb_le.
Qed.

(** The ASCII digits are decimal digits, hence digits. *)
Lemma ascii_digit_is_decimal (c : N) :
  is_ascii_digit c = true -> Py_UNICODE_ISDECIMAL c = true.
Proof.
  intros H. apply andb_true_iff in H as [H1 H2]. apply N.leb_le in H1, H2.
  apply in_ranges_spec. exists 48%N, 57%N. split; [now left | lia].
Qed.

Lemma decimal_is_digit (c : N) :
  Py_UNICODE_ISDECIMAL c = true -> Py_UNICODE_ISDIGIT c = true.
Proof. unfold Py_UNICODE_ISDIGIT. now intros ->. Qed.

Lemma ascii_digit_is_digit (c : N) :
  is_ascii_digit c = true -> Py_UNICODE_ISDIGIT c = true.
Proof. intros H. now apply decimal_is_digit, ascii_digit_is_decimal. Qed.

Lemma forallb_false_exists {A} (f : A -> bool) (l : list A) :
  forallb f l = false -> exists x, In x l /\ f x = false.
Proof.
  induction l as [|x l IH]; simpl; [discriminate|].
  destruct (f x) eqn:E; simpl.
  - intros H. destruct (IH H) as (y & Hy & Hf). exists y. auto.
  - intros _. exists x. auto.
Qed.

Lemma isdigit_spec (s : str) :
  isdigit s = true <-> s <> [] /\ forall c, c ∈ s -> Py_UNICODE_ISDIGIT c = true.
Proof.
  unfold isdigit. rewrite andb_true_iff, negb_true_iff, bool_decide_eq_false.
  rewrite forallb_forall. setoid_rewrite list_elem_of_In. tauto.
Qed.

(** ** [Phone] *)

Lemma Phone_init_Return (s : str) (p : Phone.t) :
  Phone.__init__ s = Return p <-> Phone_valid s /\ p = Field.mk s.
Proof.
  unfold Phone.__init__, Phone_valid, Field.__init__.
  destruct (isdigit s) eqn:Hd; destruct (length s =? 10)%nat eqn:Hl; simpl.
  - apply Nat.eqb_eq in Hl. apply isdigit_spec in Hd as [_ Hd].
    split; [intros [= <-]; auto | intros [_ ->]; auto].
  - apply Nat.eqb_neq in Hl. split; [discriminate | intros [[? _] _]; lia].
  - split; [discriminate|]. intros [[Hlen Hall] _].
    assert (isdigit s = true) as E; [|congruence].
    apply isdigit_spec. split; [|done]. intros ->. discriminate.
  - apply Nat.eqb_neq in Hl. split; [discriminate | intros [[? _] _]; lia].
Qed.

Lemma Phone_init_cases (s : str) :
  Phone.__init__ s = Return (Field.mk s) \/ Phone.__init__ s = Raise Phone_error.
Proof.
  unfold Phone.__init__, Field.__init__.
  destruct (negb (isdigit s) || negb (length s =? 10)%nat); auto.
Qed.

Lemma Phone_init_Raise (s : str) (e : exn) :
  Phone.__init__ s = Raise e <-> ~ Phone_valid s /\ e = Phone_error.
Proof.
  split.
  - intros H. destruct (Phone_init_cases s) as [E|E]; [congruence|].
    split; [|congruence]. intros Hv.
    assert (Phone.__init__ s = Return (Field.mk s)) by now apply Phone_init_Return.
    congruence.
  - intros [Hv ->]. destruct (Phone_init_cases s) as [E|E]; [|done].
    exfalso. apply Hv. now apply Phone_init_Return in E.
Qed.

(** C3, as stated, fails: ten times SUPERSCRIPT TWO (U+00B2) is a string of
    length 10 with no decimal digit in it, and [Phone] accepts it, because
    [str.isdigit] holds of every character with [Numeric_Type=Digit]. *)
Lemma Phone_accepts_superscript_two :
  let s := repeat 178%N 10 in
  (exists c, c ∈ s /\ is_ascii_digit c = false /\ Py_UNICODE_ISDECIMAL c = false)
  /\ Phone.__init__ s = Return (Field.mk s).
Proof.
  split; [|reflexivity].
  exists 178%N. split; [left | split; reflexivity].
Qed.

(** C3, amended: [Phone] accepts exactly the strings of 10 characters that
    are all digits in the sense of [str.isdigit] (the decimal digits, ASCII
    or not, and the other Unicode digits), and renders such a string
    unchanged; every string of another length, or with a character that is
    not such a digit, is refused with the class's [ValueError].  Every
    string is of one of the two kinds. *)
Theorem Phone_init_spec (s : str) :
  (Phone_valid s ->
     exists p, Phone.__init__ s = Return p /\ Field.__str__ p = s)
  /\ (length s <> 10%nat \/ (exists c, c ∈ s /\ Py_UNICODE_ISDIGIT c = false) ->
     Phone.__init__ s = Raise Phone_error)
  /\ (length s = 10%nat ->
      (forall c, c ∈ s ->
         is_ascii_digit c = true \/ Py_UNICODE_ISDECIMAL c = true) ->
      Phone_valid s)
  /\ (Phone_valid s
      \/ length s <> 10%nat \/ exists c, c ∈ s /\ Py_UNICODE_ISDIGIT c = false).
Proof.
  split; [|split; [|split]].
  - intros Hv. exists (Field.mk s). split; [|reflexivity].
    now apply Phone_init_Return.
  - intros H. apply Phone_init_Raise. split; [|done].
    intros [Hlen Hall]. destruct H as [H|(c & Hc & Hn)]; [done|].
    apply Hall in Hc. congruence.
  - intros Hlen Hall. split; [done|]. intros c Hc.
    destruct (Hall c Hc) as [H|H].
    + now apply ascii_digit_is_digit.
    + now apply decimal_is_digit.
  - destruct (Nat.eq_dec (length s) 10%nat) as [Hlen|Hlen]; [|now right; left].
    destruct (forallb Py_UNICODE_ISDIGIT s) eqn:E.
    + left. split; [done|]. intros c Hc.
      rewrite forallb_forall in E. now apply E, list_elem_of_In.
    + right. right. apply forallb_false_exists in E as (c & Hc & Hn).
      exists c. split; [now apply list_elem_of_In | done].
Qed.

Lemma Phone_init_spec_witness :
  (exists p, Phone.__init__ (lit "1234567890") = Return p
             /\ Field.__str__ p = lit "1234567890")
  /\ Phone.__init__ (lit "12345") = Raise Phone_error
  /\ Phone.__init__ (lit "12345abcde") = Raise Phone_error.
Proof.
  split; [|split].
  - apply (proj1 (Phone_init_spec (lit "1234567890"))).
    apply (proj1 (proj2 (proj2 (Phone_init_spec (lit "1234567890")))));
      [reflexivity|].
    intros c Hc. left. apply list_elem_of_In in Hc. simpl in Hc.
    repeat (destruct Hc as [<-|Hc]; [reflexivity|]). destruct Hc.
  - apply (proj1 (proj2 (Phone_init_spec (lit "12345")))).
    left. simpl. lia.
  - apply (proj1 (proj2 (Phone_init_spec (lit "12345abcde")))).
    right. exists 97%N. split; [|reflexivity].
    apply list_elem_of_In. simpl. tauto.
Defined.

(** ** [Name] *)

Lemma Name_init_cases (s : str) :
  (s = [] /\ Name.__init__ s = Raise Name_error)
  \/ (s <> [] /\ Name.__init__ s = Return (Field.mk s)).
Proof.
  unfold Name.__init__, Field.__init__.
  destruct (bool_decide (s = [])) eqn:E.
  - apply bool_decide_eq_true in E. now left.
  - apply bool_decide_eq_false in E. now right.
Qed.

(** C6, as stated, fails: a string made of one space is white space only,
    and [Name] accepts it. *)
Lemma Name_accepts_a_space :
  whitespace_only (lit " ")
  /\ Name.__init__ (lit " ") = Return (Field.mk (lit " ")).
Proof.
  split; [|reflexivity].
  intros c Hc. apply list_elem_of_In in Hc. simpl in Hc.
  destruct Hc as [<-|[]]. reflexivity.
Qed.

(** C6, amended: [Name] refuses the empty string and nothing else; any
    other string, white space included, is stored unchanged, so that the
    value of a constructed [Name] is never empty. *)
Theorem Name_init_spec (s : str) :
  (s = [] -> Name.__init__ s = Raise Name_error)
  /\ (s <> [] -> Name.__init__ s = Return (Field.mk s))
  /\ (forall n, Name.__init__ s = Return n ->
        Field.value n = s /\ Field.value n <> []).
Proof.
  destruct (Name_init_cases s) as [[-> E]|[Hne E]]; rewrite E.
  - split; [done|]. split; [done|]. discriminate.
  - split; [done|]. split; [done|]. now intros n [= <-].
Qed.

Lemma Name_init_spec_witness :
  Name.__init__ [] = Raise Name_error
  /\ Name.__init__ (lit "John") = Return (Field.mk (lit "John"))
  /\ Field.value (Field.mk (V:=str) (lit " ")) = lit " ".
Proof.
  split; [|split].
  - now apply (proj1 (Name_init_spec [])).
  - now apply (proj1 (proj2 (Name_init_spec (lit "John")))).
  - apply (proj2 (proj2 (Name_init_spec (lit " ")))). reflexivity.
Defined.

(** ** [Record]: editing and removing a phone *)

Ltac run := unfold bind, eval, modify, ret, get, raise; simpl.

Lemma set_phones_same (r : Record.t) : Record.set_phones (Record.phones r) r = r.
Proof. now destruct r. Qed.

Lemma not_in_values_cons (v : str) (p : Phone.t) (ps : list Phone.t) :
  v ∉ phone_values (p :: ps) <-> Field.value p <> v /\ v ∉ phone_values ps.
Proof.
  unfold phone_values. simpl. rewrite not_elem_of_cons. intuition congruence.
Qed.

Section edit_phone.
Variables old_phone new_phone : str.

Lemma edit_phone_loop_absent (todo : list Phone.t) :
  old_phone ∉ phone_values todo ->
  forall i r,
    Record.edit_phone_loop i todo old_phone new_phone r = (Return false, r).
Proof.
  induction todo as [|p todo IH]; intros Hno i r; [reflexivity|].
  apply not_in_values_cons in Hno as [Hp Hno]. simpl.
  apply str_eqb_neq in Hp. rewrite Hp. now apply IH.
Qed.

Lemma edit_phone_loop_found (before : list Phone.t) (p : Phone.t)
      (after : list Phone.t) :
  old_phone ∉ phone_values before -> Field.value p = old_phone ->
  forall i r,
    Record.edit_phone_loop i (before ++ p :: after) old_phone new_phone r =
    match Phone.__init__ new_phone with
    | Return x =>
        (Return true,
         Record.set_phones (<[(i + length before)%nat := x]> (Record.phones r)) r)
    | Raise e => (Raise e, r)
    end.
Proof.
  induction before as [|q before IH]; intros Hno Hp i r; simpl.
  - apply str_eqb_eq in Hp. rewrite Hp. run. rewrite Nat.add_0_r.
    now destruct (Phone.__init__ new_phone).
  - apply not_in_values_cons in Hno as [Hq Hno].
    apply str_eqb_neq in Hq. rewrite Hq. rewrite IH by done.
    now replace (S i + length before)%nat with (i + S (length before))%nat by lia.
Qed.
End edit_phone.

Lemma edit_phone_absent (r : Record.t) (old_phone new_phone : str) :
  old_phone ∉ phone_values (Record.phones r) ->
  Record.edit_phone old_phone new_phone r = (Return false, r).
Proof.
  intros Hno. unfold Record.edit_phone. run. now apply edit_phone_loop_absent.
Qed.

(** C2, as stated, fails: when [old] is not among the phones, an invalid
    [new] is never looked at, and the call returns [False] instead of
    raising.  Here the record has no phone and [new] is ["12345"]. *)
Lemma edit_phone_absent_old_hides_invalid_new :
  let r := Record.mk (Field.mk (lit "John")) [] None in
  Phone.__init__ (lit "12345") = Raise Phone_error
  /\ Record.edit_phone (lit "1234567890") (lit "12345") r = (Return false, r).
Proof. split; reflexivity. Qed.

(** C2, amended: [edit_phone(old, new)] first looks for [old].  If no phone
    has that value, it returns [False], raises nothing and leaves the record
    as it was, whether [new] is valid or not.  If a phone has it, [new] is
    validated: when it is invalid the error of [Phone] propagates and the
    record is unchanged; when it is valid the first phone with value [old]
    is replaced where it stands, the phones before and after it are kept,
    and the call returns [True]. *)
Theorem edit_phone_spec (r : Record.t) (old_phone new_phone : str) :
  (old_phone ∉ phone_values (Record.phones r) ->
     Record.edit_phone old_phone new_phone r = (Return false, r))
  /\ (forall before p after,
        Record.phones r = before ++ p :: after ->
        Field.value p = old_phone ->
        old_phone ∉ phone_values before ->
        (forall e, Phone.__init__ new_phone = Raise e ->
           Record.edit_phone old_phone new_phone r = (Raise e, r))
        /\ (forall x, Phone.__init__ new_phone = Return x ->
              Field.value x = new_phone
              /\ Record.edit_phone old_phone new_phone r =
                 (Return true,
                  Record.mk (Record.name r) (before ++ x :: after)
                            (Record.birthday r)))).
Proof.
  split; [apply edit_phone_absent|].
  - intros before p after Hps Hp Hno.
    assert (Record.edit_phone old_phone new_phone r =
            match Phone.__init__ new_phone with
            | Return x =>
                (Return true, Record.set_phones (before ++ x :: after) r)
            | Raise e => (Raise e, r)
            end) as E.
    { unfold Record.edit_phone. run. rewrite Hps.
      rewrite edit_phone_loop_found by done.
      destruct (Phone.__init__ new_phone); [|done].
      rewrite Hps. simpl.
      now rewrite (insert_app_r_alt before (p :: after)), Nat.sub_diag by lia. }
    split.
    + intros e He. now rewrite E, He.
    + intros x Hx. rewrite E, Hx. split; [|done].
      apply Phone_init_Return in Hx as [_ ->]. reflexivity.
Qed.

Lemma edit_phone_spec_witness :
  let john := Record.mk (Field.mk (lit "John"))
                [Field.mk (lit "1234567890"); Field.mk (lit "5555555555")] None in
  Record.edit_phone (lit "0000000000") (lit "12345") john = (Return false, john)
  /\ Record.edit_phone (lit "5555555555") (lit "12345") john
     = (Raise Phone_error, john)
  /\ Record.edit_phone (lit "5555555555") (lit "1112223333") john
     = (Return true,
        Record.mk (Field.mk (lit "John"))
          [Field.mk (lit "1234567890"); Field.mk (lit "1112223333")] None).
Proof.
  intros john. split; [|split].
  - apply (proj1 (edit_phone_spec john (lit "0000000000") (lit "12345"))).
    vm_compute. intros H. repeat (apply elem_of_cons in H as [H|H]; [discriminate|]).
    now apply elem_of_nil in H.
  - apply (proj2 (edit_phone_spec john (lit "5555555555") (lit "12345"))
             [Field.mk (lit "1234567890")] (Field.mk (lit "5555555555")) []);
      [reflexivity | reflexivity | | reflexivity].
    vm_compute. intros H. repeat (apply elem_of_cons in H as [H|H]; [discriminate|]).
    now apply elem_of_nil in H.
  - apply (proj2 (edit_phone_spec john (lit "5555555555") (lit "1112223333"))
             [Field.mk (lit "1234567890")] (Field.mk (lit "5555555555")) []);
      [reflexivity | reflexivity | | reflexivity].
    vm_compute. intros H. repeat (apply elem_of_cons in H as [H|H]; [discriminate|]).
    now apply elem_of_nil in H.
Defined.

Lemma list_remove_first {A} `{EqDecision A} (x : A) (before after : list A) :
  x ∉ before -> list_remove x (before ++ x :: after) = Return (before ++ after).
Proof.
  induction before as [|y before IH]; intros Hno; simpl.
  - now rewrite decide_True.
  - apply not_elem_of_cons in Hno as [Hne Hno].
    rewrite decide_False by congruence. now rewrite IH.
Qed.

Lemma value_not_in_values (p : Phone.t) (ps : list Phone.t) :
  Field.value p ∉ phone_values ps -> p ∉ ps.
Proof.
  intros Hno Hin. apply Hno. unfold phone_values.
  apply list_elem_of_fmap. now exists p.
Qed.

Section remove_phone.
Variable phone : str.

Lemma remove_phone_loop_absent (todo : list Phone.t) :
  phone ∉ phone_values todo ->
  forall r, Record.remove_phone_loop todo phone r = (Return false, r).
Proof.
  induction todo as [|p todo IH]; intros Hno r; [reflexivity|].
  apply not_in_values_cons in Hno as [Hp Hno]. simpl.
  apply str_eqb_neq in Hp. rewrite Hp. now apply IH.
Qed.

Lemma remove_phone_loop_found (before : list Phone.t) (p : Phone.t)
      (after : list Phone.t) :
  phone ∉ phone_values before -> Field.value p = phone ->
  forall r,
    Record.remove_phone_loop (before ++ p :: after) phone r =
    bind (Record.phones_remove p) (fun _ => ret true) r.
Proof.
  induction before as [|q before IH]; intros Hno Hp r; simpl.
  - apply str_eqb_eq in Hp. now rewrite Hp.
  - apply not_in_values_cons in Hno as [Hq Hno].
    apply str_eqb_neq in Hq. rewrite Hq. now apply IH.
Qed.
End remove_phone.

Lemma remove_phone_absent (r : Record.t) (phone : str) :
  phone ∉ phone_values (Record.phones r) ->
  Record.remove_phone phone r = (Return false, r).
Proof.
  intros Hno. unfold Record.remove_phone. run.
  now apply remove_phone_loop_absent.
Qed.

(** C8: [remove_phone(raw)] removes the first phone whose value is [raw] and
    returns [True]; the phones before it and after it, later phones with
    the same value included, stay in place and in order, and name and
    birthday are as they were.  When no phone has that value it returns
    [False] and the record is unchanged. *)
Theorem remove_phone_spec (r : Record.t) (raw : str) :
  (forall before p after,
     Record.phones r = before ++ p :: after ->
     Field.value p = raw ->
     raw ∉ phone_values before ->
     Record.remove_phone raw r
     = (Return true,
        Record.mk (Record.name r) (before ++ after) (Record.birthday r)))
  /\ (raw ∉ phone_values (Record.phones r) ->
      Record.remove_phone raw r = (Return false, r)).
Proof.
  split.
  - intros before p after Hps Hp Hno. unfold Record.remove_phone. run.
    rewrite Hps, remove_phone_loop_found by done.
    unfold Record.phones_remove. run. rewrite Hps.
    rewrite list_remove_first; [done|].
    apply value_not_in_values. now rewrite Hp.
  - apply remove_phone_absent.
Qed.

Lemma remove_phone_spec_witness :
  let a := Field.mk (V:=str) (lit "1234567890") in
  let b := Field.mk (V:=str) (lit "5555555555") in
  let r := Record.mk (Field.mk (lit "John")) [a; b; a; b] None in
  Record.remove_phone (lit "5555555555") r
  = (Return true, Record.mk (Field.mk (lit "John")) [a; a; b] None)
  /\ Record.remove_phone (lit "0000000000") r = (Return false, r).
Proof.
  intros a b r. split.
  - apply (proj1 (remove_phone_spec r (lit "5555555555")) [a] b [a; b]);
      [reflexivity | reflexivity |].
    vm_compute. intros H. repeat (apply elem_of_cons in H as [H|H]; [discriminate|]).
    now apply elem_of_nil in H.
  - apply (proj2 (remove_phone_spec r (lit "0000000000"))).
    vm_compute. intros H. repeat (apply elem_of_cons in H as [H|H]; [discriminate|]).
    now apply elem_of_nil in H.
Defined.

(** ** [Record]: every phone is a validated one *)

Lemma validated_init (s : str) (p : Phone.t) :
  Phone.__init__ s = Return p -> validated p.
Proof.
  intros H. unfold validated. apply Phone_init_Return in H as [Hv ->].
  now apply Phone_init_Return.
Qed.

Lemma validated_spec (p : Phone.t) :
  validated p ->
  isdigit (Field.value p) = true /\ length (Field.value p) = 10%nat.
Proof.
  intros H. apply Phone_init_Return in H as [[Hlen Hall] _]. split; [|done].
  apply isdigit_spec. split; [|done]. intros E. now rewrite E in Hlen.
Qed.

Lemma list_remove_Forall {A} `{EqDecision A} (P : A -> Prop) (x : A) (l l' : list A) :
  list_remove x l = Return l' -> Forall P l -> Forall P l'.
Proof.
  revert l'. induction l as [|y l IH]; intros l' E HP; simpl in E; [done|].
  apply Forall_cons in HP as [Hy HP].
  destruct (decide (y = x)); [now injection E as <-|].
  destruct (list_remove x l) as [r|]; simpl in E; [|done].
  injection E as <-. apply Forall_cons. split; [done|]. now apply IH.
Qed.

Lemma add_phone_validated (phone : str) (r : Record.t) :
  Forall validated (Record.phones r) ->
  Forall validated (Record.phones (snd (Record.add_phone phone r))).
Proof.
  intros H. unfold Record.add_phone. run.
  destruct (Phone.__init__ phone) as [p|] eqn:E; simpl; [|done].
  apply Forall_app. split; [done|]. apply Forall_singleton.
  now apply validated_init in E.
Qed.

Lemma remove_phone_validated (phone : str) (r : Record.t) :
  Forall validated (Record.phones r) ->
  Forall validated (Record.phones (snd (Record.remove_phone phone r))).
Proof.
  intros H. unfold Record.remove_phone. run.
  induction (Record.phones r) as [|p todo IH] in |- * at 1; simpl; [done|].
  destruct (str_eqb (Field.value p) phone); [|done].
  unfold Record.phones_remove. run.
  destruct (list_remove p (Record.phones r)) as [ps|] eqn:E; simpl; [|done].
  now apply (list_remove_Forall _ _ _ _ E).
Qed.

Lemma edit_phone_validated (old_phone new_phone : str) (r : Record.t) :
  Forall validated (Record.phones r) ->
  Forall validated (Record.phones (snd (Record.edit_phone old_phone new_phone r))).
Proof.
  intros H. unfold Record.edit_phone. run. generalize 0%nat.
  induction (Record.phones r) as [|p todo IH] in |- * at 1; intros i; simpl; [done|].
  destruct (str_eqb (Field.value p) old_phone); [|apply IH].
  run. destruct (Phone.__init__ new_phone) as [x|] eqn:E; simpl; [|done].
  apply Forall_insert; [done|]. now apply validated_init in E.
Qed.

Lemma add_birthday_phones (birthday : str) (r : Record.t) :
  Record.phones (snd (Record.add_birthday birthday r)) = Record.phones r.
Proof.
  unfold Record.add_birthday. run. now destruct (Birthday.__init__ birthday).
Qed.

(** C9, as stated, fails where a digit is a decimal digit, the reading
    under which C3 fails too: [add_phone] of ten times SUPERSCRIPT TWO
    (U+00B2) succeeds, and leaves a record that the public operations reach
    whose only phone has 10 characters and no decimal digit among them. *)
Lemma reachable_phone_without_a_decimal_digit :
  let s := repeat 178%N 10 in
  let r := snd (Record.add_phone s (Record.mk (Field.mk (lit "John")) [] None)) in
  reachable r
  /\ Record.phones r = [Field.mk s]
  /\ forall c, c ∈ s -> is_ascii_digit c = false /\ Py_UNICODE_ISDECIMAL c = false.
Proof.
  intros s r. split; [|split].
  - apply reach_add_phone. now apply (reach_init (lit "John")).
  - reflexivity.
  - intros c Hc.
    repeat (apply elem_of_cons in Hc as [->|Hc]; [split; reflexivity|]).
    now apply elem_of_nil in Hc.
Qed.

(** C9, amended: whatever sequence of [add_phone], [remove_phone],
    [edit_phone] (and [add_birthday]) a record built by [Record(name)] goes
    through, calls that raise included, every phone in its list is one the
    constructor of [Phone] accepted: its value has exactly 10 characters,
    all of them digits for [str.isdigit] (decimal digits of any script, or
    digits such as superscript two), not necessarily decimal digits. *)
Theorem phones_always_validated (r : Record.t) :
  reachable r ->
  forall p, p ∈ Record.phones r ->
    validated p
    /\ isdigit (Field.value p) = true /\ length (Field.value p) = 10%nat.
Proof.
  intros Hr.
  assert (Forall validated (Record.phones r)) as H.
  { induction Hr as [name r E| | | |r birthday Hr IH].
    - unfold Record.__init__ in E.
      destruct (Name.__init__ name); simpl in E; [|done].
      injection E as <-. simpl. constructor.
    - now apply add_phone_validated.
    - now apply remove_phone_validated.
    - now apply edit_phone_validated.
    - now rewrite add_birthday_phones. }
  intros p Hp. rewrite Forall_forall in H. apply H in Hp.
  split; [done|]. now apply validated_spec.
Qed.

Lemma phones_always_validated_witness :
  let r0 := Record.mk (Field.mk (lit "John")) [] None in
  let r1 := snd (Record.add_phone (lit "1234567890") r0) in
  let r2 := snd (Record.add_phone (lit "12345") r1) in
  let r3 := snd (Record.edit_phone (lit "1234567890") (lit "1112223333") r2) in
  Record.phones r3 = [Field.mk (lit "1112223333")]
  /\ validated (Field.mk (lit "1112223333")).
Proof.
  intros r0 r1 r2 r3. split; [reflexivity|].
  apply (phones_always_validated r3).
  - apply reach_edit_phone, reach_add_phone, reach_add_phone.
    now apply (reach_init (lit "John")).
  - left.
Defined.

(** ** Dictionaries *)

Section dict.
Context {V : Type}.
Implicit Types (d : dict V) (k : str) (v : V).

Lemma dict_keys_app d1 d2 : dict_keys (d1 ++ d2) = dict_keys d1 ++ dict_keys d2.
Proof. apply map_app. Qed.

Lemma dict_contains_spec d k : dict_contains d k = true <-> k ∈ dict_keys d.
Proof.
  unfold dict_contains, dict_keys. induction d as [|[k' v] d IH]; simpl.
  - split; [discriminate | intros H; now apply elem_of_nil in H].
  - rewrite orb_true_iff, IH, str_eqb_eq, elem_of_cons. intuition congruence.
Qed.

Lemma dict_get_None d k : dict_get d k = None <-> k ∉ dict_keys d.
Proof.
  unfold dict_keys. induction d as [|[k' v] d IH]; simpl.
  - split; [intros _ H; now apply elem_of_nil in H | done].
  - rewrite not_elem_of_cons. destruct (str_eqb k' k) eqn:E.
    + apply str_eqb_eq in E. split; [discriminate | intros [? _]; congruence].
    + apply str_eqb_neq in E. rewrite IH. intuition congruence.
Qed.

Lemma dict_get_first d1 k v d2 :
  k ∉ dict_keys d1 -> dict_get (d1 ++ (k, v) :: d2) k = Some v.
Proof.
  unfold dict_keys. induction d1 as [|[k' v'] d1 IH]; simpl; intros Hno.
  - now rewrite str_eqb_refl.
  - apply not_elem_of_cons in Hno as [Hne Hno].
    assert (str_eqb k' k = false) as -> by now apply str_eqb_neq.
    now apply IH.
Qed.

(** A key that is present has a first item. *)
Lemma dict_split d k :
  k ∈ dict_keys d ->
  exists d1 v d2, d = d1 ++ (k, v) :: d2 /\ k ∉ dict_keys d1.
Proof.
  unfold dict_keys. induction d as [|[k' v'] d IH]; simpl; intros Hin.
  - now apply elem_of_nil in Hin.
  - destruct (decide (k' = k)) as [->|Hne].
    + exists [], v', d. split; [done|]. apply not_elem_of_nil.
    + apply elem_of_cons in Hin as [?|Hin]; [congruence|].
      destruct (IH Hin) as (d1 & v & d2 & -> & Hno).
      exists ((k', v') :: d1), v, d2. split; [done|]. simpl.
      apply not_elem_of_cons. split; [congruence | done].
Qed.

Lemma dict_setitem_present d1 k old d2 v :
  k ∉ dict_keys d1 ->
  dict_setitem (d1 ++ (k, old) :: d2) k v = d1 ++ (k, v) :: d2.
Proof.
  unfold dict_keys. induction d1 as [|[k' v'] d1 IH]; simpl; intros Hno.
  - now rewrite str_eqb_refl.
  - apply not_elem_of_cons in Hno as [Hne Hno].
    assert (str_eqb k' k = false) as -> by now apply str_eqb_neq.
    now rewrite IH.
Qed.

Lemma dict_setitem_absent d k v :
  k ∉ dict_keys d -> dict_setitem d k v = d ++ [(k, v)].
Proof.
  unfold dict_keys. induction d as [|[k' v'] d IH]; simpl; intros Hno; [done|].
  apply not_elem_of_cons in Hno as [Hne Hno].
  assert (str_eqb k' k = false) as -> by now apply str_eqb_neq.
  now rewrite IH.
Qed.

Lemma dict_get_setitem d k v : dict_get (dict_setitem d k v) k = Some v.
Proof.
  induction d as [|[k' v'] d IH]; simpl.
  - now rewrite str_eqb_refl.
  - destruct (str_eqb k' k) eqn:E; simpl; now rewrite E.
Qed.

Lemma dict_get_setitem_other d k v k' :
  k' <> k -> dict_get (dict_setitem d k v) k' = dict_get d k'.
Proof.
  intros Hne. induction d as [|[k0 v0] d IH]; simpl.
  - assert (str_eqb k k' = false) as -> by (apply str_eqb_neq; congruence). done.
  - destruct (str_eqb k0 k) eqn:E; simpl; [|now rewrite IH].
    apply str_eqb_eq in E. subst k0.
    now assert (str_eqb k k' = false) as -> by (apply str_eqb_neq; congruence).
Qed.

Lemma dict_keys_setitem d k v :
  dict_keys (dict_setitem d k v)
  = if dict_contains d k then dict_keys d else dict_keys d ++ [k].
Proof.
  unfold dict_keys, dict_contains. induction d as [|[k' v'] d IH]; simpl; [done|].
  destruct (str_eqb k' k) eqn:E; simpl; [done|].
  rewrite IH. now destruct (existsb _ d).
Qed.

Lemma dict_delitem_present d1 k v d2 :
  k ∉ dict_keys d1 -> dict_delitem (d1 ++ (k, v) :: d2) k = Return (d1 ++ d2).
Proof.
  unfold dict_keys. induction d1 as [|[k' v'] d1 IH]; simpl; intros Hno.
  - now rewrite str_eqb_refl.
  - apply not_elem_of_cons in Hno as [Hne Hno].
    assert (str_eqb k' k = false) as -> by now apply str_eqb_neq.
    now rewrite IH.
Qed.

Lemma dict_ok_setitem d k v : dict_ok d -> dict_ok (dict_setitem d k v).
Proof.
  unfold dict_ok. rewrite dict_keys_setitem.
  destruct (dict_contains d k) eqn:E; [done|]. intros H.
  apply NoDup_app. split; [done|]. split; [|apply NoDup_singleton].
  intros x Hx Hk. apply list_elem_of_singleton in Hk as ->.
  apply dict_contains_spec in Hx. congruence.
Qed.

Lemma dict_ok_remove d1 k v d2 :
  dict_ok (d1 ++ (k, v) :: d2) -> dict_ok (d1 ++ d2) /\ k ∉ dict_keys (d1 ++ d2).
Proof.
  unfold dict_ok. rewrite !dict_keys_app. simpl.
  rewrite !NoDup_app, NoDup_cons. intros (H1 & H12 & Hk & H2).
  split.
  - split; [done|]. split; [|done]. intros x Hx Hx2. apply (H12 x Hx). now right.
  - intros Hin. apply elem_of_app in Hin as [Hin|Hin]; [|done].
    apply (H12 k Hin). now left.
Qed.

Lemma dict_ok_unique d k v :
  dict_ok d -> (k, v) ∈ d -> dict_get d k = Some v.
Proof.
  unfold dict_ok, dict_keys. induction d as [|[k' v'] d IH]; simpl; intros Hok Hin.
  - now apply elem_of_nil in Hin.
  - apply NoDup_cons in Hok as [Hk' Hok].
    apply elem_of_cons in Hin as [[= <- <-]|Hin]; [now rewrite str_eqb_refl|].
    destruct (str_eqb k' k) eqn:E; [|now apply IH].
    apply str_eqb_eq in E. subst k'. exfalso. apply Hk'.
    apply list_elem_of_fmap. now exists (k, v).
Qed.
End dict.

(** ** [AddressBook]: adding, finding and deleting *)

(** C5: [add_record(record)] never raises.  When a record is already filed
    under the same name, the new record takes its place in the dictionary
    and nothing of the old one is kept: what [find] gives for that name is
    the new record itself, with its own phones and birthday.  When the name
    is new, the record is added under it, after the others.  Every other
    name keeps its record. *)
Theorem add_record_spec (book : AddressBook.t) (record : Record.t) :
  exists book',
    AddressBook.add_record record book = (Return tt, book')
    /\ AddressBook.find (key_of record) book' = (Return (Some record), book')
    /\ (forall before old after,
          AddressBook.data book = before ++ (key_of record, old) :: after ->
          key_of record ∉ dict_keys before ->
          AddressBook.data book' = before ++ (key_of record, record) :: after)
    /\ (key_of record ∉ dict_keys (AddressBook.data book) ->
          AddressBook.data book'
          = AddressBook.data book ++ [(key_of record, record)])
    /\ (forall name, name <> key_of record ->
          AddressBook.find name book'
          = (Return (dict_get (AddressBook.data book) name), book'))
    /\ (dict_ok (AddressBook.data book) -> dict_ok (AddressBook.data book')).
Proof.
  eexists. split; [reflexivity|]. unfold AddressBook.find, key_of. run.
  split; [now rewrite dict_get_setitem|].
  split; [intros before old after -> Hno; now apply dict_setitem_present|].
  split; [apply dict_setitem_absent|].
  split; [intros name Hne; now rewrite dict_get_setitem_other|].
  apply dict_ok_setitem.
Qed.

Lemma add_record_spec_witness :
  let john1 := Record.mk (Field.mk (lit "John"))
                 [Field.mk (lit "1234567890")]
                 (Some (Field.mk (mk_datetime 1990 4 10 0 0 0 0))) in
  let john2 := Record.mk (Field.mk (lit "John")) [] None in
  let jane := Record.mk (Field.mk (lit "Jane")) [] None in
  let book := AddressBook.mk [(lit "John", john1); (lit "Jane", jane)] in
  exists book',
    AddressBook.add_record john2 book = (Return tt, book')
    /\ AddressBook.data book' = [(lit "John", john2); (lit "Jane", jane)].
Proof.
  intros john1 john2 jane book.
  destruct (add_record_spec book john2) as (book' & E & _ & H & _).
  exists book'. split; [exact E|].
  apply (H [] john1 [(lit "Jane", jane)]); [reflexivity|].
  apply not_elem_of_nil.
Defined.

(** C7: a name or a phone that is not there is never an error.  [find]
    gives the record filed under the name, or [None]; [delete] removes the
    item of the name, or does nothing; neither raises.  [remove_phone] and
    [edit_phone] return [False] for a phone that is not in the list, and
    leave the record alone. *)
Theorem not_found_is_not_an_error (book : AddressBook.t) (name : str) :
  (forall r, dict_ok (AddressBook.data book) ->
     (name, r) ∈ AddressBook.data book ->
     AddressBook.find name book = (Return (Some r), book))
  /\ (name ∉ dict_keys (AddressBook.data book) ->
      AddressBook.find name book = (Return None, book))
  /\ (forall before r after,
        AddressBook.data book = before ++ (name, r) :: after ->
        name ∉ dict_keys before ->
        AddressBook.delete name book
        = (Return tt, AddressBook.mk (before ++ after))
        /\ (dict_ok (AddressBook.data book) ->
            AddressBook.find name (AddressBook.mk (before ++ after))
            = (Return None, AddressBook.mk (before ++ after))))
  /\ (name ∉ dict_keys (AddressBook.data book) ->
      AddressBook.delete name book = (Return tt, book))
  /\ (forall (record : Record.t) (phone : str),
        phone ∉ phone_values (Record.phones record) ->
        Record.remove_phone phone record = (Return false, record)
        /\ forall new_phone,
             Record.edit_phone phone new_phone record = (Return false, record)).
Proof.
  split; [|split; [|split; [|split]]].
  - intros r Hok Hin. unfold AddressBook.find. run.
    now rewrite (dict_ok_unique _ _ _ Hok Hin).
  - intros Hno. unfold AddressBook.find. run.
    now apply dict_get_None in Hno as ->.
  - intros before r after Hd Hno. split.
    + unfold AddressBook.delete. run.
      assert (dict_contains (AddressBook.data book) name = true) as ->.
      { apply dict_contains_spec. rewrite Hd, dict_keys_app.
        apply elem_of_app. right. now left. }
      run. now rewrite Hd, dict_delitem_present.
    + rewrite Hd. intros Hok. apply dict_ok_remove in Hok as [_ Hk].
      unfold AddressBook.find. run. now apply dict_get_None in Hk as ->.
  - intros Hno. unfold AddressBook.delete. run.
    assert (dict_contains (AddressBook.data book) name = false) as ->; [|done].
    apply not_true_iff_false. now rewrite dict_contains_spec.
  - intros record phone Hno. split.
    + now apply remove_phone_absent.
    + intros new_phone. now apply edit_phone_absent.
Qed.

Lemma not_found_is_not_an_error_witness :
  let john := Record.mk (Field.mk (lit "John")) [] None in
  let book := AddressBook.mk [(lit "John", john)] in
  AddressBook.find (lit "Jane") book = (Return None, book)
  /\ AddressBook.delete (lit "Jane") book = (Return tt, book)
  /\ AddressBook.find (lit "John") book = (Return (Some john), book)
  /\ AddressBook.delete (lit "John") book = (Return tt, AddressBook.mk [])
  /\ Record.remove_phone (lit "1234567890") john = (Return false, john).
Proof.
  intros john book.
  assert (lit "Jane" ∉ dict_keys (AddressBook.data book)) as Hno.
  { vm_compute. intros H. apply elem_of_cons in H as [H|H]; [discriminate|].
    now apply elem_of_nil in H. }
  destruct (not_found_is_not_an_error book (lit "Jane")) as (_ & F & _ & D & _).
  destruct (not_found_is_not_an_error book (lit "John")) as (F' & _ & D' & _ & P).
  split; [now apply F|]. split; [now apply D|].
  split; [|split].
  - apply F'; [|left]. apply NoDup_singleton.
  - apply (D' [] john []); [reflexivity | apply not_elem_of_nil].
  - apply P. apply not_elem_of_nil.
Defined.

(** ** The calendar of [datetime] *)

Lemma days_before_year_succ (y : Z) :
  _days_before_year (y + 1) = _days_before_year y + 365 + Z.b2z (_is_leap y).
Proof.
  unfold _days_before_year, _is_leap.
  replace (y + 1 - 1) with (y - 1 + 1) by lia.
  destruct (y mod 4 =? 0) eqn:E4; destruct (y mod 100 =? 0) eqn:E100;
    destruct (y mod 400 =? 0) eqn:E400; simpl;
    rewrite ?Z.eqb_eq, ?Z.eqb_neq in *; 
    Z.div_mod_to_equations; lia.
Qed.

Lemma days_before_year_mono (y1 y2 : Z) :
  y1 <= y2 -> _days_before_year y1 <= _days_before_year y2.
Proof.
  unfold _days_before_year. intros H. Z.div_mod_to_equations. lia.
Qed.

Lemma offsets_ok (leapyear : bool) :
  forallb (fun k => offset_ok leapyear (Z.of_nat k)) (seq 0 365) = true.
Proof. destruct leapyear; vm_compute; reflexivity. Qed.

Lemma month_day_of_offset_spec (n : Z) (leapyear : bool) :
  0 <= n < 365 ->
  let '(m, d) := month_day_of_offset n leapyear in
  1 <= m <= 12 /\ 1 <= d
  /\ d <= (if (m =? 2) && leapyear then 29 else index _DAYS_IN_MONTH m)
  /\ index _DAYS_BEFORE_MONTH m + Z.b2z ((2 <? m) && leapyear) + d = n + 1.
Proof.
  intros Hn. pose proof (offsets_ok leapyear) as H.
  rewrite forallb_forall in H. specialize (H (Z.to_nat n)).
  rewrite Z2Nat.id in H by lia. unfold offset_ok in H.
  destruct (month_day_of_offset n leapyear) as [m d].
  assert (In (Z.to_nat n) (seq 0 365)) as Hin by (apply in_seq; lia).
  apply H in Hin. rewrite !andb_true_iff in Hin. 
  destruct Hin as ((((H1 & H2) & H3) & H4) & H5).
  rewrite ?Z.leb_le, ?Z.eqb_eq in *. lia.
Qed.

Lemma ord2ymd_spec (n : Z) :
  1 <= n ->
  let '(y, m, d) := _ord2ymd n in
  1 <= y /\ 1 <= m <= 12 /\ 1 <= d <= _days_in_month y m /\ _ymd2ord y m d = n.
Proof.
  intros Hn. unfold _ord2ymd.
  change _DI400Y with 146097. change _DI100Y with 36524. change _DI4Y with 1461.
  set (n0 := n - 1).
  set (n400 := n0 / 146097). set (r1 := n0 mod 146097).
  set (n100 := r1 / 36524). set (r2 := r1 mod 36524).
  set (n4 := r2 / 1461). set (r3 := r2 mod 1461).
  set (n1 := r3 / 365). set (r4 := r3 mod 365).
  assert (0 <= n400 /\ 0 <= r1 < 146097 /\ n0 = 146097 * n400 + r1) as (B400 & Br1 & E0).
  { subst n400 r1. Z.div_mod_to_equations. lia. }
  assert (0 <= n100 <= 4 /\ 0 <= r2 < 36524 /\ r1 = 36524 * n100 + r2) as (B100 & Br2 & E1).
  { subst n100 r2. Z.div_mod_to_equations. lia. }
  assert (0 <= n4 <= 24 /\ 0 <= r3 < 1461 /\ r2 = 1461 * n4 + r3) as (B4 & Br3 & E2).
  { subst n4 r3. Z.div_mod_to_equations. lia. }
  assert (0 <= n1 <= 4 /\ 0 <= r4 < 365 /\ r3 = 365 * n1 + r4) as (B1 & Br4 & E3).
  { subst n1 r4. Z.div_mod_to_equations. lia. }
  clearbody n400 r1 n100 r2 n4 r3 n1 r4.
  destruct ((n1 =? 4) || (n100 =? 4)) eqn:Esp.
  - (* the last day of a leap year *)
    apply orb_true_iff in Esp. rewrite !Z.eqb_eq in Esp.
    set (y := n400 * 400 + 1 + (n100 * 100 + n4 * 4 + n1) - 1).
    assert (y mod 4 = 0 /\ (y mod 100 <> 0 \/ y mod 400 = 0)
            /\ _days_before_year y + 366 = n) as (L4 & L100 & E).
    { unfold _days_before_year. subst y n0. 
      destruct Esp as [-> | ->]; Z.div_mod_to_equations; lia. }
    assert (_is_leap y = true) as Hleap.
    { unfold _is_leap. apply andb_true_iff. rewrite orb_true_iff, negb_true_iff.
      rewrite !Z.eqb_eq, Z.eqb_neq. tauto. }
    unfold _days_in_month, _ymd2ord, _days_before_month. rewrite Hleap. simpl.
    change (index _DAYS_IN_MONTH 12) with 31.
    change (index _DAYS_BEFORE_MONTH 12) with 334.
    subst y. lia.
  - apply orb_false_iff in Esp as [N1 N100]. rewrite Z.eqb_neq in N1, N100.
    set (y := n400 * 400 + 1 + (n100 * 100 + n4 * 4 + n1)).
    set (leapyear := (n1 =? 3) && (negb (n4 =? 24) || (n100 =? 3))).
    assert (_days_before_year y = n0 - r4) as Ey.
    { unfold _days_before_year. subst y. Z.div_mod_to_equations. lia. }
    assert (_is_leap y = leapyear) as Hleap.
    { unfold _is_leap. subst y leapyear.
      destruct (n1 =? 3) eqn:E13; destruct (n4 =? 24) eqn:E424;
        destruct (n100 =? 3) eqn:E1003; simpl;
        rewrite ?Z.eqb_eq, ?Z.eqb_neq in *;
        rewrite ?andb_true_iff, ?andb_false_iff, ?orb_true_iff, ?orb_false_iff,
                ?negb_true_iff, ?negb_false_iff, ?Z.eqb_eq, ?Z.eqb_neq;
        Z.div_mod_to_equations; lia. }
    pose proof (month_day_of_offset_spec r4 leapyear ltac:(lia)) as Hmd.
    unfold month_day_of_offset in Hmd.
    destruct (if r4 <? _ then _ else _) as [m p].
    unfold _days_in_month, _ymd2ord, _days_before_month. rewrite Hleap, Ey.
    subst y n0. lia.
Qed.

Ltac month_cases m :=
  let H := fresh in
  assert (m = 1 \/ m = 2 \/ m = 3 \/ m = 4 \/ m = 5 \/ m = 6 \/ m = 7
          \/ m = 8 \/ m = 9 \/ m = 10 \/ m = 11 \/ m = 12) as H by lia;
  repeat (destruct H as [->|H]); [..|subst m].

Lemma day_of_year_bounds (y m d : Z) :
  1 <= m <= 12 -> 1 <= d <= _days_in_month y m ->
  1 <= _days_before_month y m + d <= 365 + Z.b2z (_is_leap y).
Proof.
  unfold _days_in_month, _days_before_month. intros Hm.
  month_cases m; destruct (_is_leap y); simpl; 
    unfold index; simpl; lia.
Qed.

Lemma day_of_year_mono (y m1 d1 m2 d2 : Z) :
  1 <= m1 <= 12 -> 1 <= d1 <= _days_in_month y m1 ->
  1 <= m2 <= 12 -> 1 <= d2 <= _days_in_month y m2 ->
  m1 < m2 -> _days_before_month y m1 + d1 < _days_before_month y m2 + d2.
Proof.
  unfold _days_in_month, _days_before_month. intros Hm1 Hd1 Hm2 Hd2 Hlt.
  month_cases m1; month_cases m2; try lia;
    destruct (_is_leap y); simpl in *; unfold index in *; simpl in *; lia.
Qed.

Lemma ymd2ord_year_mono (y1 m1 d1 y2 m2 d2 : Z) :
  1 <= m1 <= 12 -> 1 <= d1 <= _days_in_month y1 m1 ->
  1 <= m2 <= 12 -> 1 <= d2 <= _days_in_month y2 m2 ->
  y1 < y2 -> _ymd2ord y1 m1 d1 < _ymd2ord y2 m2 d2.
Proof.
  intros Hm1 Hd1 Hm2 Hd2 Hlt. unfold _ymd2ord.
  pose proof (day_of_year_bounds y1 m1 d1 Hm1 Hd1).
  pose proof (day_of_year_bounds y2 m2 d2 Hm2 Hd2).
  pose proof (days_before_year_succ y1).
  pose proof (days_before_year_mono (y1 + 1) y2 ltac:(lia)). lia.
Qed.

(** The ordinal of a date orders dates as the triple (year, month, day)
    does. *)
Lemma ymd2ord_compare (y1 m1 d1 y2 m2 d2 : Z) :
  1 <= m1 <= 12 -> 1 <= d1 <= _days_in_month y1 m1 ->
  1 <= m2 <= 12 -> 1 <= d2 <= _days_in_month y2 m2 ->
  (y1 < y2 -> _ymd2ord y1 m1 d1 < _ymd2ord y2 m2 d2)
  /\ (y1 = y2 -> m1 < m2 -> _ymd2ord y1 m1 d1 < _ymd2ord y2 m2 d2)
  /\ (y1 = y2 -> m1 = m2 -> _ymd2ord y1 m1 d1 - _ymd2ord y2 m2 d2 = d1 - d2).
Proof.
  intros Hm1 Hd1 Hm2 Hd2. split; [|split].
  - now apply ymd2ord_year_mono.
  - intros <- Hlt. unfold _ymd2ord.
    pose proof (day_of_year_mono y1 m1 d1 m2 d2 Hm1 Hd1 Hm2 Hd2 Hlt). lia.
  - intros <- <-. unfold _ymd2ord. lia.
Qed.

Lemma check_date_fields_spec (y m d : Z) :
  (date_ok y m d /\ _check_date_fields y m d = Return (y, m, d))
  \/ (~ date_ok y m d /\ exists msg, _check_date_fields y m d = Raise (ValueError msg)).
Proof.
  unfold _check_date_fields, date_ok, MINYEAR, MAXYEAR.
  repeat match goal with
  | |- context [ (?a <=? ?b) ] => destruct (Z.leb_spec a b)
  end; simpl; try (left; split; [lia | reflexivity]);
  right; (split; [lia | eexists; reflexivity]).
Qed.

Lemma check_time_fields_spec (hh mm ss us : Z) :
  (time_ok hh mm ss us /\ _check_time_fields hh mm ss us = Return (hh, mm, ss, us))
  \/ (~ time_ok hh mm ss us
      /\ exists msg, _check_time_fields hh mm ss us = Raise (ValueError msg)).
Proof.
  unfold _check_time_fields, time_ok.
  repeat match goal with
  | |- context [ (?a <=? ?b) ] => destruct (Z.leb_spec a b)
  end; simpl; try (left; split; [lia | reflexivity]);
  right; (split; [lia | eexists; reflexivity]).
Qed.

Lemma datetime_new_valid (y m d hh mm ss us : Z) :
  date_ok y m d -> time_ok hh mm ss us ->
  datetime_new y m d hh mm ss us = Return (mk_datetime y m d hh mm ss us).
Proof.
  intros Hd Ht. unfold datetime_new.
  destruct (check_date_fields_spec y m d) as [[_ ->]|[? _]]; [|done].
  destruct (check_time_fields_spec hh mm ss us) as [[_ ->]|[? _]]; [|done].
  reflexivity.
Qed.

Lemma datetime_new_Return (y m d hh mm ss us : Z) (dt : datetime) :
  datetime_new y m d hh mm ss us = Return dt ->
  dt = mk_datetime y m d hh mm ss us /\ datetime_valid dt.
Proof.
  unfold datetime_new. intros H.
  destruct (check_date_fields_spec y m d) as [[Hd E]|[_ [msg E]]];
    rewrite E in H; simpl in H; [|done].
  destruct (check_time_fields_spec hh mm ss us) as [[Ht E']|[_ [msg E']]];
    rewrite E' in H; simpl in H; [|done].
  injection H as <-. now split.
Qed.

Lemma datetime_ok_spec (dt : datetime) :
  datetime_ok dt = true <-> datetime_valid dt.
Proof.
  unfold datetime_ok. split.
  - destruct (datetime_new _ _ _ _ _ _ _) as [dt'|] eqn:E; [|done]. intros _.
    apply datetime_new_Return in E as [-> H]. exact H.
  - intros [Hd Ht]. now rewrite datetime_new_valid.
Qed.

Lemma time_of_day_bounds (dt : datetime) :
  datetime_valid dt -> 0 <= time_of_day dt < day_us.
Proof. unfold datetime_valid, time_ok, time_of_day, day_us. lia. Qed.

(** [a <= b] on datetimes is the order of the instants they denote. *)
Lemma datetime_le_spec (a b : datetime) :
  datetime_valid a -> datetime_valid b ->
  (datetime_le a b = true <-> instant a <= instant b).
Proof.
  intros [(Hy1 & Hm1 & Hd1) Ht1] [(Hy2 & Hm2 & Hd2) Ht2].
  pose proof (ymd2ord_compare _ _ _ _ _ _ Hm1 Hd1 Hm2 Hd2) as (Oy & Om & Od).
  pose proof (ymd2ord_compare _ _ _ _ _ _ Hm2 Hd2 Hm1 Hd1) as (Oy' & Om' & Od').
  unfold instant, time_of_day, day_us, toordinal in *.
  unfold time_ok in Ht1, Ht2.
  unfold datetime_le, datetime_cmp, datetime_tuple, _cmp.
  set (o1 := _ymd2ord (year a) (month a) (day a)) in *.
  set (o2 := _ymd2ord (year b) (month b) (day b)) in *.
  clearbody o1 o2.
  repeat match goal with
  | |- context [ (?x <? ?y) ] => destruct (Z.ltb_spec x y)
  end; rewrite Z.leb_le; lia.
Qed.

Lemma timedelta_new_normal (d ss us mm hh : Z) :
  0 <= ss + mm * 60 + hh * 3600 < 86400 -> 0 <= us < 1000000 ->
  Z.abs d <= 999999999 ->
  timedelta_new d ss us mm hh
  = Return (mk_timedelta d (ss + mm * 60 + hh * 3600) us).
Proof.
  unfold timedelta_new. intros Hs Hus Hd.
  rewrite (Z.div_small us), (Z.mod_small us) by lia. rewrite Z.add_0_r.
  rewrite (Z.div_small (ss + mm * 60 + hh * 3600)),
          (Z.mod_small (ss + mm * 60 + hh * 3600)) by lia.
  rewrite Z.add_0_r. destruct (Z.ltb_spec 999999999 (Z.abs d)); [lia|done].
Qed.

Lemma ord2ymd_date_ok (n : Z) :
  1 <= n <= _MAXORDINAL ->
  let '(y, m, d) := _ord2ymd n in date_ok y m d /\ _ymd2ord y m d = n.
Proof.
  intros [Hlo Hhi]. pose proof (ord2ymd_spec n Hlo) as H.
  destruct (_ord2ymd n) as [[y m] d]. destruct H as (Hy & Hm & Hd & E).
  split; [|done]. split; [|done]. split; [done|].
  destruct (Z_le_gt_dec y 9999) as [|Hbig]; [done|]. exfalso.
  pose proof (days_before_year_mono 10000 y ltac:(lia)) as Hmono.
  pose proof (day_of_year_bounds y m d Hm Hd).
  unfold _ymd2ord in E. unfold _MAXORDINAL in Hhi.
  change (_days_before_year 10000) with 3652059 in Hmono. lia.
Qed.

Lemma toordinal_bounds (dt : datetime) :
  datetime_valid dt -> 1 <= toordinal dt <= _MAXORDINAL.
Proof.
  intros [(Hy & Hm & Hd) _]. unfold toordinal, _ymd2ord, _MAXORDINAL.
  pose proof (day_of_year_bounds _ _ _ Hm Hd).
  pose proof (days_before_year_mono 1 (year dt) ltac:(lia)) as H1.
  pose proof (days_before_year_mono (year dt + 1) 10000 ltac:(lia)) as H2.
  rewrite days_before_year_succ in H2.
  change (_days_before_year 1) with 0 in H1.
  change (_days_before_year 10000) with 3652059 in H2. lia.
Qed.

Lemma hms_of_seconds (hh mm ss : Z) :
  0 <= hh -> 0 <= mm <= 59 -> 0 <= ss <= 59 ->
  let total := ss + mm * 60 + hh * 3600 in
  total / 3600 = hh /\ (total mod 3600) / 60 = mm /\ (total mod 3600) mod 60 = ss.
Proof. intros; subst total; Z.div_mod_to_equations; lia. Qed.

(** Adding whole days to a datetime: the same time of day, that many days
    later, as long as the day exists; [OverflowError] otherwise. *)
Lemma datetime_add_days (dt : datetime) (k : Z) :
  datetime_valid dt -> Z.abs (toordinal dt + k) <= 999999999 ->
  (0 < toordinal dt + k <= _MAXORDINAL ->
   exists dt', datetime_add dt (mk_timedelta k 0 0) = Return dt'
               /\ datetime_valid dt'
               /\ instant dt' = instant dt + k * day_us)
  /\ (_MAXORDINAL < toordinal dt + k ->
      datetime_add dt (mk_timedelta k 0 0)
      = Raise (OverflowError "date value out of range")).
Proof.
  intros Hv Hk. pose proof (toordinal_bounds dt Hv) as Hord.
  destruct Hv as [Hd Ht]. unfold _MAXORDINAL in *.
  pose proof Ht as (Hh & Hm & Hs & Hu).
  unfold datetime_add. unfold _MAXORDINAL in *.
  rewrite timedelta_new_normal by lia. simpl.
  unfold timedelta_add. simpl. rewrite !Z.add_0_r.
  rewrite (timedelta_new_normal _ _ _ 0 0) by lia.
  simpl. rewrite !Z.add_0_r.
  destruct (hms_of_seconds (hour dt) (minute dt) (second dt)) as (-> & -> & ->);
    [lia..|].
  split.
  - intros Hin.
    destruct (Z.ltb_spec 0 (toordinal dt + k)); [|lia].
    destruct (Z.leb_spec (toordinal dt + k) 3652059); [|lia]. simpl.
    unfold combine_fromordinal.
    pose proof (ord2ymd_date_ok (toordinal dt + k)) as H'.
    destruct (_ord2ymd (toordinal dt + k)) as [[y m] d].
    destruct H' as [Hd' E]; [unfold _MAXORDINAL; lia|].
    rewrite datetime_new_valid by done. eexists. split; [reflexivity|].
    split; [now split|].
    unfold instant, toordinal, time_of_day. simpl. rewrite E.
    fold (toordinal dt). lia.
  - intros Hbig.
    destruct (Z.leb_spec (toordinal dt + k) 3652059); [lia|].
    now rewrite andb_false_r.
Qed.

(** ** [get_upcoming_birthdays] *)

Lemma fold_visit (today next_week : datetime) (l acc : list Record.t) :
  fold_left (AddressBook.visit today next_week) l acc
  = acc ++ List.filter (in_window today next_week) l.
Proof.
  revert acc. induction l as [|r l IH]; intros acc; simpl.
  - now rewrite app_nil_r.
  - rewrite IH. unfold AddressBook.visit, in_window.
    destruct (Record.birthday r) as [b|]; [|done].
    destruct (datetime_le today (Field.value b)
              && datetime_le (Field.value b) next_week); [|done].
    now rewrite <- app_assoc.
Qed.

(** Away from the last week of the year 9999 the method returns, and what it
    returns is the records that pass the test of its loop, in the order of
    the book, which is left as it was. *)
Lemma get_upcoming_birthdays_run (book : AddressBook.t) (now : datetime) :
  datetime_valid now -> toordinal now + 7 <= _MAXORDINAL ->
  exists next_week,
    datetime_valid next_week
    /\ instant next_week = instant now + 7 * day_us
    /\ AddressBook.get_upcoming_birthdays now book
       = (Return (List.filter (in_window now next_week) (records book)), book).
Proof.
  intros Hv Hord. pose proof (toordinal_bounds now Hv) as Hb.
  unfold _MAXORDINAL in *.
  destruct (datetime_add_days now 7 Hv ltac:(lia)) as [Hadd _].
  destruct Hadd as (nw & E & Hnw & Hi); [unfold _MAXORDINAL; lia|].
  exists nw. split; [done|]. split; [done|].
  unfold AddressBook.get_upcoming_birthdays, bind, eval, get, ret.
  change (timedelta_new 7 0 0 0 0) with (Return (mk_timedelta 7 0 0)).
  cbv beta iota. rewrite E. now rewrite fold_visit.
Qed.

(** In the last week of the year 9999 there is no datetime 7 days later,
    and the method raises what the addition raises. *)
Lemma get_upcoming_birthdays_overflow (book : AddressBook.t) (now : datetime) :
  datetime_valid now -> _MAXORDINAL < toordinal now + 7 ->
  AddressBook.get_upcoming_birthdays now book
  = (Raise (OverflowError "date value out of range"), book).
Proof.
  intros Hv Hord. pose proof (toordinal_bounds now Hv) as Hb.
  unfold _MAXORDINAL in *.
  destruct (datetime_add_days now 7 Hv ltac:(lia)) as [_ E].
  unfold AddressBook.get_upcoming_birthdays, bind, eval, get, ret.
  change (timedelta_new 7 0 0 0 0) with (Return (mk_timedelta 7 0 0)).
  cbv beta iota. now rewrite E by (unfold _MAXORDINAL; lia).
Qed.

Lemma in_window_upcoming (now next_week : datetime) (record : Record.t) :
  datetime_valid now -> datetime_valid next_week ->
  instant next_week = instant now + 7 * day_us ->
  (forall b, Record.birthday record = Some b -> datetime_valid (Field.value b)) ->
  in_window now next_week record = upcoming now record.
Proof.
  intros Hv Hnw Hi Hb. unfold in_window, upcoming.
  destruct (Record.birthday record) as [b|]; [|done].
  specialize (Hb b eq_refl). rewrite <- Hi.
  apply eq_true_iff_eq. rewrite !andb_true_iff, !Z.leb_le.
  now rewrite !datetime_le_spec.
Qed.

(** C1, as stated, fails for an instant [now] of the last week of the year
    9999.  On 25 December 9999 at noon, a birthday on 26 December 9999, which
    [Birthday] accepts, lies between [now] and 7 times 24 hours later; but
    [today + timedelta(days=7)] is not a datetime, the addition raises
    [OverflowError], and the method returns no record at all. *)
Lemma get_upcoming_birthdays_fails_at_the_end_of_9999 :
  let now := mk_datetime 9999 12 25 12 0 0 0 in
  let jane := Record.mk (Field.mk (lit "Jane")) []
                (Some (Field.mk (midnight 9999 12 26))) in
  let book := AddressBook.mk [(lit "Jane", jane)] in
  datetime_valid now
  /\ Birthday.__init__ (lit "26.12.9999") = Return (Field.mk (midnight 9999 12 26))
  /\ instant now <= instant (midnight 9999 12 26) <= instant now + 7 * day_us
  /\ AddressBook.get_upcoming_birthdays now book
     = (Raise (OverflowError "date value out of range"), book).
Proof.
  intros now jane book. split; [now apply datetime_ok_spec|].
  split; [reflexivity|]. split; [vm_compute; split; discriminate|].
  reflexivity.
Qed.

(** C1, amended: called at the instant [now], as long as [now] plus 7 days
    is a datetime (the date of [now] is 24 December 9999 at the latest),
    [get_upcoming_birthdays] returns the records of the book that have a
    birthday whose stored datetime, year included, lies between [now] and
    [now] plus 7 times 24 hours, both ends included, in the order in which
    the book is read, and leaves the book unchanged.  A birthday exactly 7
    days after [now] is in the result, one exactly 8 days after [now] is
    not.  From 25 December 9999 on, the call raises the [OverflowError] of
    the addition and returns nothing; the book is unchanged. *)
Theorem get_upcoming_birthdays_spec (book : AddressBook.t) (now : datetime) :
  datetime_valid now -> birthdays_valid book ->
  (toordinal now + 7 <= _MAXORDINAL ->
   exists result,
     AddressBook.get_upcoming_birthdays now book = (Return result, book)
     /\ result = List.filter (upcoming now) (records book)
     /\ (forall record,
           record ∈ result <->
           record ∈ records book
           /\ exists b, Record.birthday record = Some b
                /\ instant now <= instant (Field.value b)
                   <= instant now + 7 * day_us)
     /\ (forall record b,
           record ∈ records book -> Record.birthday record = Some b ->
           instant (Field.value b) = instant now + 7 * day_us -> record ∈ result)
     /\ (forall record b,
           record ∈ records book -> Record.birthday record = Some b ->
           instant (Field.value b) = instant now + 8 * day_us -> record ∉ result))
  /\ (_MAXORDINAL < toordinal now + 7 ->
      AddressBook.get_upcoming_birthdays now book
      = (Raise (OverflowError "date value out of range"), book)).
Proof.
  intros Hv Hbook. split; [|now apply get_upcoming_birthdays_overflow].
  intros Hord.
  destruct (get_upcoming_birthdays_run book now Hv Hord) as (nw & Hnw & Hi & E).
  assert (List.filter (in_window now nw) (records book)
          = List.filter (upcoming now) (records book)) as Ef.
  { apply filter_ext_in. intros r Hr.
    apply in_window_upcoming; [done..|].
    intros b Hb. apply (Hbook r b); [|done]. now apply list_elem_of_In. }
  rewrite Ef in E. eexists. split; [exact E|]. split; [reflexivity|].
  assert (forall record,
            record ∈ List.filter (upcoming now) (records book) <->
            record ∈ records book
            /\ exists b, Record.birthday record = Some b
                 /\ instant now <= instant (Field.value b)
                    <= instant now + 7 * day_us) as Hin.
  { intros r. rewrite !list_elem_of_In, filter_In. unfold upcoming.
    split.
    - intros [Hr Hu]. split; [done|].
      destruct (Record.birthday r) as [b|]; [|done]. exists b. split; [done|].
      apply andb_true_iff in Hu. rewrite !Z.leb_le in Hu. lia.
    - intros [Hr (b & -> & Hu)]. split; [done|].
      apply andb_true_iff. rewrite !Z.leb_le. lia. }
  split; [exact Hin|]. unfold day_us in *. split.
  - intros r b Hr Hb Hib. apply Hin. split; [done|]. exists b. split; [done|lia].
  - intros r b Hr Hb Hib Hres. apply Hin in Hres as [_ (b' & Hb' & Hu)].
    assert (b' = b) as -> by congruence. lia.
Qed.

Lemma get_upcoming_birthdays_spec_witness :
  let john := Record.mk (Field.mk (lit "John")) []
                (Some (Field.mk (midnight 1990 4 10))) in
  let jane := Record.mk (Field.mk (lit "Jane")) []
                (Some (Field.mk (midnight 1990 4 11))) in
  let anna := Record.mk (Field.mk (lit "Anna")) [] None in
  let book := AddressBook.mk
                [(lit "Jane", jane); (lit "Anna", anna); (lit "John", john)] in
  AddressBook.get_upcoming_birthdays (midnight 1990 4 3) book
  = (Return [john], book)
  /\ AddressBook.get_upcoming_birthdays (midnight 2025 4 3) book
     = (Return [], book)
  /\ AddressBook.get_upcoming_birthdays (mk_datetime 9999 12 25 12 0 0 0) book
     = (Raise (OverflowError "date value out of range"), book).
Proof.
  intros john jane anna book.
  assert (birthdays_valid book) as Hbook.
  { intros r b Hr Hb. apply datetime_ok_spec.
    repeat (apply elem_of_cons in Hr as [->|Hr]);
      [injection Hb as <-; reflexivity | discriminate
      | injection Hb as <-; reflexivity | now apply elem_of_nil in Hr]. }
  split; [|split].
  - destruct (proj1 (get_upcoming_birthdays_spec book (midnight 1990 4 3)
                       ltac:(now apply datetime_ok_spec) Hbook))
      as (result & E & -> & _); [vm_compute; discriminate|].
    exact E.
  - destruct (proj1 (get_upcoming_birthdays_spec book (midnight 2025 4 3)
                       ltac:(now apply datetime_ok_spec) Hbook))
      as (result & E & -> & _); [vm_compute; discriminate|].
    exact E.
  - apply (proj2 (get_upcoming_birthdays_spec book
                    (mk_datetime 9999 12 25 12 0 0 0)
                    ltac:(now apply datetime_ok_spec) Hbook)).
    vm_compute. reflexivity.
Defined.

(** ** [Birthday] stores a midnight *)

Lemma strptime_midnight (s : str) (dt : datetime) :
  strptime s = Return dt ->
  datetime_valid dt /\ dt = midnight (year dt) (month dt) (day dt).
Proof.
  unfold strptime. destruct (_strptime s) as [[[y m] d]|]; simpl; [|done].
  intros H. apply datetime_new_Return in H as [-> Hv]. now split.
Qed.

Lemma Birthday_init_Return (s : str) (b : Birthday.t) :
  Birthday.__init__ s = Return b <-> strptime s = Return (Field.value b).
Proof.
  unfold Birthday.__init__. destruct b as [v]. simpl.
  destruct (strptime s) as [dt|[]]; split; intros H; try discriminate;
    injection H as <-; reflexivity.
Qed.

Lemma int_Raise (s : str) (e : exn) :
  int s = Raise e -> exists msg, e = ValueError msg.
Proof.
  unfold int. destruct (strip s); [intros [= <-]; now eexists|].
  destruct (int_digits _ _); [done|]. intros [= <-]. now eexists.
Qed.

Lemma check_date_fields_Return (y m d : Z) (r : Z * Z * Z) :
  _check_date_fields y m d = Return r -> r = (y, m, d) /\ date_ok y m d.
Proof.
  destruct (check_date_fields_spec y m d) as [[H ->]|[_ [msg ->]]]; [|done].
  now intros [= <-].
Qed.

Lemma datetime_new_Raise (y m d hh mm ss us : Z) (e : exn) :
  datetime_new y m d hh mm ss us = Raise e -> exists msg, e = ValueError msg.
Proof.
  unfold datetime_new.
  destruct (check_date_fields_spec y m d) as [[_ ->]|[_ [msg ->]]]; simpl;
    [|intros [= <-]; now eexists].
  destruct (check_time_fields_spec hh mm ss us) as [[_ ->]|[_ [msg ->]]]; simpl;
    [done | intros [= <-]; now eexists].
Qed.

Lemma strptime_Raise (s : str) (e : exn) :
  strptime s = Raise e -> exists msg, e = ValueError msg.
Proof.
  unfold strptime, _strptime.
  destruct (format_regex_match s) as [[[[d m] Y] rest]|]; simpl;
    [|intros [= <-]; now eexists].
  destruct (negb (bool_decide (rest = []))); simpl; [intros [= <-]; now eexists|].
  destruct (int d) as [day|e1] eqn:E1; simpl;
    [|intros [= <-]; now apply int_Raise in E1].
  destruct (int m) as [month|e2] eqn:E2; simpl;
    [|intros [= <-]; now apply int_Raise in E2].
  destruct (int Y) as [year|e3] eqn:E3; simpl;
    [|intros [= <-]; now apply int_Raise in E3].
  destruct (_check_date_fields year month day) as [r|e4] eqn:E4; simpl.
  - apply check_date_fields_Return in E4 as [-> _]. apply datetime_new_Raise.
  - destruct (check_date_fields_spec year month day) as [[_ E]|[_ [msg E]]];
      rewrite E in E4; [done|]. injection E4 as <-. intros [= <-]. now eexists.
Qed.

Lemma Birthday_init_cases (s : str) :
  (exists b, Birthday.__init__ s = Return b)
  \/ Birthday.__init__ s = Raise Birthday_error.
Proof.
  unfold Birthday.__init__. destruct (strptime s) as [dt|e] eqn:E.
  - left. now eexists.
  - right. apply strptime_Raise in E as [msg ->]. reflexivity.
Qed.




(** ** Parsing and printing a date *)

Lemma all_from_spec (P : Z -> bool) (count : nat) (start : Z) :
  all_from P count start = true ->
  forall z, start <= z < start + Z.of_nat count -> P z = true.
Proof.
  revert start. induction count as [|count IH]; intros start H z Hz; [lia|].
  simpl in H. apply andb_true_iff in H as [H0 H].
  destruct (Z.eq_dec z start) as [->|]; [done|].
  apply (IH (start + 1)); [done|lia].
Qed.

Lemma zero_filled_4 (n : Z) :
  0 <= n <= 9999 -> zero_filled 4 n = four_digits_of n.
Proof.
  intros Hn. apply str_eqb_eq.
  apply (all_from_spec (fun n => str_eqb (zero_filled 4 n) (four_digits_of n))
                       (Z.to_nat 10000) 0); [vm_compute; reflexivity | lia].
Qed.

Lemma decimal_4 (n : Z) :
  1000 <= n <= 9999 -> decimal n = four_digits_of n.
Proof.
  intros Hn. apply str_eqb_eq.
  apply (all_from_spec (fun n => str_eqb (decimal n) (four_digits_of n))
                       (Z.to_nat 9000) 1000); [vm_compute; reflexivity | lia].
Qed.

Lemma decimal_short (n : Z) :
  0 <= n <= 999 -> (length (decimal n) <= 3)%nat.
Proof.
  intros Hn. apply Nat.leb_le.
  apply (all_from_spec (fun n => (length (decimal n) <=? 3)%nat)
                       (Z.to_nat 1000) 0); [vm_compute; reflexivity | lia].
Qed.

Lemma zero_filled_2 (n : Z) :
  0 <= n <= 99 -> zero_filled 2 n = two_digits_of n.
Proof.
  intros Hn. apply str_eqb_eq.
  apply (all_from_spec (fun n => str_eqb (zero_filled 2 n) (two_digits_of n))
                       (Z.to_nat 100) 0); [vm_compute; reflexivity | lia].
Qed.

Ltac digit_cases c H :=
  let E := fresh in
  assert (c = 48 \/ c = 49 \/ c = 50 \/ c = 51 \/ c = 52 \/ c = 53 \/ c = 54
          \/ c = 55 \/ c = 56 \/ c = 57)%N as E
    by (apply andb_true_iff in H as [? ?]; rewrite ?N.leb_le in *; lia);
  clear H; repeat (destruct E as [->|E]); [..|subst c].

Lemma ascii_digit_facts (c : N) :
  is_ascii_digit c = true ->
  0 <= digit_value c <= 9
  /\ digit_char (digit_value c) = c
  /\ Py_UNICODE_TODECIMAL c = Some (digit_value c)
  /\ Py_UNICODE_ISSPACE c = false.
Proof. intros H. digit_cases c H; vm_compute; intuition congruence. Qed.

Lemma re_d_two_digits {A} (d1 d2 : N) (rest : str) (k : str -> option A) (x : A) :
  is_ascii_digit d1 = true -> is_ascii_digit d2 = true ->
  1 <= number [d1; d2] <= 31 ->
  k rest = Some x -> re_match re_d (d1 :: d2 :: rest) k = Some x.
Proof.
  intros H1 H2 Hn Hk.
  digit_cases d1 H1; digit_cases d2 H2;
    try (exfalso; vm_compute in Hn; destruct Hn as [Ha Hb];
         (now apply Ha) || (now apply Hb));
    vm_compute; now rewrite Hk.
Qed.

Lemma re_m_two_digits {A} (m1 m2 : N) (rest : str) (k : str -> option A) (x : A) :
  is_ascii_digit m1 = true -> is_ascii_digit m2 = true ->
  1 <= number [m1; m2] <= 12 ->
  k rest = Some x -> re_match re_m (m1 :: m2 :: rest) k = Some x.
Proof.
  intros H1 H2 Hn Hk.
  digit_cases m1 H1; digit_cases m2 H2;
    try (exfalso; vm_compute in Hn; destruct Hn as [Ha Hb];
         (now apply Ha) || (now apply Hb));
    vm_compute; now rewrite Hk.
Qed.

Lemma re_Y_four_digits {A} (y1 y2 y3 y4 : N) (rest : str) (k : str -> option A) :
  is_ascii_digit y1 = true -> is_ascii_digit y2 = true ->
  is_ascii_digit y3 = true -> is_ascii_digit y4 = true ->
  re_match re_Y (y1 :: y2 :: y3 :: y4 :: rest) k = k rest.
Proof.
  intros H1 H2 H3 H4. unfold re_Y. cbn [re_match].
  now rewrite !ascii_digit_is_decimal.
Qed.

Lemma int_digits_ascii (s : str) (acc : Z) :
  (forall c, c ∈ s -> is_ascii_digit c = true) ->
  int_digits acc s = Some (fold_left (fun acc c => 10 * acc + digit_value c) s acc).
Proof.
  revert acc. induction s as [|c s IH]; intros acc H; [reflexivity|]. simpl.
  destruct (ascii_digit_facts c) as (_ & _ & -> & _); [apply H; left|].
  apply IH. intros c' Hc'. apply H. now right.
Qed.

Lemma lstrip_digit (c : N) (s : str) :
  is_ascii_digit c = true -> lstrip (c :: s) = c :: s.
Proof.
  intros H. simpl. now destruct (ascii_digit_facts c H) as (_ & _ & _ & ->).
Qed.

(** [int] reads a text of ASCII digits as the number they write. *)
Lemma int_ascii (c : N) (s : str) :
  (forall c', c' ∈ c :: s -> is_ascii_digit c' = true) ->
  int (c :: s) = Return (number (c :: s)).
Proof.
  intros H. unfold int, strip.
  rewrite lstrip_digit by (apply H; left).
  destruct (rev (c :: s)) as [|c' s'] eqn:E.
  { apply (f_equal length) in E. rewrite length_rev in E. discriminate. }
  rewrite lstrip_digit.
  2:{ apply H. apply list_elem_of_In, in_rev. rewrite E. now left. }
  rewrite <- E, rev_involutive. now rewrite int_digits_ascii.
Qed.

Lemma format_regex_match_DD_MM_YYYY (d1 d2 m1 m2 y1 y2 y3 y4 : N) :
  (forall c, c ∈ [d1; d2; m1; m2; y1; y2; y3; y4] -> is_ascii_digit c = true) ->
  1 <= number [d1; d2] <= 31 -> 1 <= number [m1; m2] <= 12 ->
  format_regex_match (DD_MM_YYYY d1 d2 m1 m2 y1 y2 y3 y4)
  = Some ([d1; d2], [m1; m2], [y1; y2; y3; y4], []).
Proof.
  intros H Hd Hm.
  assert (is_ascii_digit d1 = true /\ is_ascii_digit d2 = true
          /\ is_ascii_digit m1 = true /\ is_ascii_digit m2 = true
          /\ is_ascii_digit y1 = true /\ is_ascii_digit y2 = true
          /\ is_ascii_digit y3 = true /\ is_ascii_digit y4 = true)
    as (D1 & D2 & M1 & M2 & Y1 & Y2 & Y3 & Y4).
  { repeat split; apply H; repeat ((now left) || right). }
  unfold format_regex_match, DD_MM_YYYY.
  apply re_d_two_digits; [done..|]. cbn [re_match]. 
  change (chr "." 46%N) with true. cbv iota.
  apply re_m_two_digits; [done..|]. cbn [re_match].
  change (chr "." 46%N) with true. cbv iota.
  now rewrite re_Y_four_digits.
Qed.

Lemma days_in_month_le_31 (y m : Z) : 1 <= m <= 12 -> _days_in_month y m <= 31.
Proof.
  intros Hm. unfold _days_in_month.
  month_cases m; destruct (_is_leap y); simpl; unfold index; simpl; lia.
Qed.

Lemma two_digits_number (a b : N) :
  is_ascii_digit a = true -> is_ascii_digit b = true ->
  0 <= number [a; b] <= 99 /\ two_digits_of (number [a; b]) = [a; b].
Proof.
  intros Ha Hb.
  destruct (ascii_digit_facts a Ha) as (Ra & Ea & _).
  destruct (ascii_digit_facts b Hb) as (Rb & Eb & _).
  unfold number, two_digits_of. simpl.
  set (x := digit_value a) in *. set (y := digit_value b) in *.
  split; [lia|].
  assert ((10 * (10 * 0 + x) + y) / 10 = x) as -> by (Z.div_mod_to_equations; lia).
  assert ((10 * (10 * 0 + x) + y) mod 10 = y) as -> by (Z.div_mod_to_equations; lia).
  now rewrite Ea, Eb.
Qed.

Lemma four_digits_number (a b c d : N) :
  is_ascii_digit a = true -> is_ascii_digit b = true ->
  is_ascii_digit c = true -> is_ascii_digit d = true ->
  0 <= number [a; b; c; d] <= 9999
  /\ four_digits_of (number [a; b; c; d]) = [a; b; c; d].
Proof.
  intros Ha Hb Hc Hd.
  destruct (ascii_digit_facts a Ha) as (Ra & Ea & _).
  destruct (ascii_digit_facts b Hb) as (Rb & Eb & _).
  destruct (ascii_digit_facts c Hc) as (Rc & Ec & _).
  destruct (ascii_digit_facts d Hd) as (Rd & Ed & _).
  unfold number, four_digits_of. simpl.
  set (x := digit_value a) in *. set (y := digit_value b) in *.
  set (z := digit_value c) in *. set (w := digit_value d) in *.
  set (n := 10 * (10 * (10 * (10 * 0 + x) + y) + z) + w).
  assert (0 <= n <= 9999 /\ n / 1000 = x /\ n / 100 mod 10 = y
          /\ n / 10 mod 10 = z /\ n mod 10 = w) as (Hn & -> & -> & -> & ->).
  { subst n. Z.div_mod_to_equations. lia. }
  split; [done|]. now rewrite Ea, Eb, Ec, Ed.
Qed.

Ltac in_list := repeat ((now left) || right).

Section round_trip.
Variables d1 d2 m1 m2 y1 y2 y3 y4 : N.
Hypothesis digits :
  forall c, c ∈ [d1; d2; m1; m2; y1; y2; y3; y4] -> is_ascii_digit c = true.

Local Abbreviation s := (DD_MM_YYYY d1 d2 m1 m2 y1 y2 y3 y4).
Local Abbreviation y := (number [y1; y2; y3; y4]).
Local Abbreviation m := (number [m1; m2]).
Local Abbreviation d := (number [d1; d2]).

Hypothesis valid : date_ok y m d.

Lemma strptime_DD_MM_YYYY : strptime s = Return (midnight y m d).
Proof.
  destruct valid as (Hy & Hm & Hd).
  pose proof (days_in_month_le_31 y m Hm) as H31.
  unfold strptime, _strptime.
  rewrite format_regex_match_DD_MM_YYYY by (done || lia).
  simpl negb. cbv iota.
  rewrite !int_ascii
    by (intros c Hc; apply digits; revert Hc;
        rewrite !elem_of_cons; intuition).
  simpl result_bind.
  destruct (check_date_fields_spec y m d) as [[_ ->]|[Hno _]]; [|done].
  simpl. now apply datetime_new_valid.
Qed.

Lemma strftime_DD_MM_YYYY (libc : year_style) :
  libc = four_digits \/ 1000 <= y ->
  strftime_dmY libc (midnight y m d) = s.
Proof.
  intros Hlibc.
  destruct (two_digits_number d1 d2) as [Rd Ed]; [apply digits; in_list..|].
  destruct (two_digits_number m1 m2) as [Rm Em]; [apply digits; in_list..|].
  destruct (four_digits_number y1 y2 y3 y4) as [Ry Ey]; [apply digits; in_list..|].
  unfold strftime_dmY, midnight. cbn [year month day].
  rewrite !zero_filled_2, Ed, Em by done.
  assert (match libc with
          | four_digits => zero_filled 4 y
          | bare_number => decimal y
          end = [y1; y2; y3; y4]) as ->; [|reflexivity].
  destruct libc.
  - now rewrite zero_filled_4.
  - destruct Hlibc as [|Hbig]; [done|]. now rewrite decimal_4 by lia.
Qed.

(** Where [%Y] is printed as a bare number, a year before 1000 comes out
    with fewer than four digits, and the text is shorter than DD.MM.YYYY. *)
Lemma strftime_DD_MM_YYYY_only (libc : year_style) :
  strftime_dmY libc (midnight y m d) = s ->
  libc = four_digits \/ 1000 <= y.
Proof.
  intros E. destruct libc; [now left|].
  destruct (Z_lt_le_dec y 1000) as [Hsmall|Hbig]; [exfalso | now right].
  destruct valid as (Hy & _).
  destruct (two_digits_number d1 d2) as [Rd Ed]; [apply digits; in_list..|].
  destruct (two_digits_number m1 m2) as [Rm Em]; [apply digits; in_list..|].
  pose proof (decimal_short y ltac:(unfold MINYEAR in *; lia)) as Hlen.
  apply (f_equal (@length N)) in E.
  unfold strftime_dmY, midnight in E. cbn [year month day] in E.
  rewrite !zero_filled_2, Ed, Em in E by done.
  rewrite !length_app in E. simpl in E. lia.
Qed.

Lemma datetime_str_DD_MM_YYYY :
  datetime_str (midnight y m d)
  = [y1; y2; y3; y4] ++ lit "-" ++ [m1; m2] ++ lit "-" ++ [d1; d2]
    ++ lit " 00:00:00".
Proof.
  destruct (two_digits_number d1 d2) as [Rd Ed]; [apply digits; in_list..|].
  destruct (two_digits_number m1 m2) as [Rm Em]; [apply digits; in_list..|].
  destruct (four_digits_number y1 y2 y3 y4) as [Ry Ey]; [apply digits; in_list..|].
  unfold datetime_str, midnight.
  cbn [year month day hour minute second microsecond].
  now rewrite !zero_filled_2, zero_filled_4, Ed, Em, Ey by done.
Qed.
End round_trip.

(** C4, as stated, fails at ["01.01.0099"], a valid date: [Birthday] accepts
    it, but where the C library prints [%Y] as a bare number (glibc, CPython
    up to 3.12) the date is printed back as ["01.01.99"]; and on every
    platform the rendering of the [Birthday] field itself, [Field.__str__],
    is that of its [datetime], ["0099-01-01 00:00:00"]. *)
Lemma Birthday_rendering_differs :
  let s := lit "01.01.0099" in
  exists b,
    Birthday.__init__ s = Return b
    /\ strftime_dmY bare_number (Field.value b) = lit "01.01.99"
    /\ strftime_dmY bare_number (Field.value b) <> s
    /\ Field.__str__ b = lit "0099-01-01 00:00:00"
    /\ Field.__str__ b <> s.
Proof.
  exists (Field.mk (midnight 99 1 1)).
  split; [reflexivity|]. split; [reflexivity|]. split; [discriminate|].
  split; [reflexivity | discriminate].
Qed.

(** C4, amended: for every string DD.MM.YYYY of ASCII digits that denotes a
    date of the calendar (years 0001 to 9999), [Birthday] is constructed and
    stores that date at midnight.  Printed with [strftime('%d.%m.%Y')], as
    [Record.__str__] prints it, the date gives back the input string
    exactly when the year is 1000 or later or the C library prints [%Y]
    with four digits: for a year before 1000 printed as a bare number the
    text differs from the input.  The rendering of the [Birthday] field
    itself, [Field.__str__], is ["YYYY-MM-DD 00:00:00"]. *)
Theorem Birthday_round_trip (libc : year_style) (d1 d2 m1 m2 y1 y2 y3 y4 : N) :
  let s := DD_MM_YYYY d1 d2 m1 m2 y1 y2 y3 y4 in
  let y := number [y1; y2; y3; y4] in
  let m := number [m1; m2] in
  let d := number [d1; d2] in
  (forall c, c ∈ [d1; d2; m1; m2; y1; y2; y3; y4] -> is_ascii_digit c = true) ->
  date_ok y m d ->
  exists b,
    Birthday.__init__ s = Return b
    /\ Field.value b = midnight y m d
    /\ (strftime_dmY libc (Field.value b) = s
        <-> libc = four_digits \/ 1000 <= y)
    /\ (libc = four_digits \/ 1000 <= y ->
        strftime_dmY libc (Field.value b) = s
        /\ forall record, Record.birthday record = Some b ->
             Record.__str__ libc record
             = lit "Contact name: " ++ Field.value (Record.name record)
               ++ lit ", phones: "
               ++ join (lit ", ") (phone_values (Record.phones record))
               ++ lit ", Birthday: " ++ s)
    /\ Field.__str__ b
       = [y1; y2; y3; y4] ++ lit "-" ++ [m1; m2] ++ lit "-" ++ [d1; d2]
         ++ lit " 00:00:00".
Proof.
  intros s y m d Hdigits Hvalid.
  exists (Field.mk (midnight y m d)).
  split.
  { apply Birthday_init_Return. now apply strptime_DD_MM_YYYY. }
  split; [reflexivity|]. split; [|split].
  - split.
    + now apply strftime_DD_MM_YYYY_only.
    + now apply strftime_DD_MM_YYYY.
  - intros Hlibc.
    pose proof (strftime_DD_MM_YYYY _ _ _ _ _ _ _ _ Hdigits libc Hlibc) as E.
    split; [exact E|]. intros record Hb.
    unfold Record.__str__. rewrite Hb. cbn [Field.value]. subst s y m d.
    now rewrite E.
  - now apply datetime_str_DD_MM_YYYY.
Qed.

Lemma Birthday_round_trip_witness :
  (exists b,
     Birthday.__init__ (lit "10.04.1990") = Return b
     /\ strftime_dmY bare_number (Field.value b) = lit "10.04.1990"
     /\ Field.__str__ b = lit "1990-04-10 00:00:00")
  /\ (exists b,
        Birthday.__init__ (lit "01.01.0099") = Return b
        /\ strftime_dmY four_digits (Field.value b) = lit "01.01.0099"
        /\ strftime_dmY bare_number (Field.value b) <> lit "01.01.0099").
Proof.
  split.
  - destruct (Birthday_round_trip bare_number 49 48 48 52 49 57 57 48)%N
      as (b & E & _ & _ & R & S).
    + intros c Hc.
      repeat (apply elem_of_cons in Hc as [->|Hc]; [reflexivity|]).
      now apply elem_of_nil in Hc.
    + vm_compute. repeat split; discriminate.
    + exists b. split; [exact E|]. split; [|exact S].
      apply R. right. vm_compute. discriminate.
  - destruct (Birthday_round_trip four_digits 48 49 48 49 48 48 57 57)%N
      as (b & E & V & I4 & _).
    + intros c Hc.
      repeat (apply elem_of_cons in Hc as [->|Hc]; [reflexivity|]).
      now apply elem_of_nil in Hc.
    + vm_compute. repeat split; discriminate.
    + destruct (Birthday_round_trip bare_number 48 49 48 49 48 48 57 57)%N
        as (b' & E' & V' & Ib & _).
      * intros c Hc.
        repeat (apply elem_of_cons in Hc as [->|Hc]; [reflexivity|]).
        now apply elem_of_nil in Hc.
      * vm_compute. repeat split; discriminate.
      * exists b. split; [exact E|]. split.
        -- apply I4. now left.
        -- assert (b' = b) as -> by congruence.
           intros Heq. apply Ib in Heq as [Heq|Heq]; [discriminate|].
           vm_compute in Heq. now apply Heq.
Defined.

(** ** What else [strptime] reads, and the scenarios of the specification *)

(** One-digit days and months, and a day written with a space, are read as
    well, and printed back with two digits. *)
Example strptime_accepts_short_forms (libc : year_style) :
  Birthday.__init__ (lit "5.4.1990") = Return (Field.mk (midnight 1990 4 5))
  /\ Birthday.__init__ (lit " 5.04.1990") = Return (Field.mk (midnight 1990 4 5))
  /\ strftime_dmY libc (midnight 1990 4 5) = lit "05.04.1990".
Proof. destruct libc; repeat split; reflexivity. Qed.

(** Decimal digits of other scripts are read too: here the day is written
    with an ASCII 1 and an ARABIC-INDIC DIGIT ZERO, the year in Arabic-Indic
    digits; the date is printed back in ASCII digits. *)
Example strptime_reads_other_scripts (libc : year_style) :
  Birthday.__init__ [49; 1632; 46; 48; 52; 46; 1633; 1641; 1641; 1632]%N
  = Return (Field.mk (midnight 1990 4 10))
  /\ strftime_dmY libc (midnight 1990 4 10) = lit "10.04.1990".
Proof. destruct libc; split; reflexivity. Qed.

(** What is not a date of the calendar, or has something after the year, is
    refused. *)
Example Birthday_refuses :
  Birthday.__init__ (lit "31.04.1990") = Raise Birthday_error
  /\ Birthday.__init__ (lit "29.02.1900") = Raise Birthday_error
  /\ Birthday.__init__ (lit "01.01.0000") = Raise Birthday_error
  /\ Birthday.__init__ (lit "10.04.1990 ") = Raise Birthday_error
  /\ Birthday.__init__ (lit "10-04-1990") = Raise Birthday_error
  /\ Birthday.__init__ (lit "1990.04.10") = Raise Birthday_error.
Proof. repeat split; reflexivity. Qed.

(** The session at the end of [task01.py], as far as the record of John is
    concerned. *)
Example scenario_john (libc : year_style) :
  exists r0 r1 r2 r3,
    Record.__init__ (lit "John") = Return r0
    /\ Record.add_phone (lit "1234567890") r0 = (Return tt, r1)
    /\ Record.add_birthday (lit "10.04.1990") r1 = (Return tt, r2)
    /\ Record.__str__ libc r2
       = lit "Contact name: John, phones: 1234567890, Birthday: 10.04.1990"
    /\ Record.edit_phone (lit "1234567890") (lit "1112223333") r2
       = (Return true, r3)
    /\ Record.__str__ libc r3
       = lit "Contact name: John, phones: 1112223333, Birthday: 10.04.1990"
    /\ Record.add_phone (lit "12345") r3 = (Raise Phone_error, r3).
Proof.
  do 4 eexists.
  split; [reflexivity|]. split; [reflexivity|]. split; [reflexivity|].
  split; [now destruct libc|]. split; [reflexivity|].
  split; [now destruct libc | reflexivity].
Qed.

(** * Round trips, invariants and the commands of [task02] *)

(** Membership in a list of literals, and its negation, by evaluation. *)
Ltac not_among :=
  let H := fresh in
  vm_compute; intros H;
  repeat (apply elem_of_cons in H as [H|H]; [discriminate|]);
  now apply elem_of_nil in H.

Ltac all_chars :=
  let c := fresh in let H := fresh in
  intros c H; repeat (apply elem_of_cons in H as [->|H]; [reflexivity|]);
  now apply elem_of_nil in H.

Ltac valid_phone := split; [reflexivity | all_chars].

Lemma add_phone_cases (phone : str) (r : Record.t) :
  (Phone_valid phone
   /\ Record.add_phone phone r
      = (Return tt, Record.set_phones (Record.phones r ++ [Field.mk phone]) r))
  \/ (~ Phone_valid phone /\ Record.add_phone phone r = (Raise Phone_error, r)).
Proof.
  unfold Record.add_phone. run.
  destruct (Phone.__init__ phone) as [p|e] eqn:E.
  - apply Phone_init_Return in E as [Hv ->]. now left.
  - apply Phone_init_Raise in E as [Hv ->]. now right.
Qed.

Lemma remove_phone_found (r : Record.t) (phone : str) before p after :
  Record.phones r = before ++ p :: after ->
  Field.value p = phone -> phone ∉ phone_values before ->
  Record.remove_phone phone r
  = (Return true, Record.set_phones (before ++ after) r).
Proof.
  intros Hps Hp Hno. unfold Record.remove_phone. run.
  rewrite Hps, remove_phone_loop_found by done.
  unfold Record.phones_remove. run. rewrite Hps.
  rewrite list_remove_first; [done|].
  apply value_not_in_values. now rewrite Hp.
Qed.

Lemma edit_phone_found (r : Record.t) (old_phone new_phone : str) before p after :
  Record.phones r = before ++ p :: after ->
  Field.value p = old_phone -> old_phone ∉ phone_values before ->
  Record.edit_phone old_phone new_phone r
  = match Phone.__init__ new_phone with
    | Return x => (Return true, Record.set_phones (before ++ x :: after) r)
    | Raise e => (Raise e, r)
    end.
Proof.
  intros Hps Hp Hno. unfold Record.edit_phone. run. rewrite Hps.
  rewrite edit_phone_loop_found by done.
  destruct (Phone.__init__ new_phone); [|done].
  rewrite Hps. simpl.
  now rewrite (insert_app_r_alt before (p :: after)), Nat.sub_diag by lia.
Qed.

Lemma phone_values_app (a b : list Phone.t) :
  phone_values (a ++ b) = phone_values a ++ phone_values b.
Proof. apply map_app. Qed.

Lemma set_phones_set_phones (a b : list Phone.t) (r : Record.t) :
  Record.set_phones a (Record.set_phones b r) = Record.set_phones a r.
Proof. reflexivity. Qed.

(** X1: [add_phone] then [remove_phone] of the same valid phone;
    [remove_phone] returns [True] in both cases.  If the record did not
    hold the phone, the two calls give the record back as it was.  If it
    held the phone already, it is the first earlier copy that is removed:
    the phones before it and after it stay in order, and the phone just
    added is last in the list; name and birthday are as they were. *)
Theorem add_then_remove_phone (r : Record.t) (phone : str) :
  Phone_valid phone ->
  (phone ∉ phone_values (Record.phones r) ->
   Record.remove_phone phone (snd (Record.add_phone phone r)) = (Return true, r))
  /\ (forall before p after,
        Record.phones r = before ++ p :: after ->
        Field.value p = phone -> phone ∉ phone_values before ->
        Record.remove_phone phone (snd (Record.add_phone phone r))
        = (Return true,
           Record.mk (Record.name r) (before ++ after ++ [Field.mk phone])
                     (Record.birthday r))).
Proof.
  intros Hv.
  destruct (add_phone_cases phone r) as [[_ E]|[Hn _]]; [|done].
  rewrite E. simpl. split.
  - intros Hno.
    rewrite (remove_phone_found _ phone (Record.phones r) (Field.mk phone) []);
      [|reflexivity | done | done].
    rewrite app_nil_r, set_phones_set_phones. now rewrite set_phones_same.
  - intros before p after Hps Hp Hno.
    rewrite (remove_phone_found _ phone before p (after ++ [Field.mk phone]));
      [done| |done|done].
    simpl. rewrite Hps. now rewrite <- app_assoc.
Qed.

Lemma add_then_remove_phone_witness :
  let a := Field.mk (V:=str) (lit "1234567890") in
  let b := Field.mk (V:=str) (lit "5555555555") in
  let r := Record.mk (Field.mk (lit "John")) [a; b; a] None in
  Record.remove_phone (lit "1112223333")
    (snd (Record.add_phone (lit "1112223333") r)) = (Return true, r)
  /\ Record.remove_phone (lit "5555555555")
       (snd (Record.add_phone (lit "5555555555") r))
     = (Return true, Record.mk (Field.mk (lit "John")) [a; a; b] None).
Proof.
  intros a b r. split.
  - apply (proj1 (add_then_remove_phone r (lit "1112223333")
                    ltac:(valid_phone))).
    not_among.
  - apply (proj2 (add_then_remove_phone r (lit "5555555555")
                    ltac:(valid_phone)) [a] b [a]);
      [reflexivity | reflexivity | not_among].
Defined.

(** X2: [edit_phone(old, new)] followed by [edit_phone(new, old)] gives the
    record back as it was, both calls returning [True], when [old] and
    [new] are valid and no phone before the first [old] has the value
    [new]; in between, [new] stands where [old] stood. *)
Theorem edit_phone_there_and_back (r : Record.t) (old_phone new_phone : str)
        before p after :
  Record.phones r = before ++ p :: after ->
  Field.value p = old_phone ->
  old_phone ∉ phone_values before -> new_phone ∉ phone_values before ->
  Phone_valid old_phone -> Phone_valid new_phone ->
  exists r',
    Record.edit_phone old_phone new_phone r = (Return true, r')
    /\ Record.phones r' = before ++ Field.mk new_phone :: after
    /\ Record.edit_phone new_phone old_phone r' = (Return true, r).
Proof.
  intros Hps Hp Hold Hnew Hvo Hvn.
  rewrite (edit_phone_found r old_phone new_phone before p after) by done.
  assert (Phone.__init__ new_phone = Return (Field.mk new_phone)) as ->
    by now apply Phone_init_Return.
  eexists. split; [reflexivity|]. split; [reflexivity|].
  rewrite (edit_phone_found _ new_phone old_phone before (Field.mk new_phone) after)
    by done.
  assert (Phone.__init__ old_phone = Return (Field.mk old_phone)) as ->
    by now apply Phone_init_Return.
  rewrite set_phones_set_phones. destruct p as [v]. simpl in Hp. subst v.
  now rewrite <- Hps, set_phones_same.
Qed.

Lemma edit_phone_there_and_back_witness :
  let john := Record.mk (Field.mk (lit "John"))
                [Field.mk (lit "1234567890"); Field.mk (lit "5555555555")] None in
  exists r',
    Record.edit_phone (lit "5555555555") (lit "1112223333") john = (Return true, r')
    /\ Record.phones r'
       = [Field.mk (lit "1234567890"); Field.mk (lit "1112223333")]
    /\ Record.edit_phone (lit "1112223333") (lit "5555555555") r'
       = (Return true, john).
Proof.
  intros john.
  apply (edit_phone_there_and_back john (lit "5555555555") (lit "1112223333")
           [Field.mk (lit "1234567890")] (Field.mk (lit "5555555555")) []);
    [reflexivity | reflexivity | not_among | not_among | valid_phone | valid_phone].
Defined.

(** What methods leave alone *)
Lemma remove_phone_frame (phone : str) (r : Record.t) :
  let r' := snd (Record.remove_phone phone r) in
  Record.name r' = Record.name r /\ Record.birthday r' = Record.birthday r.
Proof.
  unfold Record.remove_phone. run.
  generalize (Record.phones r) at 1 2. intros todo.
  induction todo as [|p todo IH]; simpl; [now split|].
  destruct (str_eqb (Field.value p) phone); [|exact IH].
  unfold Record.phones_remove. run.
  now destruct (list_remove p (Record.phones r)).
Qed.

Lemma edit_phone_frame (old_phone new_phone : str) (r : Record.t) :
  let r' := snd (Record.edit_phone old_phone new_phone r) in
  Record.name r' = Record.name r /\ Record.birthday r' = Record.birthday r
  /\ length (Record.phones r') = length (Record.phones r).
Proof.
  unfold Record.edit_phone. run. generalize 0%nat.
  generalize (Record.phones r) at 1 2 3. intros todo.
  induction todo as [|p todo IH]; intros i; simpl; [now repeat split|].
  destruct (str_eqb (Field.value p) old_phone); [|apply IH].
  run. destruct (Phone.__init__ new_phone); simpl; [|now repeat split].
  now rewrite length_insert.
Qed.

Lemma add_phone_frame (phone : str) (r : Record.t) :
  let r' := snd (Record.add_phone phone r) in
  Record.name r' = Record.name r /\ Record.birthday r' = Record.birthday r.
Proof. unfold Record.add_phone. run. now destruct (Phone.__init__ phone). Qed.

Lemma add_birthday_frame (birthday : str) (r : Record.t) :
  let r' := snd (Record.add_birthday birthday r) in
  Record.name r' = Record.name r /\ Record.phones r' = Record.phones r.
Proof. unfold Record.add_birthday. run. now destruct (Birthday.__init__ birthday). Qed.

Lemma Record_init_cases (name : str) :
  (name = [] /\ Record.__init__ name = Raise Name_error)
  \/ (name <> []
      /\ Record.__init__ name = Return (Record.mk (Field.mk name) [] None)).
Proof.
  unfold Record.__init__.
  destruct (Name_init_cases name) as [[-> E]|[Hne E]]; rewrite E; simpl; auto.
Qed.

(** X3: [Record(name)] succeeds only for a non-empty name, and gives the
    record of that name with no phone and no birthday; none of
    [add_phone], [remove_phone], [edit_phone], [add_birthday] changes the
    name, whether it raises or not.  Hence the name of a record a caller
    can obtain is never empty. *)
Theorem record_name_is_fixed (r : Record.t) :
  (forall name,
     Record.__init__ name = Return r ->
     name <> [] /\ r = Record.mk (Field.mk name) [] None)
  /\ (forall phone, key_of (snd (Record.add_phone phone r)) = key_of r)
  /\ (forall phone, key_of (snd (Record.remove_phone phone r)) = key_of r)
  /\ (forall old_phone new_phone,
        key_of (snd (Record.edit_phone old_phone new_phone r)) = key_of r)
  /\ (forall birthday, key_of (snd (Record.add_birthday birthday r)) = key_of r)
  /\ (reachable r -> key_of r <> []).
Proof.
  assert (forall phone, key_of (snd (Record.add_phone phone r)) = key_of r) as Ha.
  { intros. unfold key_of. now destruct (add_phone_frame phone r) as [-> _]. }
  split; [|split; [exact Ha|]].
  { intros name E. destruct (Record_init_cases name) as [[_ E']|[Hne E']];
      rewrite E' in E; [done|]. now injection E as <-. }
  clear Ha. split; [|split; [|split]].
  - intros. unfold key_of. now destruct (remove_phone_frame phone r) as [-> _].
  - intros. unfold key_of.
    now destruct (edit_phone_frame old_phone new_phone r) as [-> _].
  - intros. unfold key_of. now destruct (add_birthday_frame birthday r) as [-> _].
  - induction 1 as [name r E|r phone _ IH|r phone _ IH|r o n _ IH|r b _ IH].
    + destruct (Record_init_cases name) as [[_ E']|[Hne E']];
        rewrite E' in E; [done|]. now injection E as <-.
    + unfold key_of. now destruct (add_phone_frame phone r) as [-> _].
    + unfold key_of. now destruct (remove_phone_frame phone r) as [-> _].
    + unfold key_of. now destruct (edit_phone_frame o n r) as [-> _].
    + unfold key_of. now destruct (add_birthday_frame b r) as [-> _].
Qed.

Lemma record_name_is_fixed_witness :
  let r := Record.mk (Field.mk (lit "John")) [] None in
  lit "John" <> [] /\ key_of r <> [].
Proof.
  intros r. split.
  - apply (proj1 (record_name_is_fixed r) (lit "John")). reflexivity.
  - apply (proj2 (proj2 (proj2 (proj2 (proj2 (record_name_is_fixed r)))))).
    apply (reach_init (lit "John")). reflexivity.
Defined.

(** X4: [Record.add_birthday] either returns, and the record then has the
    name and the phones it had and a [Birthday] whose value is a datetime
    that exists, at midnight; or it raises the error of [Birthday] and
    leaves the record as it was, a birthday set before included.  Phones
    and name are never touched. *)
Theorem add_birthday_spec (r : Record.t) (birthday : str) :
  ((exists b,
      Birthday.__init__ birthday = Return b
      /\ datetime_valid (Field.value b)
      /\ time_of_day (Field.value b) = 0
      /\ Record.add_birthday birthday r
         = (Return tt,
            Record.mk (Record.name r) (Record.phones r) (Some b)))
   \/ (Birthday.__init__ birthday = Raise Birthday_error
       /\ Record.add_birthday birthday r = (Raise Birthday_error, r)))
  /\ Record.phones (snd (Record.add_birthday birthday r)) = Record.phones r
  /\ Record.name (snd (Record.add_birthday birthday r)) = Record.name r.
Proof.
  split; [|now destruct (add_birthday_frame birthday r)].
  unfold Record.add_birthday. run.
  destruct (Birthday_init_cases birthday) as [[b E]|E]; rewrite E.
  - left. exists b. split; [done|].
    apply Birthday_init_Return, strptime_midnight in E as [Hv Hm].
    split; [done|]. split; [|done]. now rewrite Hm.
  - now right.
Qed.

(** ** Printing a birthday and reading it back *)

Lemma digit_char_facts (n : Z) :
  0 <= n <= 9 ->
  is_ascii_digit (digit_char n) = true /\ digit_value (digit_char n) = n.
Proof.
  intros Hn. unfold is_ascii_digit, digit_value, digit_char.
  rewrite Z2N.id by lia. split; [|lia].
  apply andb_true_iff. split; apply N.leb_le; lia.
Qed.

Lemma number_two_digits_of (n : Z) :
  0 <= n <= 99 ->
  (forall c, c ∈ two_digits_of n -> is_ascii_digit c = true)
  /\ number (two_digits_of n) = n.
Proof.
  intros Hn. unfold two_digits_of.
  destruct (digit_char_facts (n / 10)) as [A1 V1]; [Z.div_mod_to_equations; lia|].
  destruct (digit_char_facts (n mod 10)) as [A2 V2]; [Z.div_mod_to_equations; lia|].
  split.
  - intros c Hc. repeat (apply elem_of_cons in Hc as [->|Hc]; [done|]).
    now apply elem_of_nil in Hc.
  - unfold number. simpl. rewrite V1, V2. Z.div_mod_to_equations. lia.
Qed.

Lemma number_four_digits_of (n : Z) :
  0 <= n <= 9999 ->
  (forall c, c ∈ four_digits_of n -> is_ascii_digit c = true)
  /\ number (four_digits_of n) = n.
Proof.
  intros Hn. unfold four_digits_of.
  destruct (digit_char_facts (n / 1000)) as [A1 V1]; [Z.div_mod_to_equations; lia|].
  destruct (digit_char_facts (n / 100 mod 10)) as [A2 V2];
    [Z.div_mod_to_equations; lia|].
  destruct (digit_char_facts (n / 10 mod 10)) as [A3 V3];
    [Z.div_mod_to_equations; lia|].
  destruct (digit_char_facts (n mod 10)) as [A4 V4]; [Z.div_mod_to_equations; lia|].
  split.
  - intros c Hc. repeat (apply elem_of_cons in Hc as [->|Hc]; [done|]).
    now apply elem_of_nil in Hc.
  - unfold number. simpl. rewrite V1, V2, V3, V4. Z.div_mod_to_equations. lia.
Qed.

(** The text [strftime] gives for a date, when the year is printed with
    four digits. *)
Lemma strftime_dmY_digits (libc : year_style) (y m d : Z) :
  date_ok y m d -> libc = four_digits \/ 1000 <= y ->
  strftime_dmY libc (midnight y m d)
  = two_digits_of d ++ lit "." ++ two_digits_of m ++ lit "." ++ four_digits_of y.
Proof.
  intros (Hy & Hm & Hd) Hlibc.
  pose proof (days_in_month_le_31 y m Hm) as H31.
  unfold strftime_dmY, midnight. cbn [year month day].
  rewrite !zero_filled_2 by lia.
  destruct libc.
  - now rewrite zero_filled_4 by lia.
  - destruct Hlibc as [|Hbig]; [done|]. now rewrite decimal_4 by lia.
Qed.

(** X5: Whatever text a [Birthday] was built from, building a [Birthday] from
    what [strftime('%d.%m.%Y')] prints for it gives the same birthday
    again, provided the year is printed with four digits (year 1000 and
    later, or a C library that zero-fills). *)
Theorem Birthday_of_its_rendering (libc : year_style) (s : str) (b : Birthday.t) :
  Birthday.__init__ s = Return b ->
  libc = four_digits \/ 1000 <= year (Field.value b) ->
  Birthday.__init__ (strftime_dmY libc (Field.value b)) = Return b.
Proof.
  intros Hb Hlibc. destruct b as [dt].
  apply Birthday_init_Return, strptime_midnight in Hb as [[Hd _] Hm].
  cbn [Field.value] in *. destruct dt as [y m d hh mm ss us].
  cbn [year month day] in *. unfold midnight in Hm. injection Hm as -> -> -> ->.
  apply Birthday_init_Return. cbn [Field.value].
  fold (midnight y m d). rewrite strftime_dmY_digits by done.
  pose proof Hd as (Hy & Hmo & Hday).
  pose proof (days_in_month_le_31 y m Hmo) as H31.
  destruct (number_two_digits_of d) as [Ad Nd]; [lia|].
  destruct (number_two_digits_of m) as [Am Nm]; [lia|].
  destruct (number_four_digits_of y) as [Ay Ny]; [lia|].
  assert (forall c,
            c ∈ two_digits_of d ++ two_digits_of m ++ four_digits_of y ->
            is_ascii_digit c = true) as Hdigits.
  { intros c Hc. rewrite !elem_of_app in Hc. destruct Hc as [Hc|[Hc|Hc]]; auto. }
  assert (date_ok (number (four_digits_of y)) (number (two_digits_of m))
                  (number (two_digits_of d))) as Hvalid
    by now rewrite Ny, Nm, Nd.
  pose proof (strptime_DD_MM_YYYY _ _ _ _ _ _ _ _ Hdigits Hvalid) as E.
  change (number [digit_char (d / 10); digit_char (d mod 10)])
    with (number (two_digits_of d)) in E.
  change (number [digit_char (m / 10); digit_char (m mod 10)])
    with (number (two_digits_of m)) in E.
  change (number [digit_char (y / 1000); digit_char (y / 100 mod 10);
                  digit_char (y / 10 mod 10); digit_char (y mod 10)])
    with (number (four_digits_of y)) in E.
  rewrite Ny, Nm, Nd in E. exact E.
Qed.

Lemma Birthday_of_its_rendering_witness :
  Birthday.__init__ (strftime_dmY bare_number (midnight 1990 4 10))
  = Return (Field.mk (midnight 1990 4 10)).
Proof.
  apply (Birthday_of_its_rendering bare_number (lit "10.04.1990")
           (Field.mk (midnight 1990 4 10))).
  - reflexivity.
  - right. vm_compute. discriminate.
Defined.

(** ** More on [get_upcoming_birthdays] *)

Lemma filter_sublist {A} (f : A -> bool) (l : list A) :
  sublist (List.filter f l) l.
Proof.
  induction l as [|x l IH]; simpl; [constructor|].
  destruct (f x); now constructor.
Qed.

Lemma get_upcoming_birthdays_cases (book : AddressBook.t) (now : datetime) :
  (exists e,
     datetime_add now (mk_timedelta 7 0 0) = Raise e
     /\ AddressBook.get_upcoming_birthdays now book = (Raise e, book))
  \/ (exists next_week,
        datetime_add now (mk_timedelta 7 0 0) = Return next_week
        /\ AddressBook.get_upcoming_birthdays now book
           = (Return (List.filter (in_window now next_week) (records book)),
              book)).
Proof.
  unfold AddressBook.get_upcoming_birthdays, bind, eval, get, ret.
  change (timedelta_new 7 0 0 0 0) with (Return (mk_timedelta 7 0 0)).
  cbv beta iota.
  destruct (datetime_add now (mk_timedelta 7 0 0)) as [nw|e].
  - right. exists nw. split; [done|]. now rewrite fold_visit.
  - left. now exists e.
Qed.

Lemma datetime_le_year (a b : datetime) :
  datetime_le a b = true -> year a <= year b.
Proof.
  unfold datetime_le, datetime_cmp, datetime_tuple. cbn [_cmp].
  destruct (Z.ltb_spec (year a) (year b)); [lia|].
  destruct (Z.ltb_spec (year b) (year a)); [discriminate | lia].
Qed.

Lemma year_of_next_week (now next_week : datetime) :
  datetime_valid now -> datetime_valid next_week ->
  instant next_week = instant now + 7 * day_us ->
  year next_week <= year now + 1.
Proof.
  intros Hv Hnw Hi.
  pose proof (time_of_day_bounds now Hv) as T1.
  pose proof (time_of_day_bounds next_week Hnw) as T2.
  destruct Hv as [(Hy & Hm & Hd) _]. destruct Hnw as [(Hy' & Hm' & Hd') _].
  unfold instant, toordinal, _ymd2ord, day_us in *.
  pose proof (day_of_year_bounds _ _ _ Hm Hd) as B1.
  pose proof (day_of_year_bounds _ _ _ Hm' Hd') as B2.
  destruct (Z_le_gt_dec (year next_week) (year now + 1)) as [|Hbig]; [done|].
  exfalso.
  pose proof (days_before_year_succ (year now)) as S1.
  pose proof (days_before_year_succ (year now + 1)) as S2.
  pose proof (days_before_year_mono (year now + 1 + 1) (year next_week) ltac:(lia)).
  destruct (_is_leap (year now)), (_is_leap (year now + 1)); simpl in *; lia.
Qed.

(** X6: [get_upcoming_birthdays] never changes the book, raising or not.
    What it returns is a sublist of the records of the book (same order, no
    record twice unless the book has it twice), each with a birthday whose
    year is the year of [now] or the one after: the year of birth is
    compared as it stands. *)
Theorem upcoming_birthdays_have_the_year_of_now_or_the_next
        (book : AddressBook.t) (now : datetime) :
  snd (AddressBook.get_upcoming_birthdays now book) = book
  /\ forall result,
       fst (AddressBook.get_upcoming_birthdays now book) = Return result ->
       sublist result (records book)
       /\ forall record, record ∈ result ->
            exists b, Record.birthday record = Some b
                      /\ year now <= year (Field.value b)
                      /\ (datetime_valid now -> year (Field.value b) <= year now + 1).
Proof.
  destruct (get_upcoming_birthdays_cases book now)
    as [(e & _ & E)|(nw & Ea & E)]; rewrite E; simpl.
  - split; [done|]. discriminate.
  - split; [done|]. intros result [= <-]. split; [apply filter_sublist|].
    intros record Hr. apply list_elem_of_In, filter_In in Hr as [_ Hw].
    unfold in_window in Hw. destruct (Record.birthday record) as [b|]; [|done].
    apply andb_true_iff in Hw as [H1 H2]. exists b. split; [done|].
    split; [now apply datetime_le_year|]. intros Hv.
    apply datetime_le_year in H2.
    pose proof (toordinal_bounds now Hv) as Hb. unfold _MAXORDINAL in Hb.
    destruct (Z_le_gt_dec (toordinal now + 7) _MAXORDINAL) as [Hok|Hover].
    + destruct (datetime_add_days now 7 Hv ltac:(lia)) as [Hadd _].
      destruct (Hadd ltac:(lia)) as (nw' & E' & Hnw & Hi).
      assert (nw' = nw) as -> by congruence.
      pose proof (year_of_next_week now nw Hv Hnw Hi). lia.
    + destruct (datetime_add_days now 7 Hv ltac:(lia)) as [_ Hadd].
      rewrite Hadd in Ea by lia. discriminate.
Qed.

Lemma upcoming_birthdays_have_the_year_of_now_or_the_next_witness :
  let john := Record.mk (Field.mk (lit "John")) []
                (Some (Field.mk (midnight 1990 4 10))) in
  let jane := Record.mk (Field.mk (lit "Jane")) []
                (Some (Field.mk (midnight 1991 4 5))) in
  let book := AddressBook.mk [(lit "Jane", jane); (lit "John", john)] in
  sublist [john] (records book)
  /\ exists b, Record.birthday john = Some b
               /\ 1990 <= year (Field.value b)
               /\ year (Field.value b) <= 1990 + 1.
Proof.
  intros john jane book.
  destruct (proj2 (upcoming_birthdays_have_the_year_of_now_or_the_next
                     book (midnight 1990 4 3)) [john] eq_refl) as [Hs Hy].
  split; [exact Hs|].
  destruct (Hy john ltac:(left)) as (b & Hb & Hlo & Hhi).
  exists b. split; [exact Hb|]. split; [exact Hlo|].
  apply Hhi. now apply datetime_ok_spec.
Defined.

(** ** Books *)

Lemma delete_cases (book : AddressBook.t) (name : str) :
  ((name ∉ dict_keys (AddressBook.data book))
   /\ AddressBook.delete name book = (Return tt, book))
  \/ (exists before record after,
        AddressBook.data book = before ++ (name, record) :: after
        /\ (name ∉ dict_keys before)
        /\ AddressBook.delete name book
           = (Return tt, AddressBook.mk (before ++ after))).
Proof.
  unfold AddressBook.delete. run.
  destruct (dict_contains (AddressBook.data book) name) eqn:E.
  - right. apply dict_contains_spec, dict_split in E as (d1 & v & d2 & Hd & Hno).
    exists d1, v, d2. split; [done|]. split; [done|].
    run. now rewrite Hd, dict_delitem_present.
  - left. split; [|done]. intros Hin. apply dict_contains_spec in Hin. congruence.
Qed.

Lemma add_record_data (book : AddressBook.t) (record : Record.t) :
  AddressBook.add_record record book
  = (Return tt,
     AddressBook.mk (dict_setitem (AddressBook.data book) (key_of record) record)).
Proof. reflexivity. Qed.

Lemma elem_of_dict_setitem {V} (d : dict V) (k : str) (v : V) k' v' :
  (k', v') ∈ dict_setitem d k v -> (k', v') = (k, v) \/ (k', v') ∈ d.
Proof.
  induction d as [|[k0 v0] d IH]; simpl.
  - intros H. apply list_elem_of_singleton in H. now left.
  - destruct (str_eqb k0 k) eqn:E.
    + apply str_eqb_eq in E. subst k0. intros H.
      apply elem_of_cons in H as [H|H]; [now left | right; now right].
    + intros H. apply elem_of_cons in H as [H|H]; [right; rewrite H; left|].
      destruct (IH H) as [?|?]; [now left | right; now right].
Qed.

(** X7: In a book built from the empty one by [add_record] and [delete], no
    name occurs twice and every record is filed under its own name, so
    that [find(name)] can only return a record of that name. *)
Theorem built_books_are_filed_by_name (book : AddressBook.t) :
  book_built book ->
  filed_by_name book
  /\ forall name record,
       AddressBook.find name book = (Return (Some record), book) ->
       key_of record = name.
Proof.
  intros Hb.
  assert (filed_by_name book) as Hf.
  { induction Hb as [|book record _ [Hok Hk]|book name _ [Hok Hk]].
    - split; [apply NoDup_nil_2|]. intros ? ? H. now apply elem_of_nil in H.
    - rewrite add_record_data. simpl. split; [now apply dict_ok_setitem|].
      intros name r H. apply elem_of_dict_setitem in H as [[= -> ->]|H]; auto.
    - destruct (delete_cases book name) as [[_ ->]|(d1 & r & d2 & Hd & _ & ->)];
        [now split|]. simpl. rewrite Hd in Hok, Hk.
      split; [now apply dict_ok_remove in Hok|].
      intros n r' H. apply Hk. apply elem_of_app in H. apply elem_of_app.
      destruct H as [H|H]; [left; exact H | right; right; exact H]. }
  split; [done|]. intros name record E. destruct Hf as [Hok Hk].
  unfold AddressBook.find in E. revert E. run. intros [= E].
  symmetry. apply Hk.
  clear Hok Hk. induction (AddressBook.data book) as [|[k v] d IH]; [done|].
  simpl in E. destruct (str_eqb k name) eqn:Ek.
  - apply str_eqb_eq in Ek. injection E as ->. subst. left.
  - right. now apply IH.
Qed.

Lemma built_books_are_filed_by_name_witness :
  let john := Record.mk (Field.mk (lit "John")) [] None in
  let book := snd (AddressBook.add_record john (AddressBook.mk [])) in
  filed_by_name book
  /\ (AddressBook.find (lit "John") book = (Return (Some john), book) ->
      key_of john = lit "John").
Proof.
  intros john book.
  destruct (built_books_are_filed_by_name book) as [Hf Hk].
  - apply built_add_record. apply built_empty.
  - split; [exact Hf|]. apply Hk.
Defined.

(** X8: [add_record] of a name the book does not have, then [delete] of
    that name, gives the book back.  [add_record] of a name the book has
    puts the new record at the place of the old one in the reading order;
    [delete] first and [add_record] after moves it to the end. *)
Theorem add_record_and_the_reading_order (book : AddressBook.t) (record : Record.t) :
  (key_of record ∉ dict_keys (AddressBook.data book) ->
   AddressBook.delete (key_of record) (snd (AddressBook.add_record record book))
   = (Return tt, book))
  /\ (forall before old after,
        AddressBook.data book = before ++ (key_of record, old) :: after ->
        key_of record ∉ dict_keys before ->
        records (snd (AddressBook.add_record record book))
        = records (AddressBook.mk before) ++ record :: records (AddressBook.mk after)
        /\ (dict_ok (AddressBook.data book) ->
            records (snd (AddressBook.add_record record
                            (snd (AddressBook.delete (key_of record) book))))
            = records (AddressBook.mk before) ++ records (AddressBook.mk after)
              ++ [record])).
Proof.
  split.
  - intros Hno. rewrite add_record_data. simpl.
    rewrite dict_setitem_absent by done.
    destruct (delete_cases (AddressBook.mk (AddressBook.data book
                                            ++ [(key_of record, record)]))
                           (key_of record))
      as [[Hc _]|(d1 & r & d2 & Hd & Hno1 & ->)].
    + exfalso. apply Hc. simpl. rewrite dict_keys_app. apply elem_of_app.
      right. left.
    + simpl in Hd. destruct book as [d]. simpl in *. f_equal. f_equal.
      assert (d2 = [] /\ d = d1) as [-> ->]; [|now rewrite app_nil_r].
      destruct d2 as [|x d2 _] using rev_ind.
      * apply app_inj_tail in Hd as [-> _]. done.
      * exfalso. rewrite app_comm_cons, app_assoc in Hd.
        apply app_inj_tail in Hd as [-> _]. apply Hno.
        rewrite dict_keys_app. apply elem_of_app. right. left.
  - intros before old after Hd Hno. unfold records. split.
    + rewrite add_record_data. simpl. rewrite Hd.
      rewrite dict_setitem_present by done.
      unfold dict_values. now rewrite map_app.
    + intros Hok.
      destruct (delete_cases book (key_of record))
        as [[Hc _]|(d1 & r & d2 & Hd' & Hno1 & ->)].
      * exfalso. apply Hc. rewrite Hd, dict_keys_app. apply elem_of_app.
        right. left.
      * assert (d1 = before /\ d2 = after) as [-> ->].
        { rewrite Hd in Hd'. clear -Hd' Hno Hno1.
          revert d1 Hd' Hno1. induction before as [|[k v] before IH];
            intros d1 Hd' Hno1.
          - destruct d1 as [|[k' v'] d1]; simpl in Hd'.
            + now injection Hd' as _ <-.
            + injection Hd' as <- _ _. exfalso. apply Hno1. simpl. left.
          - destruct d1 as [|[k' v'] d1]; simpl in Hd'.
            + injection Hd' as -> _ _. exfalso. apply Hno. simpl. left.
            + injection Hd' as <- <- Hd'. simpl in Hno, Hno1.
              apply not_elem_of_cons in Hno as [_ Hno].
              apply not_elem_of_cons in Hno1 as [_ Hno1].
              destruct (IH Hno d1 Hd' Hno1) as [-> ->]. done. }
        rewrite add_record_data. simpl. rewrite Hd in Hok.
        apply dict_ok_remove in Hok as [_ Hk].
        rewrite dict_setitem_absent by done.
        unfold dict_values. now rewrite !map_app, <- app_assoc.
Qed.

Lemma add_record_and_the_reading_order_witness :
  let john := Record.mk (Field.mk (lit "John")) [] None in
  AddressBook.delete (lit "John")
    (snd (AddressBook.add_record john (AddressBook.mk [])))
  = (Return tt, AddressBook.mk []).
Proof.
  intros john.
  apply (proj1 (add_record_and_the_reading_order (AddressBook.mk []) john)).
  apply not_elem_of_nil.
Defined.

Lemma Phone_init_invalid (phone : str) :
  ~ Phone_valid phone -> Phone.__init__ phone = Raise Phone_error.
Proof. intros H. now apply Phone_init_Raise. Qed.

Lemma Phone_init_valid (phone : str) :
  Phone_valid phone -> Phone.__init__ phone = Return (Field.mk phone).
Proof. intros H. now apply Phone_init_Return. Qed.

Lemma Phone_valid_nonempty (phone : str) : Phone_valid phone -> phone <> [].
Proof. intros [Hlen _] ->. discriminate. Qed.

Lemma dict_setitem_same {V} (d : dict V) (k : str) (v : V) :
  dict_get d k = Some v -> dict_setitem d k v = d.
Proof.
  induction d as [|[k' v'] d IH]; simpl; [done|].
  destruct (str_eqb k' k) eqn:E; [now intros [= ->]|].
  intros H. now rewrite IH.
Qed.

Lemma find_data (book : AddressBook.t) (name : str) :
  AddressBook.find name book
  = (Return (dict_get (AddressBook.data book) name), book).
Proof. reflexivity. Qed.

(** A method called on the record the book holds under [name]. *)
Lemma on_record_filed {A} (book : AddressBook.t) (name : str) before record after
      (method : M Record.t A) :
  AddressBook.data book = before ++ (name, record) :: after ->
  name ∉ dict_keys before ->
  task02.on_record name record method book
  = (task02.of_result (fst (method record)),
     AddressBook.mk (before ++ (name, snd (method record)) :: after)).
Proof.
  intros Hd Hno. unfold task02.on_record. destruct (method record) as [r record'].
  simpl. now rewrite Hd, dict_setitem_present.
Qed.

Section add_contact.
Variables (book : AddressBook.t) (name phone : str) (rest : list str).

Lemma add_contact_step :
  task02.add_contact (name :: phone :: rest) book
  = task02.input_error
      (task02.and_then
         (match dict_get (AddressBook.data book) name with
          | None =>
              task02.and_then (task02.lift (eval (Record.__init__ name)))
                (fun record =>
                   task02.and_then (task02.lift (AddressBook.add_record record))
                     (fun _ => task02.done (record, lit "Contact added.")))
          | Some record => task02.done (record, lit "Contact updated.")
          end)
         (fun chosen =>
            task02.and_then
              (if bool_decide (phone = []) then task02.done tt
               else task02.on_record name (fst chosen) (Record.add_phone phone))
              (fun _ => task02.done (snd chosen)))) book.
Proof.
  unfold task02.add_contact, task02.add_contact_func.
  cbv [task02.unpack_2_star task02.and_then task02.done task02.lift
       AddressBook.find bind get ret task02.of_result task02.input_error].
  cbn beta iota. destruct (dict_get (AddressBook.data book) name) as [record|].
  - cbn beta iota. now destruct (bool_decide (phone = [])).
  - cbn beta iota. destruct (eval (Record.__init__ name) book) as [[r|e] b].
    + cbn beta iota. destruct (AddressBook.add_record r b) as [[[]|e] b'];
        cbn beta iota; [|done]. now destruct (bool_decide (phone = [])).
    + done.
Qed.

Section existing.
Variables (before after : dict Record.t) (record : Record.t).
Hypothesis filed : AddressBook.data book = before ++ (name, record) :: after.
Hypothesis first : name ∉ dict_keys before.

Lemma add_contact_existing_no_phone :
  phone = [] ->
  task02.add_contact (name :: phone :: rest) book
  = (task02.Done (lit "Contact updated."), book).
Proof.
  intros E. rewrite add_contact_step. rewrite filed at 1.
  rewrite dict_get_first by done.
  now rewrite (bool_decide_eq_true_2 _ E).
Qed.

Lemma add_contact_existing_valid :
  Phone_valid phone ->
  task02.add_contact (name :: phone :: rest) book
  = (task02.Done (lit "Contact updated."),
     AddressBook.mk
       (before
        ++ (name, Record.set_phones (Record.phones record ++ [Field.mk phone]) record)
        :: after)).
Proof.
  intros Hv. rewrite add_contact_step. rewrite filed at 1.
  rewrite dict_get_first by done.
  unfold task02.input_error, task02.and_then, task02.done. cbn [fst snd].
  rewrite bool_decide_eq_false_2 by now apply Phone_valid_nonempty.
  rewrite (on_record_filed _ _ _ _ _ _ filed first).
  destruct (add_phone_cases phone record) as [[_ ->]|[Hn _]]; [|done].
  reflexivity.
Qed.

Lemma add_contact_existing_invalid :
  phone <> [] -> ~ Phone_valid phone ->
  task02.add_contact (name :: phone :: rest) book
  = (task02.Done
       (lit "Error: The phone number must contain exactly 10 digits."), book).
Proof.
  intros Hne Hn. rewrite add_contact_step. rewrite filed at 1.
  rewrite dict_get_first by done.
  unfold task02.input_error, task02.and_then, task02.done. cbn [fst snd].
  rewrite bool_decide_eq_false_2 by done.
  rewrite (on_record_filed _ _ _ _ _ _ filed first).
  destruct (add_phone_cases phone record) as [[Hv _]|[_ ->]]; [done|].
  cbn. destruct book as [d]. simpl in filed. now rewrite filed.
Qed.
End existing.

Section new.
Hypothesis absent : name ∉ dict_keys (AddressBook.data book).

Lemma add_contact_new_empty_name :
  name = [] ->
  task02.add_contact (name :: phone :: rest) book
  = (task02.Done (lit "Error: The name cannot be empty."), book).
Proof.
  intros E. rewrite add_contact_step.
  pose proof absent as Hget. apply dict_get_None in Hget. rewrite Hget.
  unfold task02.input_error, task02.and_then, task02.lift, eval.
  destruct (Record_init_cases name) as [[_ ->]|[Hne _]]; [|done]. reflexivity.
Qed.

Lemma add_contact_new_step :
  name <> [] ->
  task02.add_contact (name :: phone :: rest) book
  = let r0 := Record.mk (Field.mk name) [] None in
    let book' := AddressBook.mk (AddressBook.data book ++ [(name, r0)]) in
    task02.input_error
      (task02.and_then
         (if bool_decide (phone = []) then task02.done tt
          else task02.on_record name r0 (Record.add_phone phone))
         (fun _ => task02.done (lit "Contact added."))) book'.
Proof.
  intros Hne. rewrite add_contact_step.
  pose proof absent as Hget. apply dict_get_None in Hget. rewrite Hget.
  unfold task02.input_error, task02.and_then, task02.lift, eval.
  destruct (Record_init_cases name) as [[? _]|[_ ->]]; [done|].
  cbn [task02.of_result]. rewrite add_record_data. cbn [task02.of_result key_of
    Record.name Field.value task02.done fst snd].
  now rewrite dict_setitem_absent.
Qed.

Lemma add_contact_new_no_phone :
  name <> [] -> phone = [] ->
  task02.add_contact (name :: phone :: rest) book
  = (task02.Done (lit "Contact added."),
     AddressBook.mk (AddressBook.data book
                     ++ [(name, Record.mk (Field.mk name) [] None)])).
Proof.
  intros Hne E. rewrite add_contact_new_step by done. cbv zeta.
  now rewrite (bool_decide_eq_true_2 _ E).
Qed.

Lemma add_contact_new_valid :
  name <> [] -> Phone_valid phone ->
  task02.add_contact (name :: phone :: rest) book
  = (task02.Done (lit "Contact added."),
     AddressBook.mk (AddressBook.data book
                     ++ [(name, Record.mk (Field.mk name) [Field.mk phone] None)])).
Proof.
  intros Hne Hv. rewrite add_contact_new_step by done. cbv zeta.
  rewrite bool_decide_eq_false_2 by now apply Phone_valid_nonempty.
  unfold task02.input_error, task02.and_then.
  rewrite (on_record_filed _ name (AddressBook.data book) _ []) by done.
  destruct (add_phone_cases phone (Record.mk (Field.mk name) [] None))
    as [[_ ->]|[Hn _]]; [|done]. reflexivity.
Qed.

Lemma add_contact_new_invalid :
  name <> [] -> phone <> [] -> ~ Phone_valid phone ->
  task02.add_contact (name :: phone :: rest) book
  = (task02.Done
       (lit "Error: The phone number must contain exactly 10 digits."),
     AddressBook.mk (AddressBook.data book
                     ++ [(name, Record.mk (Field.mk name) [] None)])).
Proof.
  intros Hne Hp Hn. rewrite add_contact_new_step by done. cbv zeta.
  rewrite bool_decide_eq_false_2 by done.
  unfold task02.input_error, task02.and_then.
  rewrite (on_record_filed _ name (AddressBook.data book) _ []) by done.
  destruct (add_phone_cases phone (Record.mk (Field.mk name) [] None))
    as [[Hv _]|[_ ->]]; [done|]. reflexivity.
Qed.
End new.
End add_contact.

(** X9: The command [add] for a name that is in the book: the answer is
    [Contact updated.] and a valid phone is appended to the phones of that
    contact, the other contacts and the order of the book unchanged; with
    an invalid phone the answer is the text of the error of [Phone] and the
    book is unchanged. *)
Theorem add_contact_to_a_known_name (book : AddressBook.t) (name phone : str)
        (rest : list str) before record after :
  AddressBook.data book = before ++ (name, record) :: after ->
  name ∉ dict_keys before ->
  (phone = [] ->
   task02.add_contact (name :: phone :: rest) book
   = (task02.Done (lit "Contact updated."), book))
  /\ (Phone_valid phone ->
      task02.add_contact (name :: phone :: rest) book
      = (task02.Done (lit "Contact updated."),
         AddressBook.mk
           (before
            ++ (name, Record.mk (Record.name record)
                                (Record.phones record ++ [Field.mk phone])
                                (Record.birthday record))
            :: after)))
  /\ (phone <> [] -> ~ Phone_valid phone ->
      task02.add_contact (name :: phone :: rest) book
      = (task02.Done
           (lit "Error: The phone number must contain exactly 10 digits."),
         book)).
Proof.
  intros Hd Hno. split; [|split].
  - now apply add_contact_existing_no_phone with before after record.
  - now apply add_contact_existing_valid.
  - now apply add_contact_existing_invalid with before after record.
Qed.

Lemma add_contact_to_a_known_name_witness :
  let anna := Record.mk (Field.mk (lit "anna")) [] None in
  let john := Record.mk (Field.mk (lit "john")) [Field.mk (lit "5555555555")]
                (Some (Field.mk (midnight 1990 4 10))) in
  let jane := Record.mk (Field.mk (lit "jane")) [] None in
  let book := AddressBook.mk
                [(lit "anna", anna); (lit "john", john); (lit "jane", jane)] in
  task02.add_contact [lit "john"; lit "1234567890"] book
  = (task02.Done (lit "Contact updated."),
     AddressBook.mk
       [(lit "anna", anna);
        (lit "john",
         Record.mk (Field.mk (lit "john"))
           [Field.mk (lit "5555555555"); Field.mk (lit "1234567890")]
           (Some (Field.mk (midnight 1990 4 10))));
        (lit "jane", jane)])
  /\ task02.add_contact [lit "john"; lit "12345"] book
     = (task02.Done
          (lit "Error: The phone number must contain exactly 10 digits."),
        book).
Proof.
  intros anna john jane book.
  destruct (add_contact_to_a_known_name book (lit "john") (lit "1234567890")
              [] [(lit "anna", anna)] john [(lit "jane", jane)] eq_refl
              ltac:(not_among))
    as (_ & Hvalid & _).
  destruct (add_contact_to_a_known_name book (lit "john") (lit "12345")
              [] [(lit "anna", anna)] john [(lit "jane", jane)] eq_refl
              ltac:(not_among))
    as (_ & _ & Hinvalid).
  split.
  - apply Hvalid. valid_phone.
  - apply Hinvalid; [discriminate|]. intros [Hlen _]. discriminate.
Defined.

(** X10: The command [add] for a name that is not in the book: a new contact
    is appended to the book, with the phone if it is valid.  If the phone is
    invalid the answer is the error text of [Phone], and the contact has
    been added all the same, without a phone.  An empty name gives the
    error text of [Name] and no contact. *)
Theorem add_contact_of_a_new_name (book : AddressBook.t) (name phone : str)
        (rest : list str) :
  name ∉ dict_keys (AddressBook.data book) ->
  let fresh := Record.mk (Field.mk name) [] None in
  let added (record : Record.t) :=
    AddressBook.mk (AddressBook.data book ++ [(name, record)]) in
  (name = [] ->
   task02.add_contact (name :: phone :: rest) book
   = (task02.Done (lit "Error: The name cannot be empty."), book))
  /\ (name <> [] ->
      (phone = [] ->
       task02.add_contact (name :: phone :: rest) book
       = (task02.Done (lit "Contact added."), added fresh))
      /\ (Phone_valid phone ->
          task02.add_contact (name :: phone :: rest) book
          = (task02.Done (lit "Contact added."),
             added (Record.mk (Field.mk name) [Field.mk phone] None)))
      /\ (phone <> [] -> ~ Phone_valid phone ->
          task02.add_contact (name :: phone :: rest) book
          = (task02.Done
               (lit "Error: The phone number must contain exactly 10 digits."),
             added fresh))).
Proof.
  intros Hno fresh added. split; [now apply add_contact_new_empty_name|].
  intros Hne. split; [|split].
  - now apply add_contact_new_no_phone.
  - now apply add_contact_new_valid.
  - now apply add_contact_new_invalid.
Qed.

Lemma add_contact_of_a_new_name_witness :
  let john := Record.mk (Field.mk (lit "john")) [] None in
  let book := AddressBook.mk [(lit "john", john)] in
  task02.add_contact [lit "jane"; lit "1234567890"] book
  = (task02.Done (lit "Contact added."),
     AddressBook.mk
       [(lit "john", john);
        (lit "jane",
         Record.mk (Field.mk (lit "jane")) [Field.mk (lit "1234567890")] None)])
  /\ task02.add_contact [lit "jane"; lit "12345"] book
     = (task02.Done
          (lit "Error: The phone number must contain exactly 10 digits."),
        AddressBook.mk
          [(lit "john", john);
           (lit "jane", Record.mk (Field.mk (lit "jane")) [] None)]).
Proof.
  intros john book. split.
  - destruct (add_contact_of_a_new_name book (lit "jane") (lit "1234567890")
                [] ltac:(not_among)) as [_ H].
    destruct (H ltac:(discriminate)) as (_ & Hvalid & _).
    apply Hvalid. valid_phone.
  - destruct (add_contact_of_a_new_name book (lit "jane") (lit "12345")
                [] ltac:(not_among)) as [_ H].
    destruct (H ltac:(discriminate)) as (_ & _ & Hinvalid).
    apply Hinvalid; [discriminate|]. intros [Hlen _]. discriminate.
Defined.

Lemma Phone_valid_dec (phone : str) : Phone_valid phone \/ ~ Phone_valid phone.
Proof.
  destruct (Phone_init_cases phone) as [E|E].
  - left. now apply Phone_init_Return in E.
  - right. now apply Phone_init_Raise in E.
Qed.

Lemma add_contact_returns (args : list str) (book : AddressBook.t) :
  exists text book', task02.add_contact args book = (task02.Done text, book').
Proof.
  destruct args as [|name [|phone rest]]; [now eexists _, _..|].
  destruct (decide (name ∈ dict_keys (AddressBook.data book))) as [Hin|Hin].
  - apply dict_split in Hin as (d1 & r & d2 & Hd & Hno).
    destruct (decide (phone = [])) as [Hp|Hp].
    { eexists _, _. now apply add_contact_existing_no_phone with d1 d2 r. }
    destruct (Phone_valid_dec phone) as [Hv|Hv].
    + eexists _, _. exact (add_contact_existing_valid book name phone rest d1 d2 r Hd Hno Hv).
    + eexists _, _. now apply add_contact_existing_invalid with d1 d2 r.
  - destruct (decide (name = [])) as [Hn|Hn].
    { eexists _, _. now apply add_contact_new_empty_name. }
    destruct (decide (phone = [])) as [Hp|Hp].
    { eexists _, _. now apply add_contact_new_no_phone. }
    destruct (Phone_valid_dec phone) as [Hv|Hv].
    + eexists _, _. now apply add_contact_new_valid.
    + eexists _, _. now apply add_contact_new_invalid.
Qed.

(** X11: [add_contact] always returns a text: every exception that can arise
    in it is a [ValueError], which the decorator [input_error] turns into
    an answer.  With fewer than two arguments the answer is the message of
    the failed unpacking and the book is unchanged. *)
Theorem add_contact_never_raises (args : list str) (book : AddressBook.t) :
  (exists text book', task02.add_contact args book = (task02.Done text, book'))
  /\ (args = [] ->
      task02.add_contact args book
      = (task02.Done
           (lit "Error: not enough values to unpack (expected at least 2, got 0)"),
         book))
  /\ (forall name, args = [name] ->
      task02.add_contact args book
      = (task02.Done
           (lit "Error: not enough values to unpack (expected at least 2, got 1)"),
         book)).
Proof.
  split; [apply add_contact_returns|]. split; [now intros ->|]. now intros name ->.
Qed.

Lemma add_contact_never_raises_witness :
  task02.add_contact [lit "john"] (AddressBook.mk [])
  = (task02.Done
       (lit "Error: not enough values to unpack (expected at least 2, got 1)"),
     AddressBook.mk []).
Proof.
  apply (proj2 (proj2 (add_contact_never_raises [lit "john"] (AddressBook.mk [])))
           (lit "john")).
  reflexivity.
Defined.

(** ** [add_birthday], [show_birthday], [birthdays] *)

Lemma add_birthday_record_cases (birthday : str) (record : Record.t) :
  (exists b, Birthday.__init__ birthday = Return b
             /\ Record.add_birthday birthday record
                = (Return tt, Record.set_birthday (Some b) record))
  \/ (Birthday.__init__ birthday = Raise Birthday_error
      /\ Record.add_birthday birthday record = (Raise Birthday_error, record)).
Proof.
  unfold Record.add_birthday. run.
  destruct (Birthday_init_cases birthday) as [[b E]|E]; rewrite E.
  - left. now exists b.
  - now right.
Qed.

Lemma add_birthday_step (book : AddressBook.t) (name birthday : str) :
  task02.add_birthday [name; birthday] book
  = match dict_get (AddressBook.data book) name with
    | Some record =>
        task02.input_error
          (task02.and_then
             (task02.on_record name record (Record.add_birthday birthday))
             (fun _ => task02.done (lit "Birthday for " ++ name ++ lit " added.")))
          book
    | None => (task02.Done (lit "Contact " ++ name ++ lit " not found."), book)
    end.
Proof.
  unfold task02.add_birthday, task02.add_birthday_func.
  cbv [task02.unpack_2 task02.and_then task02.done task02.lift
       AddressBook.find bind get ret task02.of_result task02.input_error].
  cbn beta iota. now destruct (dict_get (AddressBook.data book) name).
Qed.

(** X12: The command [add-birthday] takes exactly two arguments; with fewer
    or more, the answer is the message of the failed unpacking.  For an
    unknown name the answer is [Contact ... not found.]; for a known one
    the birthday of that contact is set, or, when the date is refused, the
    answer is the error text of [Birthday].  Only in the success case does
    the book change. *)
Theorem add_birthday_command (book : AddressBook.t) (args : list str) :
  (args = [] ->
   task02.add_birthday args book
   = (task02.Done (lit "Error: not enough values to unpack (expected 2, got 0)"),
      book))
  /\ (forall name, args = [name] ->
      task02.add_birthday args book
      = (task02.Done (lit "Error: not enough values to unpack (expected 2, got 1)"),
         book))
  /\ (forall a b c rest, args = a :: b :: c :: rest ->
      task02.add_birthday args book
      = (task02.Done (lit "Error: too many values to unpack (expected 2)"), book))
  /\ (forall name birthday, args = [name; birthday] ->
      (name ∉ dict_keys (AddressBook.data book) ->
       task02.add_birthday args book
       = (task02.Done (lit "Contact " ++ name ++ lit " not found."), book))
      /\ (forall before record after,
            AddressBook.data book = before ++ (name, record) :: after ->
            name ∉ dict_keys before ->
            (forall b, Birthday.__init__ birthday = Return b ->
               task02.add_birthday args book
               = (task02.Done (lit "Birthday for " ++ name ++ lit " added."),
                  AddressBook.mk
                    (before
                     ++ (name, Record.mk (Record.name record)
                                         (Record.phones record) (Some b))
                     :: after)))
            /\ (Birthday.__init__ birthday = Raise Birthday_error ->
                task02.add_birthday args book
                = (task02.Done (lit "Error: Invalid date format. Use DD.MM.YYYY"),
                   book)))).
Proof.
  split; [now intros ->|]. split; [now intros name ->|].
  split; [now intros a b c rest ->|].
  intros name birthday ->. split.
  - intros Hno. rewrite add_birthday_step. now apply dict_get_None in Hno as ->.
  - intros before record after Hd Hno.
    assert (task02.add_birthday [name; birthday] book
            = task02.input_error
                (task02.and_then
                   (task02.on_record name record (Record.add_birthday birthday))
                   (fun _ => task02.done
                               (lit "Birthday for " ++ name ++ lit " added.")))
                book) as ->.
    { rewrite add_birthday_step, Hd. now rewrite dict_get_first. }
    unfold task02.input_error, task02.and_then.
    rewrite (on_record_filed _ _ _ _ _ _ Hd Hno).
    destruct (add_birthday_record_cases birthday record)
      as [(b' & Eb & ->)|[Eb ->]]; rewrite Eb.
    + split; [|done]. now intros b [= <-].
    + split; [done|]. intros _. cbn. destruct book as [d]. simpl in Hd.
      now rewrite Hd.
Qed.

Lemma add_birthday_command_witness :
  let john := Record.mk (Field.mk (lit "john")) [Field.mk (lit "1234567890")]
                None in
  let book := AddressBook.mk [(lit "john", john)] in
  task02.add_birthday [lit "john"; lit "10.04.1990"] book
  = (task02.Done (lit "Birthday for john added."),
     AddressBook.mk
       [(lit "john",
         Record.mk (Field.mk (lit "john")) [Field.mk (lit "1234567890")]
           (Some (Field.mk (midnight 1990 4 10))))])
  /\ task02.add_birthday [lit "john"; lit "1990-04-10"] book
     = (task02.Done (lit "Error: Invalid date format. Use DD.MM.YYYY"), book)
  /\ task02.add_birthday [lit "jane"; lit "10.04.1990"] book
     = (task02.Done (lit "Contact jane not found."), book)
  /\ task02.add_birthday [lit "john"] book
     = (task02.Done
          (lit "Error: not enough values to unpack (expected 2, got 1)"), book).
Proof.
  intros john book. split; [|split; [|split]].
  - destruct (add_birthday_command book [lit "john"; lit "10.04.1990"])
      as (_ & _ & _ & H).
    destruct (H (lit "john") (lit "10.04.1990") eq_refl) as [_ Hfound].
    destruct (Hfound [] john [] eq_refl ltac:(apply not_elem_of_nil)) as [Hok _].
    apply (Hok (Field.mk (midnight 1990 4 10))). reflexivity.
  - destruct (add_birthday_command book [lit "john"; lit "1990-04-10"])
      as (_ & _ & _ & H).
    destruct (H (lit "john") (lit "1990-04-10") eq_refl) as [_ Hfound].
    destruct (Hfound [] john [] eq_refl ltac:(apply not_elem_of_nil)) as [_ Hbad].
    apply Hbad. reflexivity.
  - destruct (add_birthday_command book [lit "jane"; lit "10.04.1990"])
      as (_ & _ & _ & H).
    destruct (H (lit "jane") (lit "10.04.1990") eq_refl) as [Hno _].
    apply Hno. not_among.
  - destruct (add_birthday_command book [lit "john"]) as (_ & H & _).
    apply (H (lit "john")). reflexivity.
Defined.

Lemma show_birthday_step (libc : year_style) (book : AddressBook.t)
      (name : str) (rest : list str) :
  task02.show_birthday libc (name :: rest) book
  = (task02.Done
       match dict_get (AddressBook.data book) name with
       | Some record =>
           match Record.birthday record with
           | Some b => name ++ lit "'s birthday is on "
                       ++ strftime_dmY libc (Field.value b)
           | None => name ++ lit " does not have a birthday set."
           end
       | None => lit "Contact " ++ name ++ lit " not found."
       end, book).
Proof.
  unfold task02.show_birthday, task02.show_birthday_func.
  cbv [task02.first_of task02.and_then task02.done task02.lift
       AddressBook.find bind get ret task02.of_result task02.input_error
       task02.birthday_text].
  cbn beta iota. destruct (dict_get (AddressBook.data book) name) as [record|];
    [|done]. now destruct (Record.birthday record).
Qed.

(** X13: The command [show-birthday] never changes the book.  Without an
    argument the answer is [Error: list index out of range]; otherwise it
    tells that the contact is not found, has no birthday, or gives the
    birthday as [strftime('%d.%m.%Y')] prints it; arguments after the first
    are ignored. *)
Theorem show_birthday_command (libc : year_style) (book : AddressBook.t)
        (args : list str) :
  snd (task02.show_birthday libc args book) = book
  /\ (args = [] ->
      fst (task02.show_birthday libc args book)
      = task02.Done (lit "Error: list index out of range"))
  /\ (forall name rest, args = name :: rest ->
      (name ∉ dict_keys (AddressBook.data book) ->
       fst (task02.show_birthday libc args book)
       = task02.Done (lit "Contact " ++ name ++ lit " not found."))
      /\ (forall record,
            dict_get (AddressBook.data book) name = Some record ->
            (Record.birthday record = None ->
             fst (task02.show_birthday libc args book)
             = task02.Done (name ++ lit " does not have a birthday set."))
            /\ (forall b, Record.birthday record = Some b ->
                fst (task02.show_birthday libc args book)
                = task02.Done (name ++ lit "'s birthday is on "
                               ++ strftime_dmY libc (Field.value b))))).
Proof.
  destruct args as [|name rest].
  { split; [done|]. split; [done|]. discriminate. }
  rewrite show_birthday_step. simpl fst; simpl snd.
  split; [done|]. split; [discriminate|]. intros n r [= <- <-]. split.
  - intros Hno. now apply dict_get_None in Hno as ->.
  - intros record ->. split; [now intros ->|]. now intros b ->.
Qed.

Lemma show_birthday_command_witness :
  let john := Record.mk (Field.mk (lit "john")) []
                (Some (Field.mk (midnight 1990 4 10))) in
  let jane := Record.mk (Field.mk (lit "jane")) [] None in
  let book := AddressBook.mk [(lit "john", john); (lit "jane", jane)] in
  fst (task02.show_birthday bare_number [lit "john"] book)
  = task02.Done (lit "john's birthday is on 10.04.1990")
  /\ fst (task02.show_birthday bare_number [lit "jane"] book)
     = task02.Done (lit "jane does not have a birthday set.")
  /\ fst (task02.show_birthday bare_number [lit "anna"] book)
     = task02.Done (lit "Contact anna not found.")
  /\ fst (task02.show_birthday bare_number [] book)
     = task02.Done (lit "Error: list index out of range").
Proof.
  intros john jane book. split; [|split; [|split]].
  - destruct (show_birthday_command bare_number book [lit "john"])
      as (_ & _ & H).
    destruct (H (lit "john") [] eq_refl) as [_ Hfound].
    destruct (Hfound john eq_refl) as [_ Hset].
    apply (Hset (Field.mk (midnight 1990 4 10))). reflexivity.
  - destruct (show_birthday_command bare_number book [lit "jane"])
      as (_ & _ & H).
    destruct (H (lit "jane") [] eq_refl) as [_ Hfound].
    destruct (Hfound jane eq_refl) as [Hunset _].
    apply Hunset. reflexivity.
  - destruct (show_birthday_command bare_number book [lit "anna"])
      as (_ & _ & H).
    destruct (H (lit "anna") [] eq_refl) as [Hno _].
    apply Hno. not_among.
  - destruct (show_birthday_command bare_number book []) as (_ & H & _).
    apply H. reflexivity.
Defined.

Lemma birthday_lines_window {S} (libc : year_style) (today next_week : datetime)
      (rs : list Record.t) (s : S) :
  task02.birthday_lines libc (List.filter (in_window today next_week) rs) s
  = (task02.Done (map (birthday_line libc)
                      (List.filter (in_window today next_week) rs)), s).
Proof.
  induction rs as [|r rs IH]; [done|]. simpl List.filter.
  destruct (in_window today next_week r) eqn:Ew; [|exact IH].
  simpl. unfold task02.and_then, task02.birthday_text, birthday_line.
  unfold in_window in Ew. destruct (Record.birthday r) as [b|]; [|done].
  unfold task02.done at 1. now rewrite IH.
Qed.

Lemma birthdays_step (libc : year_style) (now : datetime) (args : list str)
      (book : AddressBook.t) :
  task02.birthdays libc now args book
  = match datetime_add now (mk_timedelta 7 0 0) with
    | Return next_week =>
        (task02.Done
           match List.filter (in_window now next_week) (records book) with
           | [] => lit "No upcoming birthdays in the next week."
           | upcoming => join newline (map (birthday_line libc) upcoming)
           end, book)
    | Raise (ValueError msg) => (task02.Done (lit "Error: " ++ lit msg), book)
    | Raise e => (task02.Fail (task02.Exn e), book)
    end.
Proof.
  unfold task02.birthdays, task02.birthdays_func, task02.input_error,
    task02.and_then, task02.lift.
  destruct (get_upcoming_birthdays_cases book now) as [(e & -> & ->)|(nw & -> & ->)].
  - now destruct e.
  - simpl task02.of_result.
    pose proof (birthday_lines_window libc now nw (records book) book) as E.
    destruct (List.filter (in_window now nw) (records book)) as [|r rs]; [done|].
    now rewrite E.
Qed.

Lemma filter_in_window_upcoming (book : AddressBook.t) (now next_week : datetime) :
  datetime_valid now -> datetime_valid next_week ->
  instant next_week = instant now + 7 * day_us ->
  birthdays_valid book ->
  List.filter (in_window now next_week) (records book)
  = List.filter (upcoming now) (records book).
Proof.
  intros Hv Hnw Hi Hbook. apply filter_ext_in. intros r Hr.
  apply in_window_upcoming; [done..|].
  intros b Hb. apply (Hbook r b); [|done]. now apply list_elem_of_In.
Qed.

(** X14: The command [birthdays], as long as [now] plus 7 days is a datetime:
    the book is unchanged, the arguments are ignored, and the answer is one
    line [<name>'s birthday is on <date>] per contact whose birthday lies
    between [now] and 7 times 24 hours later, in the order of the book,
    joined by newlines, or [No upcoming birthdays in the next week.] when
    there is none. *)
Theorem birthdays_command (libc : year_style) (now : datetime) (args : list str)
        (book : AddressBook.t) :
  datetime_valid now -> birthdays_valid book ->
  toordinal now + 7 <= _MAXORDINAL ->
  task02.birthdays libc now args book
  = (task02.Done
       match List.filter (upcoming now) (records book) with
       | [] => lit "No upcoming birthdays in the next week."
       | found => join newline (map (birthday_line libc) found)
       end, book).
Proof.
  intros Hv Hbook Hord. pose proof (toordinal_bounds now Hv) as Hb.
  destruct (datetime_add_days now 7 Hv ltac:(unfold _MAXORDINAL in *; lia))
    as [Hadd _].
  destruct Hadd as (nw & E & Hnw & Hi); [lia|].
  rewrite birthdays_step, E.
  now rewrite (filter_in_window_upcoming book now nw).
Qed.

Lemma birthdays_command_witness :
  let john := Record.mk (Field.mk (lit "john")) []
                (Some (Field.mk (midnight 1990 4 10))) in
  let jane := Record.mk (Field.mk (lit "jane")) []
                (Some (Field.mk (midnight 1990 4 5))) in
  let anna := Record.mk (Field.mk (lit "anna")) [] None in
  let book := AddressBook.mk
                [(lit "john", john); (lit "anna", anna); (lit "jane", jane)] in
  task02.birthdays bare_number (midnight 1990 4 3) [] book
  = (task02.Done
       (lit "john's birthday is on 10.04.1990" ++ newline
        ++ lit "jane's birthday is on 05.04.1990"), book)
  /\ task02.birthdays bare_number (midnight 2025 4 3) [] book
     = (task02.Done (lit "No upcoming birthdays in the next week."), book).
Proof.
  intros john jane anna book.
  assert (birthdays_valid book) as Hbook.
  { intros r b Hr Hb. apply datetime_ok_spec.
    repeat (apply elem_of_cons in Hr as [->|Hr]);
      [injection Hb as <-; reflexivity | discriminate
      | injection Hb as <-; reflexivity | now apply elem_of_nil in Hr]. }
  split.
  - apply (birthdays_command bare_number (midnight 1990 4 3) [] book);
      [now apply datetime_ok_spec | exact Hbook | vm_compute; discriminate].
  - apply (birthdays_command bare_number (midnight 2025 4 3) [] book);
      [now apply datetime_ok_spec | exact Hbook | vm_compute; discriminate].
Defined.

(** X15: When [now] plus 7 days is past the year 9999, the [OverflowError]
    of the addition, ['date value out of range'], is not among the
    exceptions [input_error] catches: the command [birthdays] raises it,
    and the book is unchanged. *)
Theorem birthdays_in_the_last_week_of_9999 (libc : year_style) (now : datetime)
        (args : list str) (book : AddressBook.t) :
  datetime_valid now -> _MAXORDINAL < toordinal now + 7 ->
  task02.birthdays libc now args book
  = (task02.Fail (task02.Exn (OverflowError "date value out of range")), book).
Proof.
  intros Hv Hord. pose proof (toordinal_bounds now Hv) as Hb.
  destruct (datetime_add_days now 7 Hv ltac:(unfold _MAXORDINAL in *; lia))
    as [_ E].
  now rewrite birthdays_step, E.
Qed.

Lemma birthdays_in_the_last_week_of_9999_witness :
  task02.birthdays bare_number (mk_datetime 9999 12 25 12 0 0 0) []
    (AddressBook.mk [])
  = (task02.Fail (task02.Exn (OverflowError "date value out of range")),
     AddressBook.mk []).
Proof.
  apply birthdays_in_the_last_week_of_9999;
    [now apply datetime_ok_spec | vm_compute; reflexivity].
Defined.

Lemma split_from_words (s current : str) :
  (forall c, c ∈ current -> Py_UNICODE_ISSPACE c = false) ->
  forall w, w ∈ task02.split_from s current -> word w.
Proof.
  revert current. induction s as [|c s IH]; intros current Hc w Hw; simpl in Hw.
  - case_bool_decide as E; [now apply elem_of_nil in Hw|].
    apply list_elem_of_singleton in Hw as ->. now split.
  - destruct (Py_UNICODE_ISSPACE c) eqn:Es.
    + case_bool_decide as E.
      * apply (IH []); [|done]. intros c' Hc'. now apply elem_of_nil in Hc'.
      * apply elem_of_cons in Hw as [->|Hw]; [now split|].
        apply (IH []); [|done]. intros c' Hc'. now apply elem_of_nil in Hc'.
    + apply (IH (current ++ [c])); [|done]. intros c' Hc'.
      apply elem_of_app in Hc' as [Hc'|Hc']; [now apply Hc|].
      now apply list_elem_of_singleton in Hc' as ->.
Qed.

Lemma split_from_concat (s current : str) :
  concat (task02.split_from s current)
  = current ++ List.filter (fun c => negb (Py_UNICODE_ISSPACE c)) s.
Proof.
  revert current. induction s as [|c s IH]; intros current; simpl.
  - case_bool_decide as E; [now rewrite E | simpl; now rewrite !app_nil_r].
  - destruct (Py_UNICODE_ISSPACE c); simpl.
    + case_bool_decide as E; [now rewrite IH, E|]. simpl. now rewrite IH.
    + now rewrite IH, <- app_assoc.
Qed.

Lemma split_from_letters (w s current : str) :
  (forall c, c ∈ w -> Py_UNICODE_ISSPACE c = false) ->
  task02.split_from (w ++ s) current = task02.split_from s (current ++ w).
Proof.
  revert current. induction w as [|c w IH]; intros current Hw; simpl.
  - now rewrite app_nil_r.
  - rewrite (Hw c) by left. rewrite IH.
    + now rewrite <- app_assoc.
    + intros c' Hc'. apply Hw. now right.
Qed.

Lemma split_from_spaces (sep s : str) :
  whitespace_only sep ->
  task02.split_from (sep ++ s) [] = task02.split_from s [].
Proof.
  induction sep as [|c sep IH]; intros Hs; [done|]. simpl.
  rewrite (Hs c) by left.
  apply IH. intros c' Hc'. apply Hs. now right.
Qed.

Lemma split_from_separator (sep s current : str) :
  whitespace_only sep -> sep <> [] -> current <> [] ->
  task02.split_from (sep ++ s) current = current :: task02.split_from s [].
Proof.
  intros Hs Hne Hc. destruct sep as [|c sep]; [done|]. simpl.
  rewrite (Hs c) by left. rewrite bool_decide_eq_false_2 by done.
  f_equal. apply split_from_spaces. intros c' Hc'. apply Hs. now right.
Qed.

(** X16: [str.split()] as [parse_input] uses it: every word it returns is
    non-empty and free of white space, the words put together are the text
    with its white space removed, and there is no word exactly when the
    text is white space only. *)
Theorem split_gives_the_words (s : str) :
  Forall word (task02.split s)
  /\ concat (task02.split s)
     = List.filter (fun c => negb (Py_UNICODE_ISSPACE c)) s
  /\ (task02.split s = [] <-> whitespace_only s).
Proof.
  split; [|split].
  - apply Forall_forall. intros w Hw.
    apply (split_from_words s []); [|done].
    intros c Hc. now apply elem_of_nil in Hc.
  - apply split_from_concat.
  - pose proof (split_from_concat s []) as E. fold (task02.split s) in E.
    simpl in E. split.
    + intros E0. rewrite E0 in E. simpl in E. intros c Hc.
      destruct (Py_UNICODE_ISSPACE c) eqn:Es; [done|].
      assert (c ∈ List.filter (fun c => negb (Py_UNICODE_ISSPACE c)) s) as Hin.
      { apply list_elem_of_In, filter_In. split; [now apply list_elem_of_In|].
        now rewrite Es. }
      rewrite <- E in Hin. now apply elem_of_nil in Hin.
    + intros Hs. unfold task02.split.
      rewrite <- (app_nil_r s). now apply split_from_spaces.
Qed.

(** X17: Words joined by a non-empty separator of white space are split into
    the same words again. *)
Theorem split_of_join (sep : str) (words : list str) :
  whitespace_only sep -> sep <> [] -> Forall word words ->
  task02.split (join sep words) = words.
Proof.
  intros Hs Hne Hw. unfold task02.split.
  induction Hw as [|w words [Hw1 Hw2] Hws IH]; [done|].
  destruct words as [|w' words].
  - simpl. rewrite <- (app_nil_r w) at 1. rewrite split_from_letters by done.
    simpl. now rewrite bool_decide_eq_false_2.
  - change (join sep (w :: w' :: words)) with (w ++ sep ++ join sep (w' :: words)).
    rewrite split_from_letters by done. simpl app.
    rewrite split_from_separator by done. f_equal. exact IH.
Qed.

Lemma split_of_join_witness :
  task02.split (join (lit "  ") [lit "add"; lit "john"; lit "1234567890"])
  = [lit "add"; lit "john"; lit "1234567890"].
Proof.
  apply split_of_join; [all_chars | discriminate |].
  repeat (apply Forall_cons; split; [split; [discriminate | all_chars]|]).
  apply Forall_nil_2.
Defined.

Lemma lstrip_whitespace (s : str) : whitespace_only s -> lstrip s = [].
Proof.
  induction s as [|c s IH]; intros Hs; [done|]. simpl.
  rewrite (Hs c) by left. apply IH. intros c' Hc'. apply Hs. now right.
Qed.

Lemma strip_whitespace (s : str) : whitespace_only s -> strip s = [].
Proof. intros Hs. unfold strip. now rewrite (lstrip_whitespace s Hs). Qed.

Lemma parse_input_words (lower : str -> str) (user_input : str) :
  Forall word (task02.parse_input lower user_input).
Proof.
  apply Forall_forall. intros w Hw.
  apply (split_from_words (lower (strip user_input)) []); [|done].
  intros c Hc. now apply elem_of_nil in Hc.
Qed.

(** X18: Whatever [str.lower] does, [parse_input] returns words that are
    non-empty and free of white space; and a line of white space only gives
    the empty list (given that the lower case of the empty text is
    empty). *)
Theorem parse_input_spec (lower : str -> str) (user_input : str) :
  Forall word (task02.parse_input lower user_input)
  /\ (lower [] = [] -> whitespace_only user_input ->
      task02.parse_input lower user_input = []).
Proof.
  split; [apply parse_input_words|]. intros Hl Hs.
  unfold task02.parse_input. now rewrite strip_whitespace, Hl.
Qed.

Lemma parse_input_spec_witness :
  task02.parse_input ascii_lower (lit "   ") = [].
Proof.
  apply (proj2 (parse_input_spec ascii_lower (lit "   "))); [reflexivity|].
  all_chars.
Defined.

(** ** The branches of the loop of [main] *)

Import (notations) task02.

Section body.
Variables (lower : str -> str) (libc : year_style) (now : datetime).
Variables (user_input : str) (command : str) (args : list str).
Hypothesis parsed : task02.parse_input lower user_input = command :: args.

Lemma body_close :
  command ∈ [lit "close"; lit "exit"] ->
  task02.body lower libc now user_input
  = (task02.print (lit "Good bye!");;; task02.done task02.break)%run.
Proof.
  intros H. unfold task02.body. rewrite parsed.
  now rewrite bool_decide_eq_true_2.
Qed.

Lemma body_hello :
  command = lit "hello" ->
  task02.body lower libc now user_input
  = (task02.print (lit "How can I help you?");;;
     task02.done task02.next_iteration)%run.
Proof. intros ->. unfold task02.body. now rewrite parsed. Qed.

Lemma body_add :
  command = lit "add" ->
  task02.body lower libc now user_input
  = (text <- task02.on_book (task02.add_contact args);;
     task02.print text;;; task02.done task02.next_iteration)%run.
Proof. intros ->. unfold task02.body. now rewrite parsed. Qed.

Lemma body_change :
  command = lit "change" ->
  task02.body lower libc now user_input
  = (names <- task02.unpack_3 args;;
     let '(name, old_phone, new_phone) := names in
     record <- task02.on_book (task02.lift (AddressBook.find name));;
     match record with
     | Some record =>
         changed <- task02.on_book (task02.on_record name record
                      (Record.edit_phone old_phone new_phone));;
         task02.print (task02.bool_str changed)
     | None => task02.print (lit "Contact " ++ name ++ lit " not found.")
     end;;;
     task02.done task02.next_iteration)%run.
Proof. intros ->. unfold task02.body. now rewrite parsed. Qed.

Lemma body_phone :
  command = lit "phone" ->
  task02.body lower libc now user_input
  = (name <- task02.first_of args;;
     record <- task02.on_book (task02.lift (AddressBook.find name));;
     match record with
     | Some record =>
         task02.print (lit "Phones: "
                       ++ join (lit ", ") (map Field.value (Record.phones record)))
     | None => task02.print (lit "Contact " ++ name ++ lit " not found.")
     end;;;
     task02.done task02.next_iteration)%run.
Proof. intros ->. unfold task02.body. now rewrite parsed. Qed.

Lemma body_all :
  command = lit "all" ->
  task02.body lower libc now user_input
  = (w <- (fun w => (task02.Done w, w));;
     task02.print_all libc (dict_values (AddressBook.data (task02.book w)));;;
     task02.done task02.next_iteration)%run.
Proof. intros ->. unfold task02.body. now rewrite parsed. Qed.

Lemma body_add_birthday :
  command = lit "add-birthday" ->
  task02.body lower libc now user_input
  = (text <- task02.on_book (task02.add_birthday args);;
     task02.print text;;; task02.done task02.next_iteration)%run.
Proof. intros ->. unfold task02.body. now rewrite parsed. Qed.

Lemma body_show_birthday :
  command = lit "show-birthday" ->
  task02.body lower libc now user_input
  = (text <- task02.on_book (task02.show_birthday libc args);;
     task02.print text;;; task02.done task02.next_iteration)%run.
Proof. intros ->. unfold task02.body. now rewrite parsed. Qed.

Lemma body_birthdays :
  command = lit "birthdays" ->
  task02.body lower libc now user_input
  = (text <- task02.on_book (task02.birthdays libc now args);;
     task02.print text;;; task02.done task02.next_iteration)%run.
Proof. intros ->. unfold task02.body. now rewrite parsed. Qed.

Lemma body_else :
  command ∉ commands ->
  task02.body lower libc now user_input
  = (task02.print (lit "Invalid command.");;;
     task02.done task02.next_iteration)%run.
Proof.
  intros H. unfold task02.body. rewrite parsed.
  unfold commands in H. rewrite !not_elem_of_cons in H.
  destruct H as (H1 & H2 & H3 & H4 & H5 & H6 & H7 & H8 & H9 & H10 & _).
  rewrite bool_decide_eq_false_2
    by (rewrite !not_elem_of_cons; repeat split; [done..|apply not_elem_of_nil]).
  now rewrite !bool_decide_eq_false_2 by done.
Qed.

(** The command is one of the ten, or none of them. *)
Lemma command_cases :
  command ∈ [lit "close"; lit "exit"] \/ command = lit "hello"
  \/ command = lit "add" \/ command = lit "change" \/ command = lit "phone"
  \/ command = lit "all" \/ command = lit "add-birthday"
  \/ command = lit "show-birthday" \/ command = lit "birthdays"
  \/ command ∉ commands.
Proof.
  destruct (decide (command ∈ commands)) as [H|H]; [|tauto].
  unfold commands in H. rewrite !elem_of_cons in H. rewrite !elem_of_cons.
  destruct H as [H|[H|[H|[H|[H|[H|[H|[H|[H|[H|H]]]]]]]]]]; try tauto.
Qed.
End body.

(** ** The book of a session *)

Lemma dict_get_Some_elem {V} (d : dict V) (k : str) (v : V) :
  dict_get d k = Some v -> (k, v) ∈ d.
Proof.
  induction d as [|[k' v'] d IH]; [done|]. simpl.
  destruct (str_eqb k' k) eqn:E.
  - apply str_eqb_eq in E. intros [= ->]. subst. left.
  - intros H. right. now apply IH.
Qed.

Lemma elem_of_records (book : AddressBook.t) (record : Record.t) :
  record ∈ records book <-> exists name, (name, record) ∈ AddressBook.data book.
Proof.
  unfold records, dict_values. rewrite list_elem_of_fmap. split.
  - intros ([k v] & -> & H). now exists k.
  - intros [k H]. now exists (k, record).
Qed.

Lemma book_ok_empty : book_ok (AddressBook.mk []).
Proof.
  split; [split|].
  - apply NoDup_nil_2.
  - intros ? ? H. now apply elem_of_nil in H.
  - apply Forall_nil_2.
Qed.

Lemma book_ok_setitem (book : AddressBook.t) (name : str) (record : Record.t) :
  book_ok book -> key_of record = name -> contact_ok record ->
  book_ok (AddressBook.mk (dict_setitem (AddressBook.data book) name record)).
Proof.
  intros [[Hok Hk] Hall] Hname Hrec. split; [split|]; simpl.
  - now apply dict_ok_setitem.
  - intros k r H. apply elem_of_dict_setitem in H as [[= -> ->]|H]; auto.
  - apply Forall_forall. intros r Hr. apply elem_of_records in Hr as [k H].
    simpl in H. apply elem_of_dict_setitem in H as [[= -> ->]|H]; [done|].
    rewrite Forall_forall in Hall. apply Hall, elem_of_records. now exists k.
Qed.

Lemma book_ok_found (book : AddressBook.t) (name : str) (record : Record.t) :
  book_ok book -> dict_get (AddressBook.data book) name = Some record ->
  key_of record = name /\ contact_ok record.
Proof.
  intros [[Hok Hk] Hall] Hg. apply dict_get_Some_elem in Hg. split.
  - symmetry. now apply Hk.
  - rewrite Forall_forall in Hall. apply Hall, elem_of_records. now exists name.
Qed.

Lemma on_record_book {A} (name : str) (record : Record.t) (method : M Record.t A)
      (book : AddressBook.t) :
  task02.on_record name record method book
  = (task02.of_result (fst (method record)),
     AddressBook.mk (dict_setitem (AddressBook.data book) name
                                  (snd (method record)))).
Proof. unfold task02.on_record. now destruct (method record). Qed.

Lemma add_phone_contact_ok (phone : str) (record : Record.t) :
  contact_ok record ->
  key_of (snd (Record.add_phone phone record)) = key_of record
  /\ contact_ok (snd (Record.add_phone phone record)).
Proof.
  intros (Hw & Hp & Hb). destruct (add_phone_frame phone record) as [En Eb].
  split; [unfold key_of; now rewrite En|].
  split; [unfold key_of; now rewrite En|].
  split; [now apply add_phone_validated | now rewrite Eb].
Qed.

Lemma edit_phone_contact_ok (old_phone new_phone : str) (record : Record.t) :
  contact_ok record ->
  key_of (snd (Record.edit_phone old_phone new_phone record)) = key_of record
  /\ contact_ok (snd (Record.edit_phone old_phone new_phone record)).
Proof.
  intros (Hw & Hp & Hb).
  destruct (edit_phone_frame old_phone new_phone record) as (En & Eb & _).
  split; [unfold key_of; now rewrite En|].
  split; [unfold key_of; now rewrite En|].
  split; [now apply edit_phone_validated | now rewrite Eb].
Qed.

Lemma add_birthday_contact_ok (birthday : str) (record : Record.t) :
  contact_ok record ->
  key_of (snd (Record.add_birthday birthday record)) = key_of record
  /\ contact_ok (snd (Record.add_birthday birthday record)).
Proof.
  intros (Hw & Hp & Hb).
  destruct (add_birthday_record_cases birthday record) as [(b & E & ->)|[E ->]].
  - simpl. split; [reflexivity|]. split; [exact Hw|]. split; [exact Hp|].
    simpl. intros b' [= <-]. apply Birthday_init_Return in E.
    now apply strptime_midnight in E.
  - simpl. split; [reflexivity|]. split; [exact Hw|]. split; [exact Hp|exact Hb].
Qed.

Lemma on_record_book_ok {A} (name : str) (record : Record.t)
      (method : M Record.t A) (book : AddressBook.t) :
  book_ok book -> dict_get (AddressBook.data book) name = Some record ->
  (contact_ok record ->
   key_of (snd (method record)) = key_of record
   /\ contact_ok (snd (method record))) ->
  book_ok (snd (task02.on_record name record method book)).
Proof.
  intros Hbook Hg Hm. destruct (book_ok_found _ _ _ Hbook Hg) as [Hk Hc].
  destruct (Hm Hc) as [Hk' Hc']. rewrite on_record_book. simpl.
  apply book_ok_setitem; [done| congruence |done].
Qed.

Lemma input_error_state {S} (func : task02.Run S str) (s : S) :
  snd (task02.input_error func s) = snd (func s).
Proof.
  unfold task02.input_error. destruct (func s) as [[a|e] s']; [done|].
  destruct e as [[]| | |]; reflexivity.
Qed.

Lemma add_contact_book_ok (args : list str) (book : AddressBook.t) :
  Forall word args -> book_ok book ->
  book_ok (snd (task02.add_contact args book)).
Proof.
  intros Hargs Hbook. destruct args as [|name [|phone rest]]; [done..|].
  apply Forall_cons in Hargs as [Hname _].
  destruct (dict_get (AddressBook.data book) name) as [record|] eqn:Hg.
  - rewrite add_contact_step, input_error_state, Hg. unfold task02.and_then.
    unfold task02.done at 1. cbn [fst snd].
    case_bool_decide; [done|].
    pose proof (on_record_book_ok name record (Record.add_phone phone) book
                  Hbook Hg (add_phone_contact_ok phone record)) as H'.
    destruct (task02.on_record name record (Record.add_phone phone) book)
      as [[[]|e] book']; exact H'.
  - apply dict_get_None in Hg.
    rewrite (add_contact_new_step book name phone rest Hg) by apply Hname.
    cbv zeta. rewrite input_error_state. unfold task02.and_then.
    set (record := Record.mk (Field.mk name) [] None).
    assert (contact_ok record) as Hrec.
    { split; [exact Hname|]. split; [apply Forall_nil_2 | discriminate]. }
    assert (book_ok (AddressBook.mk (AddressBook.data book ++ [(name, record)])))
      as Hbook'.
    { rewrite <- dict_setitem_absent by done. now apply book_ok_setitem. }
    case_bool_decide; [done|].
    assert (dict_get (AddressBook.data book ++ [(name, record)]) name
            = Some record) as Hg' by now apply dict_get_first.
    pose proof (on_record_book_ok name record (Record.add_phone phone) _
                  Hbook' Hg' (add_phone_contact_ok phone record)) as H'.
    destruct (task02.on_record name record (Record.add_phone phone) _)
      as [[[]|e] book']; exact H'.
Qed.

Lemma add_birthday_book_ok (args : list str) (book : AddressBook.t) :
  book_ok book -> book_ok (snd (task02.add_birthday args book)).
Proof.
  intros Hbook. destruct args as [|name [|birthday [|]]]; [done..| |done].
  rewrite add_birthday_step.
  destruct (dict_get (AddressBook.data book) name) as [record|] eqn:Hg; [|done].
  rewrite input_error_state. unfold task02.and_then.
  pose proof (on_record_book_ok name record (Record.add_birthday birthday) book
                Hbook Hg (add_birthday_contact_ok birthday record)) as H'.
  destruct (task02.on_record name record (Record.add_birthday birthday) book)
    as [[[]|e] book']; exact H'.
Qed.

Lemma on_book_run {A} (c : task02.Cmd A) (w : task02.world) :
  task02.on_book c w
  = (fst (c (task02.book w)),
     task02.mk_world (snd (c (task02.book w))) (task02.stdout w)).
Proof. unfold task02.on_book. now destruct (c (task02.book w)). Qed.

Lemma print_all_run (libc : year_style) (rs : list Record.t) (w : task02.world) :
  task02.print_all libc rs w
  = (task02.Done tt,
     wrote (task02.book w)
           (map (fun record => task02.Printed (Record.__str__ libc record)) rs) w).
Proof.
  revert w. induction rs as [|r rs IH]; intros [b out]; simpl.
  - unfold wrote. simpl. now rewrite app_nil_r.
  - unfold task02.and_then, task02.print. simpl. rewrite IH. unfold wrote. simpl.
    now rewrite <- app_assoc.
Qed.

Lemma show_birthday_book (libc : year_style) (args : list str)
      (book : AddressBook.t) :
  snd (task02.show_birthday libc args book) = book.
Proof. destruct args as [|name rest]; [done|]. now rewrite show_birthday_step. Qed.

Lemma birthdays_book (libc : year_style) (now : datetime) (args : list str)
      (book : AddressBook.t) :
  snd (task02.birthdays libc now args book) = book.
Proof.
  rewrite birthdays_step.
  destruct (datetime_add now (mk_timedelta 7 0 0)) as [nw|[]]; reflexivity.
Qed.

(** A command that shows text: the handler runs on the book, and what it
    gives is printed. *)
Lemma show_run (c : task02.Cmd str) (w : task02.world) :
  (text <- task02.on_book c;; task02.print text;;;
   task02.done task02.next_iteration)%run w
  = match fst (c (task02.book w)) with
    | task02.Done text =>
        (task02.Done task02.next_iteration,
         wrote (snd (c (task02.book w))) [task02.Printed text] w)
    | task02.Fail e =>
        (task02.Fail e, wrote (snd (c (task02.book w))) [] w)
    end.
Proof.
  unfold task02.and_then. rewrite on_book_run.
  destruct (c (task02.book w)) as [[text|e] b]; simpl; [done|].
  unfold wrote. simpl. now rewrite app_nil_r.
Qed.

Lemma body_book_ok (lower : str -> str) (libc : year_style) (now : datetime)
      (user_input : str) (w : task02.world) :
  book_ok (task02.book w) ->
  book_ok (task02.book (snd (task02.body lower libc now user_input w))).
Proof.
  intros Hbook.
  pose proof (parse_input_words lower user_input) as Hwords.
  destruct (task02.parse_input lower user_input) as [|command args] eqn:Hp.
  { unfold task02.body. now rewrite Hp. }
  apply Forall_cons in Hwords as [_ Hargs].
  destruct (command_cases command)
    as [H|[H|[H|[H|[H|[H|[H|[H|[H|H]]]]]]]]].
  - now rewrite (body_close _ _ _ _ _ _ Hp H).
  - now rewrite (body_hello _ _ _ _ _ _ Hp H).
  - rewrite (body_add _ _ _ _ _ _ Hp H), show_run.
    pose proof (add_contact_book_ok args _ Hargs Hbook) as H'.
    now destruct (task02.add_contact args (task02.book w)) as [[text|e] b].
  - rewrite (body_change _ _ _ _ _ _ Hp H).
    destruct args as [|name [|old_phone [|new_phone [|]]]]; [done..| |done].
    unfold task02.and_then, task02.unpack_3, task02.done at 1.
    rewrite on_book_run. unfold task02.lift. rewrite find_data.
    cbn [fst snd task02.of_result].
    destruct (dict_get (AddressBook.data (task02.book w)) name)
      as [record|] eqn:Hg; [|done].
    rewrite on_book_run. cbn [fst snd task02.book task02.stdout].
    pose proof (on_record_book_ok name record
                  (Record.edit_phone old_phone new_phone) _ Hbook Hg
                  (edit_phone_contact_ok old_phone new_phone record)) as H'.
    now destruct (task02.on_record name record
                    (Record.edit_phone old_phone new_phone) (task02.book w))
      as [[changed|e] b].
  - rewrite (body_phone _ _ _ _ _ _ Hp H).
    destruct args as [|name rest]; [done|].
    unfold task02.and_then, task02.first_of, task02.done at 1.
    rewrite on_book_run. unfold task02.lift. rewrite find_data.
    cbn [fst snd task02.of_result].
    now destruct (dict_get (AddressBook.data (task02.book w)) name).
  - rewrite (body_all _ _ _ _ _ _ Hp H). unfold task02.and_then.
    now rewrite print_all_run.
  - rewrite (body_add_birthday _ _ _ _ _ _ Hp H), show_run.
    pose proof (add_birthday_book_ok args _ Hbook) as H'.
    now destruct (task02.add_birthday args (task02.book w)) as [[text|e] b].
  - rewrite (body_show_birthday _ _ _ _ _ _ Hp H), show_run.
    pose proof (show_birthday_book libc args (task02.book w)) as E.
    destruct (task02.show_birthday libc args (task02.book w)) as [[text|e] b];
      simpl in *; now subst.
  - rewrite (body_birthdays _ _ _ _ _ _ Hp H), show_run.
    pose proof (birthdays_book libc now args (task02.book w)) as E.
    destruct (task02.birthdays libc now args (task02.book w)) as [[text|e] b];
      simpl in *; now subst.
  - now rewrite (body_else _ _ _ _ _ _ Hp H).
Qed.

Lemma loop_book_ok (lower : str -> str) (libc : year_style)
      (inputs : list (str * datetime)) (w : task02.world) :
  book_ok (task02.book w) ->
  book_ok (task02.book (snd (task02.loop lower libc inputs w))).
Proof.
  revert w. induction inputs as [|[user_input now] inputs IH]; intros w Hbook;
    [done|]. simpl.
  pose proof (body_book_ok lower libc now user_input
                (task02.mk_world (task02.book w)
                   (task02.stdout w ++ [task02.Prompted (lit "Enter a command: ")]))
                Hbook) as H'.
  destruct (task02.body lower libc now user_input _) as [[[]|e] w']; simpl in H'.
  - now apply IH.
  - done.
  - done.
Qed.

(** X19: Whatever lines are entered, at the end of [main] (normal or not) no
    name occurs twice in the book, every contact is filed under its own
    name, that name is a word (non-empty, no white space), every phone of
    every contact is one [Phone] accepts, and every birthday is midnight of
    a date that exists. *)
Theorem the_book_of_a_session (lower : str -> str) (libc : year_style)
        (inputs : list (str * datetime)) :
  let book := task02.book (snd (task02.main lower libc inputs)) in
  filed_by_name book
  /\ forall record, record ∈ records book ->
       word (key_of record)
       /\ Forall Phone_valid (phone_values (Record.phones record))
       /\ forall b, Record.birthday record = Some b ->
            exists y m d, date_ok y m d /\ Field.value b = midnight y m d.
Proof.
  assert (book_ok (task02.book (snd (task02.main lower libc inputs))))
    as [Hf Hall].
  { apply loop_book_ok. apply book_ok_empty. }
  split; [exact Hf|]. intros record Hr. rewrite Forall_forall in Hall.
  destruct (Hall record Hr) as (Hw & Hp & Hb). split; [exact Hw|]. split.
  - unfold phone_values. apply Forall_fmap. eapply Forall_impl; [exact Hp|].
    intros p Hv. now apply Phone_init_Return in Hv as [Hv _].
  - intros b E. destruct (Hb b E) as [[Hd _] Em].
    now exists (year (Field.value b)), (month (Field.value b)),
      (day (Field.value b)).
Qed.

Lemma the_book_of_a_session_witness :
  let now := midnight 2025 4 3 in
  let inputs := [(lit "add John 1234567890", now);
                 (lit "add-birthday john 10.04.1990", now);
                 (lit "change john 1234567890 12345", now)] in
  let john := Record.mk (Field.mk (lit "john")) [Field.mk (lit "1234567890")]
                (Some (Field.mk (midnight 1990 4 10))) in
  word (key_of john)
  /\ Forall Phone_valid (phone_values (Record.phones john)).
Proof.
  intros now inputs john.
  destruct (proj2 (the_book_of_a_session ascii_lower bare_number inputs) john)
    as (Hw & Hp & _); [|now split].
  vm_compute. left.
Defined.

(** ** One turn of the loop *)

Lemma loop_step (lower : str -> str) (libc : year_style) (user_input : str)
      (now : datetime) (rest : list (str * datetime)) (w : task02.world) :
  task02.loop lower libc ((user_input, now) :: rest) w
  = match task02.body lower libc now user_input (wrote (task02.book w) [prompt] w)
    with
    | (task02.Done task02.next_iteration, w') => task02.loop lower libc rest w'
    | (task02.Done task02.break, w') => (task02.returned, w')
    | (task02.Fail e, w') => (task02.uncaught e, w')
    end.
Proof. reflexivity. Qed.

Lemma wrote_wrote (b b' : AddressBook.t) (events events' : list task02.event)
      (w : task02.world) :
  wrote b' events' (wrote b events w) = wrote b' (events ++ events') w.
Proof. unfold wrote. simpl. now rewrite app_assoc. Qed.

Lemma print_run (line : str) (w : task02.world) :
  task02.print line w
  = (task02.Done tt, wrote (task02.book w) [task02.Printed line] w).
Proof. reflexivity. Qed.

Ltac written :=
  unfold wrote; cbn [task02.book task02.stdout]; rewrite <- ?app_assoc;
  reflexivity.

Lemma book_eta (book : AddressBook.t) :
  AddressBook.mk (AddressBook.data book) = book.
Proof. now destruct book. Qed.

(** X20: A line that is empty or white space only ends [main] with an
    uncaught [ValueError]: the unpacking [command, *args = ...] has nothing
    to unpack.  Only the prompt has been written, and the lines that follow
    are not read. *)
Theorem a_blank_line_ends_the_program (lower : str -> str) (libc : year_style)
        (user_input : str) (now : datetime) (rest : list (str * datetime))
        (w : task02.world) :
  lower [] = [] -> whitespace_only user_input ->
  task02.loop lower libc ((user_input, now) :: rest) w
  = (task02.uncaught
       (task02.Exn (ValueError
          "not enough values to unpack (expected at least 1, got 0)")),
     wrote (task02.book w) [prompt] w).
Proof.
  intros Hl Hs. rewrite loop_step. unfold task02.body, task02.parse_input.
  now rewrite strip_whitespace, Hl.
Qed.

Lemma a_blank_line_ends_the_program_witness :
  let w := task02.mk_world (AddressBook.mk []) [] in
  task02.loop ascii_lower bare_number
    [(lit "  ", midnight 2025 4 3); (lit "hello", midnight 2025 4 3)] w
  = (task02.uncaught
       (task02.Exn (ValueError
          "not enough values to unpack (expected at least 1, got 0)")),
     wrote (AddressBook.mk []) [prompt] w).
Proof.
  intros w. apply a_blank_line_ends_the_program; [reflexivity | all_chars].
Defined.

(** X21: When the first word of the line is [close] or [exit], whatever
    follows it, [main] prints [Good bye!] and returns; the book is
    unchanged and the lines that follow are not read. *)
Theorem close_and_exit_end_the_loop (lower : str -> str) (libc : year_style)
        (user_input : str) (now : datetime) (rest : list (str * datetime))
        (w : task02.world) (command : str) (args : list str) :
  task02.parse_input lower user_input = command :: args ->
  command ∈ [lit "close"; lit "exit"] ->
  task02.loop lower libc ((user_input, now) :: rest) w
  = (task02.returned,
     wrote (task02.book w) [prompt; task02.Printed (lit "Good bye!")] w).
Proof.
  intros Hp H. rewrite loop_step, (body_close _ _ _ _ _ _ Hp H).
  unfold task02.and_then. rewrite print_run. simpl.
  now rewrite wrote_wrote.
Qed.

Lemma close_and_exit_end_the_loop_witness :
  let w := task02.mk_world (AddressBook.mk []) [] in
  task02.loop ascii_lower bare_number
    [(lit "EXIT now", midnight 2025 4 3); (lit "hello", midnight 2025 4 3)] w
  = (task02.returned,
     wrote (AddressBook.mk []) [prompt; task02.Printed (lit "Good bye!")] w).
Proof.
  intros w.
  apply (close_and_exit_end_the_loop ascii_lower bare_number (lit "EXIT now")
           (midnight 2025 4 3) _ w (lit "exit") [lit "now"]);
    [reflexivity|]. right. left.
Defined.

Lemma change_run (lower : str -> str) (libc : year_style) (user_input : str)
      (now : datetime) (w : task02.world) (name old_phone new_phone : str) :
  task02.parse_input lower user_input
  = [lit "change"; name; old_phone; new_phone] ->
  task02.body lower libc now user_input w
  = match dict_get (AddressBook.data (task02.book w)) name with
    | None =>
        (task02.Done task02.next_iteration,
         wrote (task02.book w)
           [task02.Printed (lit "Contact " ++ name ++ lit " not found.")] w)
    | Some record =>
        let book' :=
          AddressBook.mk
            (dict_setitem (AddressBook.data (task02.book w)) name
               (snd (Record.edit_phone old_phone new_phone record))) in
        match fst (Record.edit_phone old_phone new_phone record) with
        | Return changed =>
            (task02.Done task02.next_iteration,
             wrote book' [task02.Printed (task02.bool_str changed)] w)
        | Raise e => (task02.Fail (task02.Exn e), wrote book' [] w)
        end
    end.
Proof.
  intros Hp. rewrite (body_change _ _ _ _ _ _ Hp eq_refl).
  unfold task02.and_then, task02.unpack_3, task02.done at 1.
  rewrite on_book_run. unfold task02.lift. rewrite find_data.
  cbn [fst snd task02.of_result].
  destruct (dict_get (AddressBook.data (task02.book w)) name) as [record|];
    [|now destruct w].
  rewrite on_book_run, on_record_book.
  cbn [fst snd task02.book task02.stdout].
  destruct (Record.edit_phone old_phone new_phone record) as [[changed|e] r'];
    cbn [fst snd task02.of_result]; [reflexivity|].
  unfold wrote. cbn. now rewrite app_nil_r.
Qed.

(** X22: The command [change].  With other than three arguments the
    unpacking raises a [ValueError] that nothing catches, and [main] ends.
    For an unknown name it prints [Contact ... not found.]; for a known one
    it prints [False] and changes nothing when the contact has no phone
    [old] (valid [new] or not); when [new] is valid it prints [True], and
    in the book the first phone [old] of that contact is now [new], the
    other phones, the name, the birthday and the other contacts being as
    they were; and it ends [main] with the uncaught error of [Phone],
    the book unchanged, when [old] is there and [new] is invalid. *)
Theorem change_command (lower : str -> str) (libc : year_style)
        (user_input : str) (now : datetime) (rest : list (str * datetime))
        (w : task02.world) (args : list str) :
  task02.parse_input lower user_input = lit "change" :: args ->
  let book := task02.book w in
  (length args <> 3%nat ->
   exists msg,
     task02.loop lower libc ((user_input, now) :: rest) w
     = (task02.uncaught (task02.Exn (ValueError msg)), wrote book [prompt] w))
  /\ (forall name old_phone new_phone,
        args = [name; old_phone; new_phone] ->
        (name ∉ dict_keys (AddressBook.data book) ->
         task02.loop lower libc ((user_input, now) :: rest) w
         = task02.loop lower libc rest
             (wrote book
                [prompt;
                 task02.Printed (lit "Contact " ++ name ++ lit " not found.")] w))
        /\ (forall earlier record later,
              AddressBook.data book = earlier ++ (name, record) :: later ->
              name ∉ dict_keys earlier ->
              (old_phone ∉ phone_values (Record.phones record) ->
               task02.loop lower libc ((user_input, now) :: rest) w
               = task02.loop lower libc rest
                   (wrote book [prompt; task02.Printed (lit "False")] w))
              /\ (forall before p after,
                    Record.phones record = before ++ p :: after ->
                    Field.value p = old_phone ->
                    old_phone ∉ phone_values before ->
                    (Phone_valid new_phone ->
                     task02.loop lower libc ((user_input, now) :: rest) w
                     = task02.loop lower libc rest
                         (wrote
                            (AddressBook.mk
                               (earlier
                                ++ (name,
                                    Record.mk (Record.name record)
                                      (before ++ Field.mk new_phone :: after)
                                      (Record.birthday record))
                                :: later))
                            [prompt; task02.Printed (lit "True")] w))
                    /\ (~ Phone_valid new_phone ->
                        task02.loop lower libc ((user_input, now) :: rest) w
                        = (task02.uncaught (task02.Exn Phone_error),
                           wrote book [prompt] w))))).
Proof.
  intros Hp book. split.
  { intros Hlen. rewrite loop_step, (body_change _ _ _ _ _ _ Hp eq_refl).
    destruct args as [|a [|b [|c [|]]]]; [| | |done|]; eexists; reflexivity. }
  intros name old_phone new_phone ->.
  rewrite loop_step, (change_run _ _ _ _ _ _ _ _ Hp).
  cbn [wrote task02.book task02.stdout]. fold book. split.
  { intros Hno. apply dict_get_None in Hno. rewrite Hno. f_equal. written. }
  intros earlier record later Hd Hfirst.
  assert (dict_get (AddressBook.data book) name = Some record) as Hg.
  { rewrite Hd. now apply dict_get_first. }
  rewrite Hg. cbv zeta. split.
  { intros Hno. rewrite edit_phone_absent by done.
    cbn [fst snd task02.bool_str]. rewrite dict_setitem_same by done.
    unfold book. rewrite book_eta. f_equal. written. }
  intros before p after Hps Hv Hno.
  rewrite (edit_phone_found record old_phone new_phone before p after Hps Hv Hno).
  split.
  - intros Hvalid. rewrite Phone_init_valid by done.
    cbn [fst snd task02.bool_str]. rewrite Hd, dict_setitem_present by done.
    f_equal. written.
  - intros Hinvalid. rewrite Phone_init_invalid by done.
    cbn [fst snd]. rewrite dict_setitem_same by done.
    unfold book. rewrite book_eta. f_equal. unfold wrote. cbn.
    now rewrite app_nil_r.
Qed.

Lemma change_command_witness :
  let anna := Record.mk (Field.mk (lit "anna")) [] None in
  let john := Record.mk (Field.mk (lit "john"))
                [Field.mk (lit "5555555555"); Field.mk (lit "1234567890")]
                (Some (Field.mk (midnight 1990 4 10))) in
  let w := task02.mk_world
             (AddressBook.mk [(lit "anna", anna); (lit "john", john)]) [] in
  task02.loop ascii_lower bare_number
    [(lit "change john 1234567890 1112223333", midnight 2025 4 3)] w
  = task02.loop ascii_lower bare_number []
      (wrote
         (AddressBook.mk
            [(lit "anna", anna);
             (lit "john",
              Record.mk (Field.mk (lit "john"))
                [Field.mk (lit "5555555555"); Field.mk (lit "1112223333")]
                (Some (Field.mk (midnight 1990 4 10))))])
         [prompt; task02.Printed (lit "True")] w)
  /\ task02.loop ascii_lower bare_number
       [(lit "change john 1234567890 12345", midnight 2025 4 3)] w
     = (task02.uncaught (task02.Exn Phone_error),
        wrote (task02.book w) [prompt] w)
  /\ task02.loop ascii_lower bare_number
       [(lit "change john 0000000000 12345", midnight 2025 4 3)] w
     = task02.loop ascii_lower bare_number []
         (wrote (task02.book w) [prompt; task02.Printed (lit "False")] w)
  /\ exists msg,
       task02.loop ascii_lower bare_number
         [(lit "change john 1234567890", midnight 2025 4 3)] w
       = (task02.uncaught (task02.Exn (ValueError msg)),
          wrote (task02.book w) [prompt] w).
Proof.
  intros anna john w. split; [|split; [|split]].
  - destruct (change_command ascii_lower bare_number
                (lit "change john 1234567890 1112223333") (midnight 2025 4 3)
                [] w [lit "john"; lit "1234567890"; lit "1112223333"] eq_refl)
      as [_ H].
    destruct (H (lit "john") (lit "1234567890") (lit "1112223333") eq_refl)
      as [_ Hfound].
    destruct (Hfound [(lit "anna", anna)] john [] eq_refl ltac:(not_among))
      as [_ Hold].
    destruct (Hold [Field.mk (lit "5555555555")] (Field.mk (lit "1234567890"))
                [] eq_refl eq_refl ltac:(not_among)) as [Hvalid _].
    apply Hvalid. valid_phone.
  - destruct (change_command ascii_lower bare_number
                (lit "change john 1234567890 12345") (midnight 2025 4 3) [] w
                [lit "john"; lit "1234567890"; lit "12345"] eq_refl) as [_ H].
    destruct (H (lit "john") (lit "1234567890") (lit "12345") eq_refl)
      as [_ Hfound].
    destruct (Hfound [(lit "anna", anna)] john [] eq_refl ltac:(not_among))
      as [_ Hold].
    destruct (Hold [Field.mk (lit "5555555555")] (Field.mk (lit "1234567890"))
                [] eq_refl eq_refl ltac:(not_among)) as [_ Hinvalid].
    apply Hinvalid. intros [Hlen _]. discriminate.
  - destruct (change_command ascii_lower bare_number
                (lit "change john 0000000000 12345") (midnight 2025 4 3) [] w
                [lit "john"; lit "0000000000"; lit "12345"] eq_refl) as [_ H].
    destruct (H (lit "john") (lit "0000000000") (lit "12345") eq_refl)
      as [_ Hfound].
    destruct (Hfound [(lit "anna", anna)] john [] eq_refl ltac:(not_among))
      as [Habsent _].
    apply Habsent. not_among.
  - destruct (change_command ascii_lower bare_number
                (lit "change john 1234567890") (midnight 2025 4 3) [] w
                [lit "john"; lit "1234567890"] eq_refl) as [H _].
    apply H. discriminate.
Defined.

(** X23: The command [phone] without a name ends [main] with an uncaught
    [IndexError].  With a name it prints the phones of the contact, joined
    by a comma and a space, or [Contact ... not found.], the book is
    unchanged and the loop goes on. *)
Theorem phone_command (lower : str -> str) (libc : year_style)
        (user_input : str) (now : datetime) (rest : list (str * datetime))
        (w : task02.world) (args : list str) :
  task02.parse_input lower user_input = lit "phone" :: args ->
  let book := task02.book w in
  (args = [] ->
   task02.loop lower libc ((user_input, now) :: rest) w
   = (task02.uncaught (task02.IndexError "list index out of range"),
      wrote book [prompt] w))
  /\ (forall name others, args = name :: others ->
      task02.loop lower libc ((user_input, now) :: rest) w
      = task02.loop lower libc rest
          (wrote book
             [prompt;
              task02.Printed
                match dict_get (AddressBook.data book) name with
                | Some record =>
                    lit "Phones: "
                    ++ join (lit ", ") (phone_values (Record.phones record))
                | None => lit "Contact " ++ name ++ lit " not found."
                end] w)).
Proof.
  intros Hp book. rewrite loop_step, (body_phone _ _ _ _ _ _ Hp eq_refl).
  split; [now intros ->|]. intros name others ->.
  unfold task02.and_then, task02.first_of, task02.done at 1.
  rewrite on_book_run. unfold task02.lift. rewrite find_data.
  cbn [fst snd task02.of_result wrote task02.book task02.stdout]. fold book.
  destruct (dict_get (AddressBook.data book) name) as [record|];
    rewrite print_run; cbn [task02.done]; f_equal; written.
Qed.

Lemma phone_command_witness :
  let john := Record.mk (Field.mk (lit "john"))
                [Field.mk (lit "1234567890"); Field.mk (lit "5555555555")] None in
  let w := task02.mk_world (AddressBook.mk [(lit "john", john)]) [] in
  task02.loop ascii_lower bare_number [(lit "phone", midnight 2025 4 3)] w
  = (task02.uncaught (task02.IndexError "list index out of range"),
     wrote (task02.book w) [prompt] w)
  /\ task02.loop ascii_lower bare_number [(lit "phone John", midnight 2025 4 3)] w
     = task02.loop ascii_lower bare_number []
         (wrote (task02.book w)
            [prompt; task02.Printed (lit "Phones: 1234567890, 5555555555")] w).
Proof.
  intros john w. split.
  - apply (proj1 (phone_command ascii_lower bare_number (lit "phone")
                    (midnight 2025 4 3) [] w [] eq_refl)).
    reflexivity.
  - apply (proj2 (phone_command ascii_lower bare_number (lit "phone John")
                    (midnight 2025 4 3) [] w [lit "john"] eq_refl)
             (lit "john") []).
    reflexivity.
Defined.

(** X24: The command [all] prints one line per contact, [Record.__str__] of
    it, in the order of the book (nothing for an empty book); the book is
    unchanged and the loop goes on. *)
Theorem all_command (lower : str -> str) (libc : year_style)
        (user_input : str) (now : datetime) (rest : list (str * datetime))
        (w : task02.world) (args : list str) :
  task02.parse_input lower user_input = lit "all" :: args ->
  task02.loop lower libc ((user_input, now) :: rest) w
  = task02.loop lower libc rest
      (wrote (task02.book w)
         (prompt :: map (fun record => task02.Printed (Record.__str__ libc record))
                        (records (task02.book w))) w).
Proof.
  intros Hp. rewrite loop_step, (body_all _ _ _ _ _ _ Hp eq_refl).
  unfold task02.and_then. rewrite print_all_run.
  cbn [task02.done wrote task02.book task02.stdout]. f_equal.
  unfold records. written.
Qed.

Lemma all_command_witness :
  let john := Record.mk (Field.mk (lit "john"))
                [Field.mk (lit "1234567890")]
                (Some (Field.mk (midnight 1990 4 10))) in
  let w := task02.mk_world (AddressBook.mk [(lit "john", john)]) [] in
  task02.loop ascii_lower bare_number [(lit "all", midnight 2025 4 3)] w
  = task02.loop ascii_lower bare_number []
      (wrote (task02.book w)
         [prompt;
          task02.Printed
            (lit "Contact name: john, phones: 1234567890, Birthday: 10.04.1990")]
         w).
Proof.
  intros john w.
  apply (all_command ascii_lower bare_number (lit "all") (midnight 2025 4 3)
           [] w []).
  reflexivity.
Defined.

(** ** How a turn of the loop can end *)

Lemma show_run_done (c : task02.Cmd str) (w : task02.world) :
  (forall e, fst (c (task02.book w)) <> task02.Fail e) ->
  exists text,
    (text <- task02.on_book c;; task02.print text;;;
     task02.done task02.next_iteration)%run w
    = (task02.Done task02.next_iteration,
       wrote (snd (c (task02.book w))) [task02.Printed text] w).
Proof.
  intros H. rewrite show_run.
  destruct (fst (c (task02.book w))) as [text|e]; [now exists text|].
  now destruct (H e).
Qed.

Lemma add_birthday_returns (args : list str) (book : AddressBook.t) :
  exists text, fst (task02.add_birthday args book) = task02.Done text.
Proof.
  destruct args as [|name [|birthday [|]]]; [now eexists..| |now eexists].
  rewrite add_birthday_step.
  destruct (dict_get (AddressBook.data book) name) as [record|];
    [|now eexists].
  unfold task02.input_error, task02.and_then. rewrite on_record_book.
  destruct (add_birthday_record_cases birthday record) as [(b & _ & ->)|[_ ->]];
    now eexists.
Qed.

Lemma show_birthday_returns (libc : year_style) (args : list str)
      (book : AddressBook.t) :
  exists text, fst (task02.show_birthday libc args book) = task02.Done text.
Proof.
  destruct args as [|name others]; [now eexists|].
  rewrite show_birthday_step. now eexists.
Qed.

Lemma birthdays_returns (libc : year_style) (now : datetime) (args : list str)
      (book : AddressBook.t) :
  datetime_valid now ->
  (exists text, fst (task02.birthdays libc now args book) = task02.Done text)
  \/ (_MAXORDINAL < toordinal now + 7
      /\ fst (task02.birthdays libc now args book)
         = task02.Fail (task02.Exn (OverflowError "date value out of range"))).
Proof.
  intros Hv. pose proof (toordinal_bounds now Hv) as Hb.
  destruct (datetime_add_days now 7 Hv ltac:(unfold _MAXORDINAL in *; lia))
    as [Hadd Hover].
  rewrite birthdays_step.
  destruct (Z_le_gt_dec (toordinal now + 7) _MAXORDINAL) as [Hle|Hgt].
  - destruct Hadd as (nw & -> & _); [lia|]. left. now eexists.
  - right. split; [lia|]. now rewrite Hover by lia.
Qed.

Lemma edit_phone_raises (old_phone new_phone : str) (r : Record.t) (e : exn) :
  fst (Record.edit_phone old_phone new_phone r) = Raise e -> e = Phone_error.
Proof.
  unfold Record.edit_phone. run. generalize 0%nat.
  generalize (Record.phones r) at 1. intros todo.
  induction todo as [|p todo IH]; intros i; simpl; [done|].
  destruct (str_eqb (Field.value p) old_phone); [|apply IH].
  run. destruct (Phone_init_cases new_phone) as [E|E]; rewrite E; simpl; [done|].
  now intros [= <-].
Qed.

Lemma body_cases (lower : str -> str) (libc : year_style) (now : datetime)
      (user_input : str) (w : task02.world) :
  datetime_valid now ->
  match fst (task02.body lower libc now user_input w) with
  | task02.Done task02.next_iteration => True
  | task02.Done task02.break =>
      exists command args,
        task02.parse_input lower user_input = command :: args
        /\ command ∈ [lit "close"; lit "exit"]
  | task02.Fail e => fatal lower user_input now e
  end.
Proof.
  intros Hnow.
  destruct (task02.parse_input lower user_input) as [|command args] eqn:Hp.
  { unfold task02.body. rewrite Hp. simpl. now apply fatal_blank. }
  destruct (command_cases command)
    as [H|[H|[H|[H|[H|[H|[H|[H|[H|H]]]]]]]]].
  - rewrite (body_close _ _ _ _ _ _ Hp H). simpl. now exists command, args.
  - now rewrite (body_hello _ _ _ _ _ _ Hp H).
  - rewrite (body_add _ _ _ _ _ _ Hp H), show_run.
    destruct (add_contact_returns args (task02.book w)) as (text & b & ->).
    done.
  - subst command.
    destruct args as [|name [|old_phone [|new_phone [|]]]];
      try (rewrite (body_change _ _ _ _ _ _ Hp eq_refl); simpl;
           eapply fatal_change; exact Hp).
    rewrite (change_run _ _ _ _ _ _ _ _ Hp).
    destruct (dict_get (AddressBook.data (task02.book w)) name) as [record|];
      [|done]. cbv zeta.
    pose proof (edit_phone_raises old_phone new_phone record) as He.
    destruct (fst (Record.edit_phone old_phone new_phone record)) as [c|e];
      [done|]. simpl. rewrite (He e eq_refl). eapply fatal_change; exact Hp.
  - subst command. rewrite (body_phone _ _ _ _ _ _ Hp eq_refl).
    destruct args as [|name others]; [simpl; now apply fatal_phone|].
    unfold task02.and_then, task02.first_of, task02.done at 1.
    rewrite on_book_run. unfold task02.lift. rewrite find_data.
    cbn [fst snd task02.of_result].
    now destruct (dict_get (AddressBook.data (task02.book w)) name).
  - rewrite (body_all _ _ _ _ _ _ Hp H). unfold task02.and_then.
    now rewrite print_all_run.
  - rewrite (body_add_birthday _ _ _ _ _ _ Hp H), show_run.
    now destruct (add_birthday_returns args (task02.book w)) as (text & ->).
  - rewrite (body_show_birthday _ _ _ _ _ _ Hp H), show_run.
    now destruct (show_birthday_returns libc args (task02.book w)) as (text & ->).
  - subst command. rewrite (body_birthdays _ _ _ _ _ _ Hp eq_refl), show_run.
    destruct (birthdays_returns libc now args (task02.book w) Hnow)
      as [(text & ->)|[Hover ->]]; [done|]. simpl.
    now apply fatal_birthdays with args.
  - now rewrite (body_else _ _ _ _ _ _ Hp H).
Qed.

Lemma loop_cases (lower : str -> str) (libc : year_style)
      (inputs : list (str * datetime)) (w : task02.world) :
  Forall (fun line => datetime_valid (snd line)) inputs ->
  match fst (task02.loop lower libc inputs w) with
  | task02.returned =>
      exists user_input now command args,
        (user_input, now) ∈ inputs
        /\ task02.parse_input lower user_input = command :: args
        /\ command ∈ [lit "close"; lit "exit"]
  | task02.uncaught e =>
      (e = task02.EOFError "EOF when reading a line"
       /\ forall user_input now command args,
            (user_input, now) ∈ inputs ->
            task02.parse_input lower user_input = command :: args ->
            command ∉ [lit "close"; lit "exit"])
      \/ exists user_input now,
           (user_input, now) ∈ inputs /\ fatal lower user_input now e
  end.
Proof.
  revert w. induction inputs as [|[user_input now] inputs IH]; intros w Hclock.
  { simpl. left. split; [done|]. intros ? ? ? ? H. now apply elem_of_nil in H. }
  apply Forall_cons in Hclock as [Hnow Hclock]. simpl in Hnow.
  rewrite loop_step.
  pose proof (body_cases lower libc now user_input
                (wrote (task02.book w) [prompt] w) Hnow) as Hbody.
  destruct (task02.body lower libc now user_input _) as [[[]|e] w'] eqn:Eb;
    simpl in Hbody.
  - specialize (IH w' Hclock).
    destruct (fst (task02.loop lower libc inputs w')) as [|e].
    + destruct IH as (l & n & c & a & Hin & Hp & Hc).
      exists l, n, c, a. split; [now right|done].
    + destruct IH as [[-> Hno]|(l & n & Hin & Hf)].
      * left. split; [done|]. intros l n c a Hin Hp.
        apply elem_of_cons in Hin as [[= -> ->]|Hin]; [|now apply (Hno l n c a)].
        intros Hc. pose proof (body_close lower libc now user_input c a Hp Hc) as E.
        rewrite E in Eb. discriminate.
      * right. exists l, n. split; [now right|done].
  - simpl. destruct Hbody as (c & a & Hp & Hc).
    exists user_input, now, c, a. split; [left|done].
  - simpl. right. exists user_input, now. split; [left|done].
Qed.

(** X25: [main] returns only if a line with the command [close] or [exit]
    was entered.  Otherwise it ends with an exception: [EOFError] when the
    input runs out (and then no line had [close] or [exit] as its
    command), or the exception of a blank line, of [change], of [phone]
    without a name, or of [birthdays] in the last week of 9999.  In
    particular no [AttributeError] or [KeyError] ever leaves it. *)
Theorem how_a_session_ends (lower : str -> str) (libc : year_style)
        (inputs : list (str * datetime)) :
  Forall (fun line => datetime_valid (snd line)) inputs ->
  match fst (task02.main lower libc inputs) with
  | task02.returned =>
      exists user_input now command args,
        (user_input, now) ∈ inputs
        /\ task02.parse_input lower user_input = command :: args
        /\ command ∈ [lit "close"; lit "exit"]
  | task02.uncaught e =>
      (e = task02.EOFError "EOF when reading a line"
       /\ forall user_input now command args,
            (user_input, now) ∈ inputs ->
            task02.parse_input lower user_input = command :: args ->
            command ∉ [lit "close"; lit "exit"])
      \/ exists user_input now,
           (user_input, now) ∈ inputs /\ fatal lower user_input now e
  end.
Proof. intros Hclock. now apply loop_cases. Qed.

(** X26: A line whose command is none of [close], [exit], [change], [phone],
    [birthdays] never ends the program: it prints some lines and the loop
    goes on with the lines that follow.  Unless the command is [add] or
    [add-birthday], the book is unchanged. *)
Theorem commands_that_cannot_end_the_program (lower : str -> str)
        (libc : year_style) (user_input : str) (now : datetime)
        (rest : list (str * datetime)) (w : task02.world)
        (command : str) (args : list str) :
  task02.parse_input lower user_input = command :: args ->
  command ∉ [lit "close"; lit "exit"; lit "change"; lit "phone";
             lit "birthdays"] ->
  exists book' lines,
    task02.loop lower libc ((user_input, now) :: rest) w
    = task02.loop lower libc rest
        (wrote book' (prompt :: map task02.Printed lines) w)
    /\ (command ∉ [lit "add"; lit "add-birthday"] -> book' = task02.book w).
Proof.
  intros Hp Hc. rewrite !not_elem_of_cons in Hc.
  destruct Hc as (H1 & H2 & H3 & H4 & H5 & _). rewrite loop_step.
  destruct (command_cases command)
    as [H|[H|[H|[H|[H|[H|[H|[H|[H|H]]]]]]]]]; try done.
  - rewrite !elem_of_cons in H. destruct H as [H|[H|H]]; [done..|].
    now apply elem_of_nil in H.
  - rewrite (body_hello _ _ _ _ _ _ Hp H). unfold task02.and_then.
    rewrite print_run. cbn [task02.done].
    exists (task02.book w), [lit "How can I help you?"]. split; [|done].
    f_equal. written.
  - rewrite (body_add _ _ _ _ _ _ Hp H), show_run.
    cbn [wrote task02.book task02.stdout].
    destruct (add_contact_returns args (task02.book w)) as (text & b & ->).
    exists b, [text]. split.
    + simpl. f_equal. written.
    + subst command. intros Hn. rewrite not_elem_of_cons in Hn. now destruct Hn.
  - rewrite (body_all _ _ _ _ _ _ Hp H). unfold task02.and_then.
    rewrite print_all_run. cbn [task02.done wrote task02.book task02.stdout].
    exists (task02.book w), (map (Record.__str__ libc) (records (task02.book w))).
    split; [|done]. f_equal. unfold records, wrote. simpl.
    now rewrite <- app_assoc, map_map.
  - rewrite (body_add_birthday _ _ _ _ _ _ Hp H), show_run.
    cbn [wrote task02.book task02.stdout].
    destruct (task02.add_birthday args (task02.book w)) as [r b] eqn:E.
    destruct (add_birthday_returns args (task02.book w)) as (text & Et).
    rewrite E in Et. simpl in Et. subst r. exists b, [text]. split.
    + simpl. f_equal. written.
    + subst command. intros Hn. rewrite !not_elem_of_cons in Hn.
      now destruct Hn as (_ & Hn & _).
  - rewrite (body_show_birthday _ _ _ _ _ _ Hp H), show_run.
    cbn [wrote task02.book task02.stdout].
    pose proof (show_birthday_book libc args (task02.book w)) as Eb.
    destruct (task02.show_birthday libc args (task02.book w)) as [r b] eqn:E.
    destruct (show_birthday_returns libc args (task02.book w)) as (text & Et).
    rewrite E in Et. simpl in Et, Eb. subst r b.
    exists (task02.book w), [text]. split; [|done]. simpl. f_equal. written.
  - rewrite (body_else _ _ _ _ _ _ Hp H). unfold task02.and_then.
    rewrite print_run. cbn [task02.done].
    exists (task02.book w), [lit "Invalid command."]. split; [|done].
    f_equal. written.
Qed.

Lemma commands_that_cannot_end_the_program_witness :
  let w := task02.mk_world (AddressBook.mk []) [] in
  exists book' lines,
    task02.loop ascii_lower bare_number [(lit "Hello", midnight 2025 4 3)] w
    = task02.loop ascii_lower bare_number []
        (wrote book' (prompt :: map task02.Printed lines) w)
    /\ book' = task02.book w.
Proof.
  intros w.
  destruct (commands_that_cannot_end_the_program ascii_lower bare_number
              (lit "Hello") (midnight 2025 4 3) [] w (lit "hello") []
              eq_refl ltac:(not_among)) as (book' & lines & E & Hb).
  exists book', lines. split; [exact E|]. apply Hb. not_among.
Defined.

Lemma how_a_session_ends_witness :
  let now := midnight 2025 4 3 in
  let inputs := [(lit "add John 1234567890", now); (lit "phone", now);
                 (lit "exit", now)] in
  exists user_input now',
    (user_input, now') ∈ inputs
    /\ fatal ascii_lower user_input now'
         (task02.IndexError "list index out of range").
Proof.
  intros now inputs.
  assert (Forall (fun line : str * datetime => datetime_valid (snd line)) inputs)
    as Hclock.
  { repeat (apply Forall_cons; split; [now apply datetime_ok_spec|]).
    apply Forall_nil_2. }
  pose proof (how_a_session_ends ascii_lower bare_number inputs Hclock) as H.
  assert (fst (task02.main ascii_lower bare_number inputs)
          = task02.uncaught (task02.IndexError "list index out of range")) as E
    by reflexivity.
  rewrite E in H. destruct H as [[H _]|H]; [discriminate | exact H].
Defined.
